(** * golf-intel: the data-shaping layer of [src/index.ts]

    The service is a set of request handlers.  Each one fetches JSON from
    the upstream API, reads fields through optional chaining, slices and
    maps arrays, and returns an [{ output: ... }] envelope.

    The embedding keeps the program's own view of its data: upstream
    payloads are loosely typed JSON values, property access on [null] or
    [undefined] raises a [TypeError], a method that the receiver lacks
    raises a [TypeError], [||] and [?:] test JavaScript truthiness.
    Handlers are functions into an error monad; a rejected promise is
    [Throw].

    Numbers are modelled as integers ([Z]); strings as sequences of 8-bit
    characters, with [toUpperCase] acting on the ASCII letters. *)

From Stdlib Require Import ZArith List String Ascii Bool Lia DecimalString.
Import ListNotations.

Local Open Scope Z_scope.
Local Open Scope list_scope.
Local Open Scope string_scope.

(** ** JavaScript values and exceptions *)

Module JS.

#[local] Set Warnings "-register-all".

Inductive value : Type :=
| VUndefined
| VNull
| VBool (b : bool)
| VNum (n : Z)
| VStr (s : string)
| VArr (elems : list value)
| VObj (fields : list (string * value)).

Inductive exn : Type :=
| TypeError                 (* property of null/undefined, or call of a non-function *)
| ApiError (status : Z)     (* new Error(`API error: ${response.status}`) *)
| NetworkError              (* fetch(url) rejected *)
| SyntaxError               (* response.json() rejected *)
| External (tag : string).  (* raised inside a library collaborator *)

Inductive res (A : Type) : Type :=
| Ok (a : A)
| Throw (e : exn).

Arguments Ok {A} a.
Arguments Throw {A} e.

Definition bind {A B : Type} (m : res A) (k : A -> res B) : res B :=
  match m with
  | Ok a => k a
  | Throw e => Throw e
  end.

Notation "x <- m ;; k" := (bind m (fun x => k))
  (at level 61, m at next level, right associativity).

(** [ToBoolean] *)
Definition truthy (v : value) : bool :=
  match v with
  | VUndefined | VNull => false
  | VBool b => b
  | VNum n => negb (n =? 0)%Z
  | VStr s => negb (s =? EmptyString)%string
  | VArr _ | VObj _ => true
  end.

Definition nullish (v : value) : bool :=
  match v with
  | VUndefined | VNull => true
  | _ => false
  end.

(** [a || b] *)
Definition js_or (a b : value) : value := if truthy a then a else b.

Fixpoint lookup (k : string) (fs : list (string * value)) : value :=
  match fs with
  | [] => VUndefined
  | (k', v) :: fs' => if (k =? k')%string then v else lookup k fs'
  end.

Fixpoint has_key (k : string) (fs : list (string * value)) : bool :=
  match fs with
  | [] => false
  | (k', _) :: fs' => (k =? k')%string || has_key k fs'
  end.

(** Own enumerable property write, as an object spread followed by a later
    key of the same name does: an existing key keeps its place. *)
Fixpoint obj_set (k : string) (v : value) (fs : list (string * value))
  : list (string * value) :=
  match fs with
  | [] => [(k, v)]
  | (k', v') :: fs' =>
      if (k =? k')%string then (k, v) :: fs' else (k', v') :: obj_set k v fs'
  end.

(** The value of [v.k] for a receiver that is neither [null] nor
    [undefined].  The keys the handlers read are data keys; of the
    built-in properties only [length] is read. *)
Definition prop (v : value) (k : string) : value :=
  match v with
  | VObj fs => lookup k fs
  | VArr l => if (k =? "length")%string then VNum (Z.of_nat (List.length l)) else VUndefined
  | VStr s => if (k =? "length")%string then VNum (Z.of_nat (String.length s)) else VUndefined
  | _ => VUndefined
  end.

(** [v.k] *)
Definition get (v : value) (k : string) : res value :=
  if nullish v then Throw TypeError else Ok (prop v k).

(** [v?.k] *)
Definition opt_get (v : value) (k : string) : value :=
  if nullish v then VUndefined else prop v k.

Definition nat_key (i : nat) : string := NilZero.string_of_uint (Nat.to_uint i).

Definition char_at (s : string) (i : nat) : value :=
  match String.get i s with
  | Some c => VStr (String c EmptyString)
  | None => VUndefined
  end.

Definition elem (v : value) (i : nat) : value :=
  match v with
  | VArr l => nth i l VUndefined
  | VStr s => char_at s i
  | VObj fs => lookup (nat_key i) fs
  | _ => VUndefined
  end.

(** [v[i]] *)
Definition idx (v : value) (i : nat) : res value :=
  if nullish v then Throw TypeError else Ok (elem v i).

(** [v?.[i]] *)
Definition opt_idx (v : value) (i : nat) : value :=
  if nullish v then VUndefined else elem v i.

(** [recv?.m(...)]: the call is skipped when the receiver is nullish. *)
Definition opt_call (recv : value) (call : value -> res value) : res value :=
  if nullish recv then Ok VUndefined else call recv.

(** [a || b] where evaluating [b] may raise *)
Definition or_else (a : value) (b : res value) : res value :=
  if truthy a then Ok a else b.

(** [a === s] for a string [s] *)
Definition strict_eq_str (a : value) (s : string) : bool :=
  match a with
  | VStr t => (t =? s)%string
  | _ => false
  end.

(** *** Strings *)

Fixpoint drop (n : nat) (s : string) : string :=
  match n, s with
  | O, _ => s
  | S n', String _ s' => drop n' s'
  | S _, EmptyString => EmptyString
  end.

Fixpoint take (n : nat) (s : string) : string :=
  match n, s with
  | S n', String c s' => String c (take n' s')
  | _, _ => EmptyString
  end.

(** Index of the first occurrence of [pat] in [s]. *)
Fixpoint index_of (pat s : string) : option nat :=
  if String.prefix pat s then Some O
  else match s with
       | EmptyString => None
       | String _ s' => option_map S (index_of pat s')
       end.

(** [s.includes(pat)] *)
Definition includes (pat s : string) : bool :=
  match index_of pat s with
  | Some _ => true
  | None => false
  end.

(** [s.split(sep)] for a non-empty separator.  [skip] counts the
    characters of a separator just matched that are still to be passed
    over; [cur] is the piece being collected. *)
Fixpoint split_go (sep : string) (skip : nat) (cur s : string) : list string :=
  match s with
  | EmptyString => [cur]
  | String c s' =>
      match skip with
      | S k => split_go sep k cur s'
      | O =>
          if String.prefix sep s
          then cur :: split_go sep (String.length sep - 1) EmptyString s'
          else split_go sep O (cur ++ String c EmptyString) s'
      end
  end.

Definition split (sep s : string) : list string := split_go sep O EmptyString s.

(** [s.replace(pat, repl)] with a string pattern: the first occurrence. *)
Fixpoint replace (pat repl s : string) : string :=
  if String.prefix pat s then repl ++ drop (String.length pat) s
  else match s with
       | EmptyString => EmptyString
       | String c s' => String c (replace pat repl s')
       end.

Definition upper_char (c : ascii) : ascii :=
  let n := nat_of_ascii c in
  if (97 <=? n)%nat && (n <=? 122)%nat then ascii_of_nat (n - 32) else c.

Fixpoint toUpperCase (s : string) : string :=
  match s with
  | EmptyString => EmptyString
  | String c s' => String (upper_char c) (toUpperCase s')
  end.

(** *** [slice(0, e)] *)

(** The number of elements [x.slice(0, e)] keeps out of [len]. *)
Definition slice_count (len : nat) (e : Z) : nat :=
  Z.to_nat (if (e <? 0)%Z then Z.max (Z.of_nat len + e) 0
            else Z.min e (Z.of_nat len)).

Definition slice_list {A : Type} (e : Z) (l : list A) : list A :=
  firstn (slice_count (List.length l) e) l.

(** *** Method calls on an arbitrary receiver *)

Definition call_slice (e : Z) (recv : value) : res value :=
  match recv with
  | VArr l => Ok (VArr (slice_list e l))
  | VStr s => Ok (VStr (take (slice_count (String.length s) e) s))
  | _ => Throw TypeError
  end.

Fixpoint mapi_from (f : value -> nat -> res value) (i : nat) (l : list value)
  : res (list value) :=
  match l with
  | [] => Ok []
  | x :: l' =>
      y <- f x i ;;
      ys <- mapi_from f (S i) l' ;;
      Ok (y :: ys)
  end.

(** [recv.map((c, i) => f c i)] *)
Definition call_map (f : value -> nat -> res value) (recv : value) : res value :=
  match recv with
  | VArr l => ys <- mapi_from f O l ;; Ok (VArr ys)
  | _ => Throw TypeError
  end.

Fixpoint find_first (p : value -> res bool) (l : list value) : res value :=
  match l with
  | [] => Ok VUndefined
  | x :: l' => b <- p x ;; if b then Ok x else find_first p l'
  end.

(** [recv.find(c => p c)] *)
Definition call_find (p : value -> res bool) (recv : value) : res value :=
  match recv with
  | VArr l => find_first p l
  | _ => Throw TypeError
  end.

Definition call_split (sep : string) (recv : value) : res value :=
  match recv with
  | VStr s => Ok (VArr (map VStr (split sep s)))
  | _ => Throw TypeError
  end.

Definition is_str (s : string) (v : value) : bool := strict_eq_str v s.

Definition call_includes (pat : string) (recv : value) : res value :=
  match recv with
  | VStr s => Ok (VBool (includes pat s))
  | VArr l => Ok (VBool (existsb (is_str pat) l))
  | _ => Throw TypeError
  end.

Definition call_replace (pat repl : string) (recv : value) : res value :=
  match recv with
  | VStr s => Ok (VStr (replace pat repl s))
  | _ => Throw TypeError
  end.

Definition call_toUpperCase (recv : value) : res value :=
  match recv with
  | VStr s => Ok (VStr (toUpperCase s))
  | _ => Throw TypeError
  end.

(** *** String conversion, as a template literal performs it *)

(** The decimal digits of an integer.  This is the string form of a
    bigint, and that of an integer-valued number below 10^21. *)
Definition dec (n : Z) : string := NilZero.string_of_int (Z.to_int n).

Fixpoint to_str (v : value) : string :=
  match v with
  | VUndefined => "undefined"
  | VNull => "null"
  | VBool true => "true"
  | VBool false => "false"
  | VNum n => dec n
  | VStr s => s
  | VArr l =>
      (fix join (l : list value) : string :=
         match l with
         | [] => EmptyString
         | x :: l' =>
             (if nullish x then EmptyString else to_str x)
               ++ match l' with [] => EmptyString | _ => "," ++ join l' end
         end) l
  | VObj _ => "[object Object]"
  end.

(** [recv.toString()] *)
Definition call_toString (recv : value) : res value :=
  if nullish recv then Throw TypeError else Ok (VStr (to_str recv)).

End JS.

Import JS.

(** ** The upstream client *)

Module Upstream.

(** What [fetch(url)] resolves to: the [ok] flag, the status code, and the
    body as [response.json()] parses it ([None] when it is not JSON). *)
Record response : Type := {
  ok : bool;
  status : Z;
  json : option value
}.

(** The environment of one handler invocation: the upstream API, and the
    reading of [new Date().toISOString()] when the reply is built. *)
Record world : Type := {
  fetch : string -> option response;
  now : string
}.

Definition fetchJSON (w : world) (url : string) : res value :=
  match fetch w url with
  | None => Throw NetworkError
  | Some response =>
      if negb (ok response) then Throw (ApiError (status response))
      else match json response with
           | Some v => Ok v
           | None => Throw SyntaxError
           end
  end.

Definition ESPN_BASE : string := "https://site.api.espn.com/apis/site/v2/sports/golf".

(** [Promise.all] over three fetches: fulfilled when all three are, and
    rejected as soon as one is.  Which rejection is reported when several
    calls fail depends on their timing; the model reports the first in
    array order. *)
Definition promise_all3 (a b c : res value) : res (value * value * value) :=
  x <- a ;; y <- b ;; z <- c ;; Ok (x, y, z).

End Upstream.

Import Upstream.

(** ** Entrypoint handlers *)

Module Handlers.

(** The [{ output: ... }] envelope a handler resolves to. *)
Record reply : Type := { output : value }.

Definition timestamp (w : world) : value := VStr (now w).

(** *** overview *)

(** [c.shortName?.split('.')[0] || 'N/A'] *)
Definition overview_country (c : value) : res value :=
  shortName <- get c "shortName" ;;
  first <- (if nullish shortName then Ok VUndefined
            else parts <- call_split "." shortName ;; idx parts 0) ;;
  Ok (js_or first (VStr "N/A")).

Definition overview_row (c : value) (i : nat) : res value :=
  name <- get c "displayName" ;;
  score <- get c "score" ;;
  country <- overview_country c ;;
  Ok (VObj [("position", VNum (Z.of_nat i + 1));
            ("name", name);
            ("score", score);
            ("country", country)]).

Definition overview (w : world) : res reply :=
  data <- fetchJSON w (ESPN_BASE ++ "/pga/events") ;;
  events <- get data "events" ;;
  let event := opt_idx events 0 in
  if negb (truthy event) then
    Ok {| output := VObj [("message", VStr "No active tournament");
                          ("fetchedAt", timestamp w)] |}
  else
    competitors0 <- get event "competitors" ;;
    sliced <- opt_call competitors0 (call_slice 10) ;;
    let competitors := js_or sliced (VArr []) in
    name <- get event "name" ;;
    fullStatus <- get event "fullStatus" ;;
    let status := js_or (opt_get (opt_get fullStatus "type") "description") (VStr "Unknown") in
    let round := js_or (opt_get fullStatus "displayPeriod") (VStr "N/A") in
    leaderboard <- call_map overview_row competitors ;;
    Ok {| output := VObj [("tournament", name);
                          ("status", status);
                          ("round", round);
                          ("leaderboard", leaderboard);
                          ("fetchedAt", timestamp w);
                          ("dataSource", VStr "ESPN Golf API (live)")] |}.

(** *** pga-leaderboard *)

(** The [tournament] block shared by the two leaderboard handlers. *)
Definition tournament_block (event : value) : res value :=
  id <- get event "id" ;;
  name <- get event "name" ;;
  fullStatus <- get event "fullStatus" ;;
  date <- get event "date" ;;
  Ok (VObj [("id", id);
            ("name", name);
            ("status", opt_get (opt_get fullStatus "type") "description");
            ("round", opt_get fullStatus "displayPeriod");
            ("date", date)]).

(** [scoreboard.events?.[0]?.competitions?.[0]?.competitors || []] *)
Definition scoreboard_competitors (scoreboard : value) : res value :=
  events <- get scoreboard "events" ;;
  Ok (js_or (opt_get (opt_idx (opt_get (opt_idx events 0) "competitions") 0) "competitors")
            (VArr [])).

Definition scoreboard_url (event : value) : res string :=
  id <- get event "id" ;;
  Ok (ESPN_BASE ++ "/pga/scoreboard?event=" ++ to_str id).

Definition pga_row (c : value) (i : nat) : res value :=
  playerId <- get c "id" ;;
  athlete <- get c "athlete" ;;
  displayName <- or_else (opt_get athlete "displayName") (get c "displayName") ;;
  score <- get c "score" ;;
  status <- get c "status" ;;
  Ok (VObj [("position", VNum (Z.of_nat i + 1));
            ("playerId", playerId);
            ("name", displayName);
            ("score", score);
            ("country", js_or (opt_get (opt_get athlete "flag") "alt") (VStr "Unknown"));
            ("thru", js_or (opt_get status "thru") (VStr "F"))]).

Definition pga_leaderboard (w : world) (limit : Z) : res reply :=
  eventsData <- fetchJSON w (ESPN_BASE ++ "/pga/events") ;;
  events <- get eventsData "events" ;;
  let event := opt_idx events 0 in
  if negb (truthy event) then
    Ok {| output := VObj [("error", VStr "No active PGA tournament")] |}
  else
    url <- scoreboard_url event ;;
    scoreboard <- fetchJSON w url ;;
    competitors <- scoreboard_competitors scoreboard ;;
    tournament <- tournament_block event ;;
    sliced <- call_slice limit competitors ;;
    leaderboard <- call_map pga_row sliced ;;
    totalPlayers <- get competitors "length" ;;
    Ok {| output := VObj [("tournament", tournament);
                          ("leaderboard", leaderboard);
                          ("totalPlayers", totalPlayers);
                          ("fetchedAt", timestamp w)] |}.

(** *** player-scorecard *)

Definition hole_row (h : value) (_ : nat) : res value :=
  period <- get h "period" ;;
  strokes <- get h "value" ;;
  scoreType <- get h "scoreType" ;;
  Ok (VObj [("hole", period);
            ("strokes", strokes);
            ("toPar", opt_get scoreType "displayValue")]).

Definition round_row (round : value) (i : nat) : res value :=
  score <- get round "displayValue" ;;
  linescores <- get round "linescores" ;;
  holes <- opt_call linescores (call_map hole_row) ;;
  Ok (VObj [("round", VNum (Z.of_nat i + 1));
            ("score", score);
            ("holes", js_or holes (VArr []))]).

Definition hint_row (c : value) (_ : nat) : res value :=
  id <- get c "id" ;;
  athlete <- get c "athlete" ;;
  Ok (VObj [("id", id); ("name", opt_get athlete "displayName")]).

(** [c => c.id === playerId] *)
Definition has_id (playerId : string) (c : value) : res bool :=
  id <- get c "id" ;; Ok (strict_eq_str id playerId).

Definition player_scorecard (w : world) (playerId : string) : res reply :=
  eventsData <- fetchJSON w (ESPN_BASE ++ "/pga/events") ;;
  events <- get eventsData "events" ;;
  let event := opt_idx events 0 in
  if negb (truthy event) then
    Ok {| output := VObj [("error", VStr "No active tournament")] |}
  else
    url <- scoreboard_url event ;;
    scoreboard <- fetchJSON w url ;;
    competitors <- scoreboard_competitors scoreboard ;;
    player <- call_find (has_id playerId) competitors ;;
    if negb (truthy player) then
      sliced <- call_slice 10 competitors ;;
      availablePlayers <- call_map hint_row sliced ;;
      Ok {| output := VObj [("error", VStr "Player not found in current tournament");
                            ("availablePlayers", availablePlayers)] |}
    else
      linescores <- get player "linescores" ;;
      let rounds := js_or linescores (VArr []) in
      tournament <- get event "name" ;;
      id <- get player "id" ;;
      athlete <- get player "athlete" ;;
      name <- or_else (opt_get athlete "displayName") (get player "displayName") ;;
      totalScore <- get player "score" ;;
      rounds' <- call_map round_row rounds ;;
      Ok {| output :=
              VObj [("tournament", tournament);
                    ("player",
                     VObj [("id", id);
                           ("name", name);
                           ("country", js_or (opt_get (opt_get athlete "flag") "alt")
                                             (VStr "Unknown"));
                           ("totalScore", totalScore)]);
                    ("rounds", rounds');
                    ("fetchedAt", timestamp w)] |}.

(** *** pga-schedule *)

Definition schedule_row (event : value) (_ : nat) : res value :=
  id <- get event "id" ;;
  label <- get event "label" ;;
  startDate <- get event "startDate" ;;
  endDate <- get event "endDate" ;;
  Ok (VObj [("id", id);
            ("name", label);
            ("startDate", startDate);
            ("endDate", endDate)]).

Definition pga_schedule (w : world) (limit : Z) : res reply :=
  data <- fetchJSON w (ESPN_BASE ++ "/pga/scoreboard") ;;
  leagues <- get data "leagues" ;;
  let calendar := js_or (opt_get (opt_idx leagues 0) "calendar") (VArr []) in
  sliced <- call_slice limit calendar ;;
  upcoming <- call_map schedule_row sliced ;;
  Ok {| output :=
          VObj [("season", opt_get (opt_get (opt_idx leagues 0) "season") "displayName");
                ("events", upcoming);
                ("fetchedAt", timestamp w)] |}.

(** *** lpga-leaderboard *)

(** [c.logo?.includes('/countries/')
       ? c.logo.split('/countries/500/')[1]?.replace('.png', '').toUpperCase()
       : 'N/A'] *)
Definition lpga_country (c : value) : res value :=
  logo <- get c "logo" ;;
  test <- opt_call logo (call_includes "/countries/") ;;
  if truthy test then
    parts <- call_split "/countries/500/" logo ;;
    code <- idx parts 1 ;;
    if nullish code then Ok VUndefined
    else stem <- call_replace ".png" EmptyString code ;; call_toUpperCase stem
  else Ok (VStr "N/A").

Definition lpga_row (c : value) (i : nat) : res value :=
  name <- get c "displayName" ;;
  score <- get c "score" ;;
  country <- lpga_country c ;;
  Ok (VObj [("position", VNum (Z.of_nat i + 1));
            ("name", name);
            ("score", score);
            ("country", country)]).

Definition lpga_leaderboard (w : world) (limit : Z) : res reply :=
  data <- fetchJSON w (ESPN_BASE ++ "/lpga/events") ;;
  events <- get data "events" ;;
  let event := opt_idx events 0 in
  if negb (truthy event) then
    Ok {| output := VObj [("error", VStr "No active LPGA tournament")] |}
  else
    competitors0 <- get event "competitors" ;;
    sliced <- opt_call competitors0 (call_slice limit) ;;
    let competitors := js_or sliced (VArr []) in
    tournament <- tournament_block event ;;
    leaderboard <- call_map lpga_row competitors ;;
    Ok {| output := VObj [("tournament", tournament);
                          ("leaderboard", leaderboard);
                          ("fetchedAt", timestamp w)] |}.

(** *** full-report *)

Definition top_row (c : value) (i : nat) : res value :=
  name <- get c "displayName" ;;
  score <- get c "score" ;;
  Ok (VObj [("position", VNum (Z.of_nat i + 1));
            ("name", name);
            ("score", score)]).

(** [ev.competitors?.slice(0, 10).map(...) || []]: a nullish
    [competitors] skips the whole chain. *)
Definition top_players (ev : value) : res value :=
  competitors <- get ev "competitors" ;;
  top <- opt_call competitors
           (fun cs => sliced <- call_slice 10 cs ;; call_map top_row sliced) ;;
  Ok (js_or top (VArr [])).

(** [ev ? { tournament, status, round, topPlayers } : null] *)
Definition tour_section (ev : value) : res value :=
  if truthy ev then
    name <- get ev "name" ;;
    fullStatus <- get ev "fullStatus" ;;
    topPlayers <- top_players ev ;;
    Ok (VObj [("tournament", name);
              ("status", opt_get (opt_get fullStatus "type") "description");
              ("round", opt_get fullStatus "displayPeriod");
              ("topPlayers", topPlayers)])
  else Ok VNull.

Definition upcoming_row (e : value) (_ : nat) : res value :=
  label <- get e "label" ;;
  startDate <- get e "startDate" ;;
  Ok (VObj [("name", label); ("startDate", startDate)]).

Definition full_report (w : world) : res reply :=
  fetched <- promise_all3 (fetchJSON w (ESPN_BASE ++ "/pga/events"))
                          (fetchJSON w (ESPN_BASE ++ "/lpga/events"))
                          (fetchJSON w (ESPN_BASE ++ "/pga/scoreboard")) ;;
  let '(pgaEvents, lpgaEvents, pgaScoreboard) := fetched in
  pgaList <- get pgaEvents "events" ;;
  let pgaEvent := opt_idx pgaList 0 in
  lpgaList <- get lpgaEvents "events" ;;
  let lpgaEvent := opt_idx lpgaList 0 in
  leagues <- get pgaScoreboard "leagues" ;;
  sliced <- opt_call (opt_get (opt_idx leagues 0) "calendar") (call_slice 5) ;;
  let schedule := js_or sliced (VArr []) in
  pga <- tour_section pgaEvent ;;
  lpga <- tour_section lpgaEvent ;;
  upcomingPGA <- call_map upcoming_row schedule ;;
  Ok {| output := VObj [("pga", pga);
                        ("lpga", lpga);
                        ("upcomingPGA", upcomingPGA);
                        ("generatedAt", timestamp w)] |}.

(** *** analytics, analytics-transactions, analytics-csv

    The payment tracker and the three library functions that read it are
    external collaborators: they are parameters of the model.  The agent
    carries a tracker or none. *)

Section Analytics.

Variable Tracker : Type.
Variable getSummary : Tracker -> option Z -> res (list (string * value)).
Variable getAllTransactions : Tracker -> option Z -> res (list value).
Variable exportToCSV : Tracker -> option Z -> res string.

(** [agent.analytics?.paymentTracker] *)
Variable paymentTracker : option Tracker.

(** [summary.k.toString()] *)
Definition total_string (summary : list (string * value)) (k : string) : res value :=
  call_toString (lookup k summary).

Definition analytics (windowMs : option Z) : res reply :=
  match paymentTracker with
  | None =>
      Ok {| output := VObj [("error", VStr "Analytics not available");
                            ("payments", VArr [])] |}
  | Some tracker =>
      summary <- getSummary tracker windowMs ;;
      outgoingTotal <- total_string summary "outgoingTotal" ;;
      incomingTotal <- total_string summary "incomingTotal" ;;
      netTotal <- total_string summary "netTotal" ;;
      Ok {| output := VObj (obj_set "netTotal" netTotal
                             (obj_set "incomingTotal" incomingTotal
                               (obj_set "outgoingTotal" outgoingTotal summary))) |}
  end.

Definition analytics_transactions (windowMs : option Z) (limit : Z) : res reply :=
  match paymentTracker with
  | None => Ok {| output := VObj [("transactions", VArr [])] |}
  | Some tracker =>
      txs <- getAllTransactions tracker windowMs ;;
      Ok {| output := VObj [("transactions", VArr (slice_list limit txs))] |}
  end.

Definition analytics_csv (windowMs : option Z) : res reply :=
  match paymentTracker with
  | None => Ok {| output := VObj [("csv", VStr EmptyString)] |}
  | Some tracker =>
      csv <- exportToCSV tracker windowMs ;;
      Ok {| output := VObj [("csv", VStr csv)] |}
  end.

End Analytics.

End Handlers.

Import Handlers.

(** ** Vocabulary of the specification *)

Module Spec.

Definition pga_events_url : string := ESPN_BASE ++ "/pga/events".
Definition lpga_events_url : string := ESPN_BASE ++ "/lpga/events".
Definition pga_scoreboard_url : string := ESPN_BASE ++ "/pga/scoreboard".
Definition event_scoreboard_url (ev : value) : string :=
  ESPN_BASE ++ "/pga/scoreboard?event=" ++ to_str (prop ev "id").

(** The events call at [url] succeeds and its list starts with [ev]
    ([undefined] when the list is empty or missing). *)
Definition first_event (w : world) (url : string) (ev : value) : Prop :=
  exists data events,
    fetchJSON w url = Ok data /\ get data "events" = Ok events /\ opt_idx events 0 = ev.


(** The current PGA event is [ev], and the scoreboard call for it lists
    the competitors [cs]. *)
Definition pga_scoreboard (w : world) (ev : value) (cs : list value) : Prop :=
  first_event w pga_events_url ev /\ truthy ev = true /\
  exists scoreboard,
    fetchJSON w (event_scoreboard_url ev) = Ok scoreboard /\
    scoreboard_competitors scoreboard = Ok (VArr cs).

(** The schedule call succeeds; [leagues] is its leagues field. *)
Definition schedule_call (w : world) (leagues : value) : Prop :=
  exists data, fetchJSON w pga_scoreboard_url = Ok data /\ get data "leagues" = Ok leagues.

(** [leagues?.[0]?.calendar] *)
Definition calendar_of (leagues : value) : value :=
  opt_get (opt_idx leagues 0) "calendar".

(** An upstream record that is an entry at all: not [null]. *)
Definition present (v : value) : bool := negb (nullish v).

(** The list a value holds; empty when the value is not a list. *)
Definition arr (v : value) : list value :=
  match v with
  | VArr l => l
  | _ => []
  end.

(** An optional list field: missing, or a list whose entries satisfy [p]. *)
Definition entries (p : value -> bool) (v : value) : bool :=
  match v with
  | VUndefined | VNull => true
  | VArr l => forallb p l
  | _ => false
  end.

(** A competitor of the events feed: its short name, when it has one, is a
    string. *)
Definition short_name_ok (c : value) : bool :=
  match prop c "shortName" with
  | VUndefined | VNull | VStr _ => true
  | _ => false
  end.

(** A competitor of the events feed: its logo, when it has one, is a
    string. *)
Definition logo_ok (c : value) : bool :=
  match prop c "logo" with
  | VUndefined | VNull | VStr _ => true
  | _ => false
  end.

Definition overview_competitor (c : value) : bool := present c && short_name_ok c.
Definition lpga_competitor (c : value) : bool := present c && logo_ok c.

(** A round of a line score: its per-hole list, when it has one, is a list
    of entries. *)
Definition round_ok (round : value) : bool :=
  present round &&
  match prop round "linescores" with
  | VUndefined | VNull => true
  | VArr hs => forallb present hs
  | _ => false
  end.

(** The rounds of a player's line score; none when the field is missing. *)
Definition linescore_rounds (player : value) : list value :=
  arr (prop player "linescores").

Definition linescores_ok (player : value) : bool :=
  match prop player "linescores" with
  | VArr rs => forallb round_ok rs
  | v => negb (truthy v)
  end.

(** [c.id === playerId], on a competitor that is an entry *)
Definition is_player (playerId : string) (c : value) : bool :=
  strict_eq_str (prop c "id") playerId.

Definition positions (rows : list value) : list value :=
  map (fun r => prop r "position") rows.

(** The numbers 1, 2, ..., n *)
Definition one_to (n : nat) : list value :=
  map (fun i => VNum (Z.of_nat i)) (seq 1 n).

(** Row [i] of the output is the row built from entry [i] of the input. *)
Definition in_input_order (row : value -> nat -> res value) (cs rows : list value) : Prop :=
  forall i r, nth_error rows i = Some r ->
              exists c, nth_error cs i = Some c /\ row c i = Ok r.

Definition has_field (k : string) (out : value) : bool :=
  match out with
  | VObj fs => has_key k fs
  | _ => false
  end.



Definition has_timestamp (out : value) : bool :=
  has_field "fetchedAt" out || has_field "generatedAt" out.

End Spec.

Import Spec.

(** ** Sample upstream states *)

Module Sample.

Definition served (v : value) : option response :=
  Some {| ok := true; status := 200; json := Some v |}.

Definition unavailable : option response :=
  Some {| ok := false; status := 503; json := None |}.

Definition hole (n strokes : Z) (label : string) : value :=
  VObj [("period", VNum n); ("value", VNum strokes);
        ("scoreType", VObj [("displayValue", VStr label)])].

Definition round_one : value :=
  VObj [("displayValue", VStr "-2");
        ("linescores", VArr [hole 1 4 "E"; hole 2 3 "-1"; hole 3 4 "-1"])].

Definition round_two : value :=
  VObj [("displayValue", VStr "E")].

(** Competitor number [i] of the field. *)
Definition competitor (i : nat) : value :=
  VObj [("id", VStr (nat_key (500 + i)));
        ("displayName", VStr ("Player " ++ nat_key i));
        ("shortName", VStr ("USA.Player" ++ nat_key i));
        ("logo", VStr "https://a.espncdn.com/i/teamlogos/countries/500/eng.png");
        ("score", VStr "-3");
        ("athlete", VObj [("displayName", VStr ("Player " ++ nat_key i));
                          ("flag", VObj [("alt", VStr "USA")])]);
        ("status", VObj [("thru", VNum 12)]);
        ("linescores", VArr [round_one; round_two])].

Definition field (n : nat) : list value := map competitor (seq 1 n).

Definition event (id name : string) (cs : list value) : value :=
  VObj [("id", VStr id);
        ("name", VStr name);
        ("fullStatus", VObj [("type", VObj [("description", VStr "In Progress")]);
                             ("displayPeriod", VStr "Round 2")]);
        ("date", VStr "2026-07-16T04:00Z");
        ("competitors", VArr cs)].

Definition calendar_entry (i : nat) : value :=
  VObj [("id", VStr (nat_key (400 + i)));
        ("label", VStr ("Tournament " ++ nat_key i));
        ("startDate", VStr "2026-07-16T04:00Z");
        ("endDate", VStr "2026-07-19T04:00Z")].

Definition calendar (n : nat) : list value := map calendar_entry (seq 1 n).

Definition leagues (n : nat) : value :=
  VArr [VObj [("season", VObj [("displayName", VStr "2026")]);
              ("calendar", VArr (calendar n))]].

Definition open : value := event "401" "The Open" (field 20).
Definition lpga_open : value := event "402" "Women's Open" (field 20).

Definition event_scoreboard (cs : list value) : value :=
  VObj [("events", VArr [VObj [("competitions", VArr [VObj [("competitors", VArr cs)]])]])].

Definition stamp : string := "2026-07-17T10:15:00.000Z".

(** A tournament week on both tours: 20 competitors, 12 calendar entries. *)
Definition live : world :=
  {| fetch := fun url =>
       if (url =? pga_events_url)%string then served (VObj [("events", VArr [open])])
       else if (url =? lpga_events_url)%string then served (VObj [("events", VArr [lpga_open])])
       else if (url =? pga_scoreboard_url)%string
            then served (VObj [("events", VArr [open]); ("leagues", leagues 12)])
       else if (url =? event_scoreboard_url open)%string
            then served (event_scoreboard (field 20))
       else None;
     now := stamp |}.

(** No tournament on either tour; the calendar still lists the season. *)
Definition off_season : world :=
  {| fetch := fun url =>
       if (url =? pga_events_url)%string then served (VObj [("events", VArr [])])
       else if (url =? lpga_events_url)%string then served (VObj [("events", VArr [])])
       else if (url =? pga_scoreboard_url)%string
            then served (VObj [("events", VArr []); ("leagues", leagues 3)])
       else None;
     now := stamp |}.



(** The schedule call answers 503. *)
Definition scoreboard_down : world :=
  {| fetch := fun url =>
       if (url =? pga_scoreboard_url)%string then unavailable else fetch live url;
     now := stamp |}.

(** A tracker with two recorded payments, for the analytics handlers. *)
Definition ledger : Type := list value.

Definition payment (id : string) (amount : Z) : value :=
  VObj [("id", VStr id); ("amount", VNum amount)].

Definition two_payments : ledger := [payment "tx1" 1000; payment "tx2" 3000].

Definition five_payments : ledger :=
  [payment "tx1" 1000; payment "tx2" 3000; payment "tx3" 2000;
   payment "tx4" 5000; payment "tx5" 1000].

Definition ledger_summary (l : ledger) (_ : option Z) : res (list (string * value)) :=
  Ok [("outgoingTotal", VNum 0);
      ("incomingTotal", VNum 4000);
      ("netTotal", VNum 4000);
      ("outgoingCount", VNum 0);
      ("incomingCount", VNum (Z.of_nat (List.length l)))].

Definition ledger_transactions (l : ledger) (_ : option Z) : res (list value) := Ok l.

Definition ledger_csv (l : ledger) (_ : option Z) : res string := Ok "id,amount".

End Sample.

(** ** The registration document route *)

Module Routes.

Definition default_base_url : string := "https://golf-intel-production.up.railway.app".

(** [process.env.BASE_URL || 'https://golf-intel-production.up.railway.app'];
    an environment variable is a string or is not set. *)
Definition base_url (env_BASE_URL : option string) : value :=
  js_or (match env_BASE_URL with
         | Some s => VStr s
         | None => VUndefined
         end)
        (VStr default_base_url).

(** The body of [GET /.well-known/erc8004.json]. *)
Definition erc8004 (env_BASE_URL : option string) : value :=
  let baseUrl := base_url env_BASE_URL in
  VObj [("type", VStr "https://eips.ethereum.org/EIPS/eip-8004#registration-v1");
        ("name", VStr "golf-intel");
        ("description",
         VStr "Real-time golf data: PGA and LPGA leaderboards, player scorecards, tournament schedules. 1 free + 5 paid endpoints via x402.");
        ("image", VStr (to_str baseUrl ++ "/icon.png"));
        ("services",
         VArr [VObj [("name", VStr "web"); ("endpoint", baseUrl)];
               VObj [("name", VStr "A2A");
                     ("endpoint", VStr (to_str baseUrl ++ "/.well-known/agent.json"));
                     ("version", VStr "0.3.0")]]);
        ("x402Support", VBool true);
        ("active", VBool true);
        ("registrations", VArr []);
        ("supportedTrust", VArr [VStr "reputation"])].

End Routes.

(** ** Further vocabulary *)

Module Notions.

(** The [tournament] block of the two leaderboard handlers, for an event
    that is an object. *)
Definition tournament_of (ev : value) : value :=
  VObj [("id", prop ev "id");
        ("name", prop ev "name");
        ("status", opt_get (opt_get (prop ev "fullStatus") "type") "description");
        ("round", opt_get (prop ev "fullStatus") "displayPeriod");
        ("date", prop ev "date")].

(** The hint that player-scorecard gives for a competitor entry:
    [{ id: c.id, name: c.athlete?.displayName }]. *)
Definition hint_of (c : value) : value :=
  VObj [("id", prop c "id");
        ("name", opt_get (prop c "athlete") "displayName")].

(** The part of [s] before its first dot; all of [s] when it has none. *)
Definition before_dot (s : string) : string :=
  match index_of "." s with
  | Some i => take i s
  | None => s
  end.

(** What [a || fallback] gives: [a] when it is truthy, the fallback
    otherwise. *)
Definition defaults_to (a : value) (fallback : string) (result : value) : Prop :=
  (truthy a = true -> result = a) /\
  (truthy a = false -> result = VStr fallback).

(** Field [k] of every row. *)
Definition column (k : string) (rows : list value) : list value :=
  map (fun r => prop r k) rows.

(** An entry whose [id] is not a string. *)
Definition id_not_a_string (c : value) : bool :=
  match prop c "id" with
  | VStr _ => false
  | _ => true
  end.

(** A string without lower-case ASCII letters. *)
Definition upper_case (s : string) : Prop := toUpperCase s = s.

(** The holes of a round of a line score; none when the field is missing. *)
Definition round_holes (round : value) : list value := arr (prop round "linescores").

(** [s] starts with [p]. *)
Definition starts_with (p s : string) : Prop := exists rest, s = p ++ rest.

(** The payment summary totals, as integers. *)
Definition integer_totals (summary : list (string * value)) (o i n : Z) : Prop :=
  lookup "outgoingTotal" summary = VNum o /\
  lookup "incomingTotal" summary = VNum i /\
  lookup "netTotal" summary = VNum n.

Definition is_total_key (k : string) : bool :=
  (k =? "outgoingTotal")%string || (k =? "incomingTotal")%string || (k =? "netTotal")%string.

End Notions.

Import Notions.

(** ** Further upstream states *)

Module Cases.

(** The events call answers 503. *)
Definition events_down : world :=
  {| fetch := fun url =>
       if (url =? pga_events_url)%string then Sample.unavailable
       else fetch Sample.live url;
     now := Sample.stamp |}.

(** The scoreboard call for the current event answers 503. *)
Definition event_scoreboard_down : world :=
  {| fetch := fun url =>
       if (url =? event_scoreboard_url Sample.open)%string then Sample.unavailable
       else fetch Sample.live url;
     now := Sample.stamp |}.

(** A scoreboard of six entries whose fourth is [null]. *)
Definition gapped_field : list value :=
  Sample.field 3 ++ [VNull] ++ [Sample.competitor 5; Sample.competitor 6].

Definition gapped_event : value := Sample.event "403" "Gapped" gapped_field.

Definition gapped : world :=
  {| fetch := fun url =>
       if (url =? pga_events_url)%string
       then Sample.served (VObj [("events", VArr [gapped_event])])
       else if (url =? event_scoreboard_url gapped_event)%string
            then Sample.served (Sample.event_scoreboard gapped_field)
       else None;
     now := Sample.stamp |}.

(** A scoreboard whose ids are numbers. *)
Definition numbered (i : nat) : value :=
  VObj [("id", VNum (Z.of_nat (500 + i)));
        ("athlete", VObj [("displayName", VStr ("Player " ++ nat_key i))])].

Definition numbered_field : list value := map numbered (seq 1 4).

Definition numeric_ids : world :=
  {| fetch := fun url =>
       if (url =? event_scoreboard_url Sample.open)%string
       then Sample.served (Sample.event_scoreboard numbered_field)
       else fetch Sample.live url;
     now := Sample.stamp |}.

(** The same week as [Sample.live], read later and with other endpoints
    down: only the PGA events call answers. *)
Definition events_only : world :=
  {| fetch := fun url =>
       if (url =? pga_events_url)%string then fetch Sample.live url else Sample.unavailable;
     now := Sample.stamp |}.

(** A PGA off week during an LPGA tournament. *)
Definition pga_off : world :=
  {| fetch := fun url =>
       if (url =? pga_events_url)%string then Sample.served (VObj [("events", VArr [])])
       else fetch Sample.live url;
     now := Sample.stamp |}.

(** An event whose competitors have the four kinds of short name: with a
    dot, starting with a dot, without a dot, and missing. *)
Definition named (name : string) (shortName : value) : value :=
  VObj [("displayName", VStr name); ("score", VStr "E"); ("shortName", shortName)].

Definition short_names_field : list value :=
  [named "J. Smith" (VStr "USA.Smith");
   named "A. Jones" (VStr ".Jones");
   named "C. Hull" (VStr "ENG");
   named "T. Kim" VUndefined].

Definition short_names_event : value := Sample.event "404" "Short names" short_names_field.

Definition short_names : world :=
  {| fetch := fun url =>
       if (url =? pga_events_url)%string
       then Sample.served (VObj [("events", VArr [short_names_event])])
       else None;
     now := Sample.stamp |}.

(** An event without a status block. *)
Definition bare_event : value :=
  VObj [("id", VStr "405"); ("name", VStr "Bare"); ("competitors", VArr (Sample.field 2))].

Definition bare_status : world :=
  {| fetch := fun url =>
       if (url =? pga_events_url)%string
       then Sample.served (VObj [("events", VArr [bare_event])])
       else None;
     now := Sample.stamp |}.

(** A summary without [netTotal]. *)
Definition partial_summary (_ : Sample.ledger) (_ : option Z)
  : res (list (string * value)) :=
  Ok [("outgoingTotal", VNum 0); ("incomingTotal", VNum 4000)].

(** A tracker whose store cannot be read. *)
Definition failing_summary (_ : Sample.ledger) (_ : option Z)
  : res (list (string * value)) := Throw (External "tracker").

Definition failing_transactions (_ : Sample.ledger) (_ : option Z)
  : res (list value) := Throw (External "tracker").

Definition failing_csv (_ : Sample.ledger) (_ : option Z)
  : res string := Throw (External "tracker").

End Cases.

(** ** Facts about the JavaScript operations *)

Section Monad_facts.

Context {A B : Type}.

Lemma bind_Ok (m : res A) (k : A -> res B) (b : B) :
  bind m k = Ok b -> exists a, m = Ok a /\ k a = Ok b.
Proof.
  destruct m as [a | e]; simpl; intros H.
  - exists a; split; [reflexivity | exact H].
  - discriminate H.
Qed.

End Monad_facts.

Lemma truthy_present (v : value) : truthy v = true -> nullish v = false.
Proof. destruct v; simpl; intros H; try reflexivity; discriminate H. Qed.

Lemma present_nullish (v : value) : present v = true -> nullish v = false.
Proof. unfold present; destruct (nullish v); simpl; intros H; [discriminate H | reflexivity]. Qed.

Lemma get_present (v : value) (k : string) :
  nullish v = false -> get v k = Ok (prop v k).
Proof. unfold get; intros ->; reflexivity. Qed.

Lemma get_Ok (v x : value) (k : string) :
  get v k = Ok x -> nullish v = false /\ x = prop v k.
Proof.
  unfold get; destruct (nullish v); intros H; [discriminate H |].
  inversion H; split; reflexivity.
Qed.

(** *** [slice(0, e)] *)

Lemma slice_count_nonneg (len : nat) (e : Z) :
  (0 <= e)%Z -> slice_count len e = Nat.min (Z.to_nat e) len.
Proof.
  intros He; unfold slice_count.
  destruct (Z.ltb_spec e 0) as [Hneg | _]; [lia |].
  lia.
Qed.

Lemma slice_count_neg (len : nat) (e : Z) :
  (e < 0)%Z -> (- e < Z.of_nat len)%Z ->
  slice_count len e = (len - Z.to_nat (- e))%nat.
Proof.
  intros He Hlen; unfold slice_count.
  destruct (Z.ltb_spec e 0) as [_ | Hpos]; [| lia].
  lia.
Qed.

Lemma slice_count_le (len : nat) (e : Z) : (slice_count len e <= len)%nat.
Proof.
  unfold slice_count; destruct (Z.ltb_spec e 0); lia.
Qed.

Lemma slice_list_length {T : Type} (e : Z) (l : list T) :
  List.length (slice_list e l) = slice_count (List.length l) e.
Proof.
  unfold slice_list; rewrite length_firstn.
  pose proof (slice_count_le (List.length l) e); lia.
Qed.

Lemma slice_list_neg {T : Type} (e : Z) (l : list T) :
  (e < 0)%Z -> (- e < Z.of_nat (List.length l))%Z ->
  slice_list e l = firstn (List.length l - Z.to_nat (- e)) l.
Proof.
  intros He Hlen; unfold slice_list; rewrite slice_count_neg by assumption.
  reflexivity.
Qed.

Lemma slice_list_ten_length {T : Type} (l : list T) :
  List.length (slice_list 10 l) = Nat.min 10 (List.length l).
Proof.
  rewrite slice_list_length, slice_count_nonneg by lia; reflexivity.
Qed.

Lemma nth_error_slice {T : Type} (e : Z) (l : list T) (i : nat) (x : T) :
  nth_error (slice_list e l) i = Some x -> nth_error l i = Some x.
Proof.
  unfold slice_list; generalize (slice_count (List.length l) e); intros n.
  revert l i; induction n as [| n IH]; intros l i H.
  - destruct i; discriminate H.
  - destruct l as [| y l]; [destruct i; discriminate H |].
    destruct i as [| i]; simpl in *; [exact H | apply IH; exact H].
Qed.

Lemma forallb_slice (p : value -> bool) (e : Z) (l : list value) :
  forallb p l = true -> forallb p (slice_list e l) = true.
Proof.
  unfold slice_list; generalize (slice_count (List.length l) e); intros n.
  revert l; induction n as [| n IH]; intros l H; [reflexivity |].
  destruct l as [| y l]; [reflexivity |].
  simpl in *; apply andb_true_iff in H; destruct H as [Hy Hl].
  rewrite Hy; simpl; apply IH; exact Hl.
Qed.

(** *** [map] with an index *)

Section Mapi_facts.

Variable f : value -> nat -> res value.

Lemma mapi_from_length (l : list value) :
  forall k rows, mapi_from f k l = Ok rows -> List.length rows = List.length l.
Proof.
  induction l as [| x l IH]; intros k rows H; simpl in H.
  - inversion H; reflexivity.
  - apply bind_Ok in H; destruct H as (y & _ & H).
    apply bind_Ok in H; destruct H as (ys & Hys & H).
    inversion H; subst; simpl; f_equal; eapply IH; exact Hys.
Qed.

Lemma mapi_from_nth (l : list value) :
  forall k rows, mapi_from f k l = Ok rows ->
  forall i r, nth_error rows i = Some r ->
              exists c, nth_error l i = Some c /\ f c (k + i) = Ok r.
Proof.
  induction l as [| x l IH]; intros k rows H i r Hr; simpl in H.
  - inversion H; subst; destruct i; discriminate Hr.
  - apply bind_Ok in H; destruct H as (y & Hy & H).
    apply bind_Ok in H; destruct H as (ys & Hys & H).
    inversion H; subst; clear H.
    destruct i as [| i]; simpl in Hr.
    + inversion Hr; subst; exists x; split; [reflexivity |].
      rewrite Nat.add_0_r; exact Hy.
    + destruct (IH (S k) ys Hys i r Hr) as (c & Hc & Hf).
      exists c; split; [exact Hc |].
      rewrite Nat.add_succ_r; exact Hf.
Qed.

(** Every row carries its index plus one as [position]. *)
Hypothesis position_of_row :
  forall c i r, f c i = Ok r -> prop r "position" = VNum (Z.of_nat (S i)).

Lemma mapi_from_positions (l : list value) :
  forall k rows, mapi_from f k l = Ok rows ->
                 positions rows = map (fun i => VNum (Z.of_nat i)) (seq (S k) (List.length rows)).
Proof.
  induction l as [| x l IH]; intros k rows H; simpl in H.
  - inversion H; reflexivity.
  - apply bind_Ok in H; destruct H as (y & Hy & H).
    apply bind_Ok in H; destruct H as (ys & Hys & H).
    inversion H; subst; clear H; simpl.
    rewrite (position_of_row _ _ _ Hy); f_equal.
    apply (IH (S k)); exact Hys.
Qed.

End Mapi_facts.

Lemma mapi_from_total (f : value -> nat -> res value) (p : value -> bool) :
  (forall c i, p c = true -> exists r, f c i = Ok r) ->
  forall l k, forallb p l = true -> exists rows, mapi_from f k l = Ok rows.
Proof.
  intros Hf l; induction l as [| x l IH]; intros k Hl; simpl.
  - exists []; reflexivity.
  - simpl in Hl; apply andb_true_iff in Hl; destruct Hl as [Hx Hl].
    destruct (Hf x k Hx) as (y & Hy); rewrite Hy; simpl.
    destruct (IH (S k) Hl) as (ys & Hys); rewrite Hys; simpl.
    exists (y :: ys); reflexivity.
Qed.

Lemma call_map_rows (f : value -> nat -> res value) (l : list value) (out : value) :
  call_map f (VArr l) = Ok out -> exists rows, out = VArr rows /\ mapi_from f 0 l = Ok rows.
Proof.
  simpl; intros H; apply bind_Ok in H; destruct H as (rows & Hrows & H).
  inversion H; subst; exists rows; split; [reflexivity | exact Hrows].
Qed.

Lemma in_input_order_slice (f : value -> nat -> res value) (e : Z) (l rows : list value) :
  mapi_from f 0 (slice_list e l) = Ok rows -> in_input_order f l rows.
Proof.
  intros H i r Hr.
  destruct (mapi_from_nth f _ 0 rows H i r Hr) as (c & Hc & Hf).
  exists c; split; [eapply nth_error_slice; exact Hc | exact Hf].
Qed.

(** ** Facts about the row builders *)

Ltac invert_binds H :=
  repeat match type of H with
         | bind _ _ = Ok _ =>
             let x := fresh "x" in
             let E := fresh "E" in
             apply bind_Ok in H; destruct H as (x & E & H)
         end.

Ltac position_of_row H :=
  invert_binds H; inversion H; subst; simpl; f_equal; lia.

Lemma overview_row_position (c : value) (i : nat) (r : value) :
  overview_row c i = Ok r -> prop r "position" = VNum (Z.of_nat (S i)).
Proof. unfold overview_row; intros H; position_of_row H. Qed.

Lemma pga_row_position (c : value) (i : nat) (r : value) :
  pga_row c i = Ok r -> prop r "position" = VNum (Z.of_nat (S i)).
Proof. unfold pga_row; intros H; position_of_row H. Qed.

Lemma lpga_row_position (c : value) (i : nat) (r : value) :
  lpga_row c i = Ok r -> prop r "position" = VNum (Z.of_nat (S i)).
Proof. unfold lpga_row; intros H; position_of_row H. Qed.

Lemma top_row_position (c : value) (i : nat) (r : value) :
  top_row c i = Ok r -> prop r "position" = VNum (Z.of_nat (S i)).
Proof. unfold top_row; intros H; position_of_row H. Qed.

Lemma overview_country_total (c : value) :
  present c = true -> short_name_ok c = true -> exists v, overview_country c = Ok v.
Proof.
  intros Hc Hs; apply present_nullish in Hc.
  unfold overview_country; rewrite (get_present _ _ Hc); simpl.
  unfold short_name_ok in Hs.
  destruct (prop c "shortName"); try discriminate Hs; simpl; eexists; reflexivity.
Qed.

Lemma overview_row_total (c : value) (i : nat) :
  overview_competitor c = true -> exists r, overview_row c i = Ok r.
Proof.
  intros H; apply andb_true_iff in H; destruct H as [Hc Hs].
  destruct (overview_country_total c Hc Hs) as (v & Hv).
  apply present_nullish in Hc.
  unfold overview_row; rewrite !(get_present _ _ Hc), Hv; simpl.
  eexists; reflexivity.
Qed.

Lemma pga_row_total (c : value) (i : nat) :
  present c = true -> exists r, pga_row c i = Ok r.
Proof.
  intros Hc; apply present_nullish in Hc.
  unfold pga_row, or_else; rewrite !(get_present _ _ Hc); simpl.
  destruct (truthy (opt_get (prop c "athlete") "displayName")); simpl;
    eexists; reflexivity.
Qed.

Lemma nth_of_strings (l : list string) (i : nat) :
  nth i (map VStr l) VUndefined = VUndefined \/
  exists t, nth i (map VStr l) VUndefined = VStr t.
Proof.
  destruct (nth_in_or_default i (map VStr l) VUndefined) as [Hin | Hd].
  - apply in_map_iff in Hin; destruct Hin as (t & Ht & _).
    right; exists t; symmetry; exact Ht.
  - left; exact Hd.
Qed.

Lemma lpga_country_total (c : value) :
  present c = true -> logo_ok c = true -> exists v, lpga_country c = Ok v.
Proof.
  intros Hc Hl; apply present_nullish in Hc.
  unfold lpga_country; rewrite (get_present _ _ Hc); simpl.
  unfold logo_ok in Hl.
  destruct (prop c "logo") as [| | | | s | |]; try discriminate Hl; simpl;
    try (eexists; reflexivity).
  destruct (includes "/countries/" s); simpl; [| eexists; reflexivity].
  unfold idx; simpl.
  destruct (nth_of_strings (split "/countries/500/" s) 1) as [E | (t & E)];
    rewrite E; simpl; eexists; reflexivity.
Qed.

Lemma lpga_row_total (c : value) (i : nat) :
  lpga_competitor c = true -> exists r, lpga_row c i = Ok r.
Proof.
  intros H; apply andb_true_iff in H; destruct H as [Hc Hl].
  destruct (lpga_country_total c Hc Hl) as (v & Hv).
  apply present_nullish in Hc.
  unfold lpga_row; rewrite !(get_present _ _ Hc), Hv; simpl.
  eexists; reflexivity.
Qed.

Ltac total_row Hc :=
  apply present_nullish in Hc;
  rewrite !(get_present _ _ Hc); simpl; eexists; reflexivity.


Lemma hint_row_total (c : value) (i : nat) :
  present c = true -> exists r, hint_row c i = Ok r.
Proof. intros Hc; unfold hint_row; total_row Hc. Qed.

Lemma schedule_row_total (c : value) (i : nat) :
  present c = true -> exists r, schedule_row c i = Ok r.
Proof. intros Hc; unfold schedule_row; total_row Hc. Qed.


Lemma hole_row_total (c : value) (i : nat) :
  present c = true -> exists r, hole_row c i = Ok r.
Proof. intros Hc; unfold hole_row; total_row Hc. Qed.

Lemma round_row_total (round : value) (i : nat) :
  round_ok round = true -> exists r, round_row round i = Ok r.
Proof.
  unfold round_ok; intros H; apply andb_true_iff in H; destruct H as [Hc Hh].
  apply present_nullish in Hc.
  unfold round_row, opt_call; rewrite !(get_present _ _ Hc); simpl.
  destruct (prop round "linescores") as [| | | | | hs |]; try discriminate Hh;
    simpl; try (eexists; reflexivity).
  destruct (mapi_from_total hole_row present hole_row_total hs 0 Hh) as (rows & Hrows).
  rewrite Hrows; simpl; eexists; reflexivity.
Qed.

(** ** Replies on well-formed upstream data *)

(** With a current event and a scoreboard listing the entries [cs], the
    handler replies, and its leaderboard is the rows of [cs.slice(0, limit)]. *)
Lemma pga_leaderboard_reply (w : world) (ev : value) (cs : list value) (limit : Z) :
  pga_scoreboard w ev cs ->
  forallb present cs = true ->
  exists out rows,
    pga_leaderboard w limit = Ok {| output := out |} /\
    prop out "leaderboard" = VArr rows /\
    mapi_from pga_row 0 (slice_list limit cs) = Ok rows /\
    prop out "totalPlayers" = VNum (Z.of_nat (List.length cs)) /\
    prop out "fetchedAt" = VStr (now w) /\
    has_field "error" out = false.
Proof.
  intros ((data & events & Hdata & Hevents & Hev) & Htruthy & scoreboard & Hsb & Hcs) Hpresent.
  pose proof (truthy_present _ Htruthy) as Hnn.
  destruct (mapi_from_total pga_row present pga_row_total
              (slice_list limit cs) 0 (forallb_slice _ _ _ Hpresent)) as (rows & Hrows).
  unfold pga_leaderboard.
  unfold pga_events_url in Hdata; rewrite Hdata; cbn [bind].
  rewrite Hevents; cbn [bind]; rewrite Hev, Htruthy; cbn [negb].
  unfold scoreboard_url; rewrite (get_present _ _ Hnn); cbn [bind].
  unfold event_scoreboard_url in Hsb; rewrite Hsb; cbn [bind].
  rewrite Hcs; cbn [bind].
  unfold tournament_block; rewrite !(get_present _ _ Hnn); cbn [bind].
  cbn [call_slice bind call_map]; rewrite Hrows; cbn [bind].
  eexists; exists rows; split; [reflexivity |].
  repeat split; try reflexivity; exact Hrows.
Qed.

Lemma or_empty_entries (p : value -> bool) (v : value) :
  entries p v = true -> js_or v (VArr []) = VArr (arr v).
Proof. destruct v; simpl; intros H; try discriminate H; reflexivity. Qed.

Lemma forallb_arr (p : value -> bool) (v : value) :
  entries p v = true -> forallb p (arr v) = true.
Proof. destruct v; simpl; intros H; try discriminate H; try reflexivity; exact H. Qed.

Lemma slice_list_nil {T : Type} (e : Z) : slice_list e (@nil T) = [].
Proof. unfold slice_list; apply firstn_nil. Qed.

(** [v?.slice(0, e) || []] on an optional list *)
Lemma sliced_entries (p : value -> bool) (v : value) (e : Z) :
  entries p v = true ->
  exists sliced,
    opt_call v (call_slice e) = Ok sliced /\
    js_or sliced (VArr []) = VArr (slice_list e (arr v)).
Proof.
  destruct v; simpl; intros H; try discriminate H.
  - exists VUndefined; split; [reflexivity | rewrite slice_list_nil; reflexivity].
  - exists VUndefined; split; [reflexivity | rewrite slice_list_nil; reflexivity].
  - eexists; split; reflexivity.
Qed.

Lemma pga_schedule_reply (w : world) (leagues : value) (limit : Z) :
  schedule_call w leagues ->
  entries present (calendar_of leagues) = true ->
  exists rows,
    pga_schedule w limit =
      Ok {| output :=
              VObj [("season", opt_get (opt_get (opt_idx leagues 0) "season") "displayName");
                    ("events", VArr rows);
                    ("fetchedAt", VStr (now w))] |} /\
    mapi_from schedule_row 0 (slice_list limit (arr (calendar_of leagues))) = Ok rows.
Proof.
  intros (data & Hdata & Hleagues) Hcal.
  destruct (mapi_from_total schedule_row present schedule_row_total
              (slice_list limit (arr (calendar_of leagues))) 0
              (forallb_slice _ _ _ (forallb_arr _ _ Hcal))) as (rows & Hrows).
  exists rows; split; [| exact Hrows].
  unfold pga_schedule.
  unfold pga_scoreboard_url in Hdata; rewrite Hdata; cbn [bind].
  rewrite Hleagues; cbn [bind].
  fold (calendar_of leagues); rewrite (or_empty_entries _ _ Hcal).
  cbn [call_slice bind call_map]; rewrite Hrows; reflexivity.
Qed.

Lemma lpga_leaderboard_reply (w : world) (ev : value) (limit : Z) :
  first_event w lpga_events_url ev ->
  truthy ev = true ->
  entries lpga_competitor (prop ev "competitors") = true ->
  exists out rows,
    lpga_leaderboard w limit = Ok {| output := out |} /\
    prop out "leaderboard" = VArr rows /\
    mapi_from lpga_row 0 (slice_list limit (arr (prop ev "competitors"))) = Ok rows /\
    prop out "fetchedAt" = VStr (now w) /\
    has_field "error" out = false.
Proof.
  intros (data & events & Hdata & Hevents & Hev) Htruthy Hcs.
  pose proof (truthy_present _ Htruthy) as Hnn.
  destruct (sliced_entries _ _ limit Hcs) as (sliced & Hsliced & Hor).
  destruct (mapi_from_total lpga_row lpga_competitor lpga_row_total
              (slice_list limit (arr (prop ev "competitors"))) 0
              (forallb_slice _ _ _ (forallb_arr _ _ Hcs))) as (rows & Hrows).
  unfold lpga_leaderboard.
  unfold lpga_events_url in Hdata; rewrite Hdata; cbn [bind].
  rewrite Hevents; cbn [bind]; rewrite Hev, Htruthy; cbn [negb].
  rewrite (get_present _ _ Hnn); cbn [bind].
  rewrite Hsliced; cbn [bind]; rewrite Hor.
  unfold tournament_block; rewrite !(get_present _ _ Hnn); cbn [bind].
  cbn [call_map bind]; rewrite Hrows; cbn [bind].
  eexists; exists rows; split; [reflexivity |].
  repeat split; try reflexivity; exact Hrows.
Qed.

Lemma overview_reply (w : world) (ev : value) :
  first_event w pga_events_url ev ->
  truthy ev = true ->
  entries overview_competitor (prop ev "competitors") = true ->
  exists out rows,
    overview w = Ok {| output := out |} /\
    prop out "leaderboard" = VArr rows /\
    mapi_from overview_row 0 (slice_list 10 (arr (prop ev "competitors"))) = Ok rows /\
    prop out "fetchedAt" = VStr (now w) /\
    has_field "error" out = false.
Proof.
  intros (data & events & Hdata & Hevents & Hev) Htruthy Hcs.
  pose proof (truthy_present _ Htruthy) as Hnn.
  destruct (sliced_entries _ _ 10 Hcs) as (sliced & Hsliced & Hor).
  destruct (mapi_from_total overview_row overview_competitor overview_row_total
              (slice_list 10 (arr (prop ev "competitors"))) 0
              (forallb_slice _ _ _ (forallb_arr _ _ Hcs))) as (rows & Hrows).
  unfold overview.
  unfold pga_events_url in Hdata; rewrite Hdata; cbn [bind].
  rewrite Hevents; cbn [bind]; rewrite Hev, Htruthy; cbn [negb].
  rewrite !(get_present _ _ Hnn); cbn [bind].
  rewrite Hsliced; cbn [bind]; rewrite Hor.
  cbn [call_map bind]; rewrite Hrows; cbn [bind].
  eexists; exists rows; split; [reflexivity |].
  repeat split; try reflexivity; exact Hrows.
Qed.

(** ** What a chain of slice and map can produce *)

(** What [v?.slice(0, e) || []] followed by [map] can produce. *)
Lemma sliced_then_mapped (row : value -> nat -> res value) (e : Z) (v sliced out : value) :
  opt_call v (call_slice e) = Ok sliced ->
  call_map row (js_or sliced (VArr [])) = Ok out ->
  exists rows, out = VArr rows /\ mapi_from row 0 (slice_list e (arr v)) = Ok rows.
Proof.
  unfold opt_call; destruct v as [| | b | n | s | l | fs]; simpl; intros Hs Hm;
    try discriminate Hs; inversion Hs; subst; clear Hs.
  - inversion Hm; subst; exists []; rewrite slice_list_nil; split; reflexivity.
  - inversion Hm; subst; exists []; rewrite slice_list_nil; split; reflexivity.
  - unfold js_or in Hm; simpl in Hm.
    destruct (negb (take (slice_count (String.length s) e) s =? EmptyString)%string);
      simpl in Hm; [discriminate Hm |].
    inversion Hm; subst; exists []; rewrite slice_list_nil; split; reflexivity.
  - apply call_map_rows; exact Hm.
Qed.

(** What [v.slice(0, e).map(...)] can produce. *)
Lemma slice_then_map (row : value -> nat -> res value) (e : Z) (v sliced out : value) :
  call_slice e v = Ok sliced ->
  call_map row sliced = Ok out ->
  exists l rows, v = VArr l /\ out = VArr rows /\ mapi_from row 0 (slice_list e l) = Ok rows.
Proof.
  destruct v as [| | b | n | s | l | fs]; simpl; intros Hs Hm;
    try discriminate Hs; inversion Hs; subst; clear Hs.
  - discriminate Hm.
  - destruct (call_map_rows _ _ _ Hm) as (rows & Hout & Hrows).
    exists l, rows; repeat split; assumption.
Qed.

Lemma top_players_rows (ev v : value) :
  top_players ev = Ok v ->
  exists rows, v = VArr rows /\
               mapi_from top_row 0 (slice_list 10 (arr (prop ev "competitors"))) = Ok rows.
Proof.
  unfold top_players; intros H; invert_binds H.
  apply get_Ok in E; destruct E as (_ & ->).
  inversion H; subst; clear H.
  unfold opt_call in E0.
  destruct (prop ev "competitors") as [| | b | n | s | l | fs]; simpl in E0;
    try discriminate E0.
  - inversion E0; subst; exists []; split; reflexivity.
  - inversion E0; subst; exists []; split; reflexivity.
  - invert_binds E0; inversion E0; subst.
    exists x; split; [reflexivity | exact E].
Qed.

Lemma tour_section_rows (ev sec : value) (rows : list value) :
  tour_section ev = Ok sec ->
  prop sec "topPlayers" = VArr rows ->
  mapi_from top_row 0 (slice_list 10 (arr (prop ev "competitors"))) = Ok rows.
Proof.
  unfold tour_section; destruct (truthy ev); intros H Hrows.
  - invert_binds H; inversion H; subst; clear H; simpl in Hrows.
    destruct (top_players_rows _ _ E1) as (rows' & Hx & Hr).
    rewrite Hx in Hrows; inversion Hrows; subst; exact Hr.
  - inversion H; subst; discriminate Hrows.
Qed.

(** ** Every successful run of a handler *)

Lemma overview_Ok (w : world) (out : value) :
  overview w = Ok {| output := out |} ->
  exists ev,
    first_event w pga_events_url ev /\
    prop out "fetchedAt" = VStr (now w) /\
    has_field "error" out = false /\
    forall rows, prop out "leaderboard" = VArr rows ->
                 mapi_from overview_row 0 (slice_list 10 (arr (prop ev "competitors"))) = Ok rows.
Proof.
  unfold overview; intros H; invert_binds H.
  exists (opt_idx x0 0); split; [exists x, x0; repeat split; assumption |].
  destruct (truthy (opt_idx x0 0)); cbn [negb] in H.
  - invert_binds H; inversion H; subst; clear H.
    repeat split; try reflexivity.
    simpl; intros rows Hrows.
    apply get_Ok in E1; destruct E1 as (_ & ->).
    destruct (sliced_then_mapped _ _ _ _ _ E2 E5) as (rows' & Hx & Hr).
    rewrite Hx in Hrows; inversion Hrows; subst; exact Hr.
  - inversion H; subst; clear H.
    repeat split; try reflexivity.
    simpl; intros rows Hrows; discriminate Hrows.
Qed.

Lemma scoreboard_url_Ok (ev : value) (url : string) :
  scoreboard_url ev = Ok url -> url = event_scoreboard_url ev.
Proof.
  unfold scoreboard_url; intros H; invert_binds H.
  apply get_Ok in E; destruct E as (_ & ->).
  inversion H; reflexivity.
Qed.

Lemma pga_leaderboard_Ok (w : world) (limit : Z) (out : value) :
  pga_leaderboard w limit = Ok {| output := out |} ->
  (has_field "error" out = true /\ prop out "leaderboard" = VUndefined) \/
  (exists ev cs,
      pga_scoreboard w ev cs /\
      prop out "fetchedAt" = VStr (now w) /\
      exists rows, prop out "leaderboard" = VArr rows /\
                   mapi_from pga_row 0 (slice_list limit cs) = Ok rows).
Proof.
  unfold pga_leaderboard; intros H; invert_binds H.
  destruct (truthy (opt_idx x0 0)) eqn:Htruthy; cbn [negb] in H.
  - right; invert_binds H; inversion H; subst; clear H.
    apply scoreboard_url_Ok in E1; subst.
    destruct (slice_then_map _ _ _ _ _ E5 E6) as (cs & rows & -> & -> & Hrows).
    exists (opt_idx x0 0), cs; split; [| split].
    + split; [exists x, x0; repeat split; assumption |].
      split; [exact Htruthy |].
      exists x2; split; assumption.
    + reflexivity.
    + exists rows; split; [reflexivity | exact Hrows].
  - left; inversion H; subst; split; reflexivity.
Qed.

Lemma lpga_leaderboard_Ok (w : world) (limit : Z) (out : value) :
  lpga_leaderboard w limit = Ok {| output := out |} ->
  (has_field "error" out = true /\ prop out "leaderboard" = VUndefined) \/
  (exists ev,
      first_event w lpga_events_url ev /\
      prop out "fetchedAt" = VStr (now w) /\
      exists rows, prop out "leaderboard" = VArr rows /\
                   mapi_from lpga_row 0 (slice_list limit (arr (prop ev "competitors"))) = Ok rows).
Proof.
  unfold lpga_leaderboard; intros H; invert_binds H.
  destruct (truthy (opt_idx x0 0)) eqn:Htruthy; cbn [negb] in H.
  - right; invert_binds H; inversion H; subst; clear H.
    apply get_Ok in E1; destruct E1 as (_ & ->).
    destruct (sliced_then_mapped _ _ _ _ _ E2 E4) as (rows & -> & Hrows).
    exists (opt_idx x0 0); split; [exists x, x0; repeat split; assumption |].
    split; [reflexivity |].
    exists rows; split; [reflexivity | exact Hrows].
  - left; inversion H; subst; split; reflexivity.
Qed.

Lemma promise_all3_Ok (a b c : res value) (x y z : value) :
  promise_all3 a b c = Ok (x, y, z) -> a = Ok x /\ b = Ok y /\ c = Ok z.
Proof.
  unfold promise_all3; intros H; invert_binds H.
  inversion H; subst; repeat split; assumption.
Qed.

Lemma full_report_Ok (w : world) (out : value) :
  full_report w = Ok {| output := out |} ->
  exists pgaEvent lpgaEvent pga lpga,
    first_event w pga_events_url pgaEvent /\
    first_event w lpga_events_url lpgaEvent /\
    tour_section pgaEvent = Ok pga /\
    tour_section lpgaEvent = Ok lpga /\
    prop out "pga" = pga /\
    prop out "lpga" = lpga /\
    prop out "generatedAt" = VStr (now w) /\
    has_field "error" out = false.
Proof.
  unfold full_report; intros H; invert_binds H.
  destruct x as [[pgaEvents lpgaEvents] pgaScoreboard].
  apply promise_all3_Ok in E; destruct E as (Hpga & Hlpga & Hsb).
  invert_binds H; inversion H; subst; clear H.
  exists (opt_idx x 0), (opt_idx x0 0), x3, x4.
  split; [exists pgaEvents, x; repeat split; assumption |].
  split; [exists lpgaEvents, x0; repeat split; assumption |].
  repeat split; assumption || reflexivity.
Qed.

Lemma player_scorecard_Ok (w : world) (playerId : string) (out : value) :
  player_scorecard w playerId = Ok {| output := out |} ->
  has_field "error" out = true \/ prop out "fetchedAt" = VStr (now w).
Proof.
  unfold player_scorecard; intros H; invert_binds H.
  destruct (truthy (opt_idx x0 0)); cbn [negb] in H.
  - invert_binds H.
    destruct (truthy x4); cbn [negb] in H.
    + right; invert_binds H; inversion H; subst; reflexivity.
    + left; invert_binds H; inversion H; subst; reflexivity.
  - left; inversion H; subst; reflexivity.
Qed.

Lemma pga_schedule_Ok (w : world) (limit : Z) (out : value) :
  pga_schedule w limit = Ok {| output := out |} ->
  prop out "fetchedAt" = VStr (now w) /\
  has_field "error" out = false /\ has_field "message" out = false.
Proof.
  unfold pga_schedule; intros H; invert_binds H.
  inversion H; subst; repeat split; reflexivity.
Qed.

(** ** Leaderboard sizes *)

(** C4: for a non-negative limit n and a scoreboard of m competitors,
    pga-leaderboard returns exactly min(n, m) leaderboard entries (5 for
    limit 5 against 20; all 20 for limit 100), and reports m as the
    number of players.  No run of the handler, whatever the upstream
    sends, returns a leaderboard of another length. *)
Theorem pga_leaderboard_returns_min_limit_entries :
  (forall w ev cs limit,
      pga_scoreboard w ev cs ->
      forallb present cs = true ->
      (0 <= limit)%Z ->
      exists out rows,
        pga_leaderboard w limit = Ok {| output := out |} /\
        prop out "leaderboard" = VArr rows /\
        List.length rows = Nat.min (Z.to_nat limit) (List.length cs) /\
        prop out "totalPlayers" = VNum (Z.of_nat (List.length cs))) /\
  (forall w limit out rows,
      pga_leaderboard w limit = Ok {| output := out |} ->
      prop out "leaderboard" = VArr rows ->
      (0 <= limit)%Z ->
      exists ev cs,
        pga_scoreboard w ev cs /\
        List.length rows = Nat.min (Z.to_nat limit) (List.length cs)).
Proof.
  split.
  - intros w ev cs limit Hup Hpresent Hlimit.
    destruct (pga_leaderboard_reply w ev cs limit Hup Hpresent)
      as (out & rows & Hrun & Hboard & Hrows & Htotal & _).
    exists out, rows; repeat split; try assumption.
    rewrite (mapi_from_length _ _ _ _ Hrows), slice_list_length.
    apply slice_count_nonneg; exact Hlimit.
  - intros w limit out rows Hrun Hboard Hlimit.
    destruct (pga_leaderboard_Ok w limit out Hrun)
      as [(_ & Hnone) | (ev & cs & Hup & _ & rows' & Hboard' & Hrows)].
    + rewrite Hnone in Hboard; discriminate Hboard.
    + rewrite Hboard' in Hboard; inversion Hboard; subst.
      exists ev, cs; split; [exact Hup |].
      rewrite (mapi_from_length _ _ _ _ Hrows), slice_list_length.
      apply slice_count_nonneg; exact Hlimit.
Qed.

Lemma live_pga_scoreboard : pga_scoreboard Sample.live Sample.open (Sample.field 20).
Proof.
  split; [| split].
  - exists (VObj [("events", VArr [Sample.open])]), (VArr [Sample.open]).
    repeat split; reflexivity.
  - reflexivity.
  - exists (Sample.event_scoreboard (Sample.field 20)); split; reflexivity.
Qed.

Lemma pga_leaderboard_returns_min_limit_entries_witness :
  (exists out rows,
     pga_leaderboard Sample.live 5 = Ok {| output := out |} /\
     prop out "leaderboard" = VArr rows /\
     List.length rows = 5%nat /\
     prop out "totalPlayers" = VNum 20) /\
  (exists out rows,
     pga_leaderboard Sample.live 100 = Ok {| output := out |} /\
     prop out "leaderboard" = VArr rows /\
     List.length rows = 20%nat /\
     prop out "totalPlayers" = VNum 20) /\
  (exists out rows ev cs,
     pga_leaderboard Sample.live 5 = Ok {| output := out |} /\
     prop out "leaderboard" = VArr rows /\
     pga_scoreboard Sample.live ev cs /\
     List.length rows = Nat.min 5 (List.length cs)).
Proof.
  destruct pga_leaderboard_returns_min_limit_entries as (Hcount & Hany).
  split; [| split].
  - apply (Hcount Sample.live Sample.open (Sample.field 20) 5);
      [exact live_pga_scoreboard | reflexivity | lia].
  - apply (Hcount Sample.live Sample.open (Sample.field 20) 100);
      [exact live_pga_scoreboard | reflexivity | lia].
  - destruct (Hcount Sample.live Sample.open (Sample.field 20) 5
                live_pga_scoreboard eq_refl ltac:(lia))
      as (out & rows & Hrun & Hboard & _).
    destruct (Hany Sample.live 5 out rows Hrun Hboard ltac:(lia)) as (ev & cs & Hup & Hlen).
    exists out, rows, ev, cs.
    split; [exact Hrun | split; [exact Hboard | split; [exact Hup | exact Hlen]]].
Defined.

(** C8: for an event with any number of competitors, overview returns at
    most 10 leaderboard entries (the first min(10, m) of the m upstream
    competitors), numbered 1..N, row i built from upstream competitor i.
    No run of the handler, whatever the upstream sends, returns more than
    10 entries. *)
Theorem overview_at_most_ten_in_order :
  (forall w ev,
      first_event w pga_events_url ev ->
      truthy ev = true ->
      entries overview_competitor (prop ev "competitors") = true ->
      exists out rows,
        overview w = Ok {| output := out |} /\
        prop out "leaderboard" = VArr rows /\
        (List.length rows <= 10)%nat /\
        List.length rows = Nat.min 10 (List.length (arr (prop ev "competitors"))) /\
        positions rows = one_to (List.length rows) /\
        in_input_order overview_row (arr (prop ev "competitors")) rows) /\
  (forall w out rows,
      overview w = Ok {| output := out |} ->
      prop out "leaderboard" = VArr rows ->
      (List.length rows <= 10)%nat /\ positions rows = one_to (List.length rows)).
Proof.
  split.
  - intros w ev Hev Htruthy Hcs.
    destruct (overview_reply w ev Hev Htruthy Hcs)
      as (out & rows & Hrun & Hboard & Hrows & _).
    assert (Hlen : List.length rows = Nat.min 10 (List.length (arr (prop ev "competitors")))).
    { rewrite (mapi_from_length _ _ _ _ Hrows); apply slice_list_ten_length. }
    exists out, rows; repeat split; try assumption.
    + rewrite Hlen; apply Nat.le_min_l.
    + exact (mapi_from_positions overview_row overview_row_position _ 0 rows Hrows).
    + eapply in_input_order_slice; exact Hrows.
  - intros w out rows Hrun Hboard.
    destruct (overview_Ok w out Hrun) as (ev & _ & _ & _ & Hrows).
    specialize (Hrows rows Hboard); split.
    + rewrite (mapi_from_length _ _ _ _ Hrows), slice_list_ten_length.
      apply Nat.le_min_l.
    + exact (mapi_from_positions overview_row overview_row_position _ 0 rows Hrows).
Qed.

Lemma live_first_pga_event : first_event Sample.live pga_events_url Sample.open.
Proof.
  exists (VObj [("events", VArr [Sample.open])]), (VArr [Sample.open]).
  repeat split; reflexivity.
Qed.

Lemma overview_at_most_ten_in_order_witness :
  exists out rows,
    overview Sample.live = Ok {| output := out |} /\
    prop out "leaderboard" = VArr rows /\
    (List.length rows <= 10)%nat /\
    List.length rows = 10%nat /\
    positions rows = one_to (List.length rows) /\
    in_input_order overview_row (Sample.field 20) rows /\
    ((List.length rows <= 10)%nat /\ positions rows = one_to (List.length rows)).
Proof.
  destruct overview_at_most_ten_in_order as (Hevent & Hany).
  destruct (Hevent Sample.live Sample.open live_first_pga_event eq_refl eq_refl)
    as (out & rows & Hrun & Hboard & Hle & Hlen & Hpos & Horder).
  exists out, rows; repeat split; try assumption;
    apply (Hany Sample.live out rows Hrun Hboard).
Defined.

(** ** Negative limits *)

(** C10: a negative limit n against a list of m > |n| elements makes
    pga-leaderboard, pga-schedule, lpga-leaderboard and
    analytics-transactions return the first m - |n| elements (the last |n|
    are dropped): not an empty list, not the whole list, not an error. *)
Theorem negative_limit_drops_last_entries (n : Z) :
  (n < 0)%Z ->
  (forall w ev cs,
      pga_scoreboard w ev cs ->
      forallb present cs = true ->
      (- n < Z.of_nat (List.length cs))%Z ->
      exists out rows,
        pga_leaderboard w n = Ok {| output := out |} /\
        prop out "leaderboard" = VArr rows /\
        mapi_from pga_row 0 (firstn (List.length cs - Z.to_nat (- n)) cs) = Ok rows /\
        List.length rows = (List.length cs - Z.to_nat (- n))%nat) /\
  (forall w leagues,
      schedule_call w leagues ->
      entries present (calendar_of leagues) = true ->
      (- n < Z.of_nat (List.length (arr (calendar_of leagues))))%Z ->
      exists out rows,
        pga_schedule w n = Ok {| output := out |} /\
        prop out "events" = VArr rows /\
        mapi_from schedule_row 0
          (firstn (List.length (arr (calendar_of leagues)) - Z.to_nat (- n))
                  (arr (calendar_of leagues))) = Ok rows /\
        List.length rows = (List.length (arr (calendar_of leagues)) - Z.to_nat (- n))%nat) /\
  (forall w ev,
      first_event w lpga_events_url ev ->
      truthy ev = true ->
      entries lpga_competitor (prop ev "competitors") = true ->
      (- n < Z.of_nat (List.length (arr (prop ev "competitors"))))%Z ->
      exists out rows,
        lpga_leaderboard w n = Ok {| output := out |} /\
        prop out "leaderboard" = VArr rows /\
        mapi_from lpga_row 0
          (firstn (List.length (arr (prop ev "competitors")) - Z.to_nat (- n))
                  (arr (prop ev "competitors"))) = Ok rows /\
        List.length rows = (List.length (arr (prop ev "competitors")) - Z.to_nat (- n))%nat) /\
  (forall (Tracker : Type) getAllTransactions (tracker : Tracker) windowMs txs,
      getAllTransactions tracker windowMs = Ok txs ->
      (- n < Z.of_nat (List.length txs))%Z ->
      analytics_transactions Tracker getAllTransactions (Some tracker) windowMs n =
        Ok {| output :=
                VObj [("transactions",
                       VArr (firstn (List.length txs - Z.to_nat (- n)) txs))] |}).
Proof.
  intros Hn; split; [| split; [| split]].
  - intros w ev cs Hup Hpresent Hlen.
    destruct (pga_leaderboard_reply w ev cs n Hup Hpresent)
      as (out & rows & Hrun & Hboard & Hrows & _).
    rewrite slice_list_neg in Hrows by assumption.
    exists out, rows; repeat split; try assumption.
    rewrite (mapi_from_length _ _ _ _ Hrows), length_firstn; lia.
  - intros w leagues Hcall Hcal Hlen.
    destruct (pga_schedule_reply w leagues n Hcall Hcal) as (rows & Hrun & Hrows).
    rewrite slice_list_neg in Hrows by assumption.
    eexists; exists rows; repeat split; try eassumption; try reflexivity.
    rewrite (mapi_from_length _ _ _ _ Hrows), length_firstn; lia.
  - intros w ev Hev Htruthy Hcs Hlen.
    destruct (lpga_leaderboard_reply w ev n Hev Htruthy Hcs)
      as (out & rows & Hrun & Hboard & Hrows & _).
    rewrite slice_list_neg in Hrows by assumption.
    exists out, rows; repeat split; try assumption.
    rewrite (mapi_from_length _ _ _ _ Hrows), length_firstn; lia.
  - intros Tracker getAll tracker windowMs txs Htxs Hlen.
    unfold analytics_transactions; rewrite Htxs; cbn [bind].
    rewrite slice_list_neg by assumption; reflexivity.
Qed.

Lemma live_schedule_call : schedule_call Sample.live (Sample.leagues 12).
Proof.
  exists (VObj [("events", VArr [Sample.open]); ("leagues", Sample.leagues 12)]).
  split; reflexivity.
Qed.

Lemma live_first_lpga_event : first_event Sample.live lpga_events_url Sample.lpga_open.
Proof.
  exists (VObj [("events", VArr [Sample.lpga_open])]), (VArr [Sample.lpga_open]).
  repeat split; reflexivity.
Qed.

Lemma negative_limit_drops_last_entries_witness :
  (exists out rows,
      pga_leaderboard Sample.live (-2) = Ok {| output := out |} /\
      prop out "leaderboard" = VArr rows /\
      mapi_from pga_row 0 (Sample.field 18) = Ok rows /\
      List.length rows = 18%nat) /\
  (exists out rows,
      pga_schedule Sample.live (-2) = Ok {| output := out |} /\
      prop out "events" = VArr rows /\
      mapi_from schedule_row 0 (Sample.calendar 10) = Ok rows /\
      List.length rows = 10%nat) /\
  (exists out rows,
      lpga_leaderboard Sample.live (-2) = Ok {| output := out |} /\
      prop out "leaderboard" = VArr rows /\
      mapi_from lpga_row 0 (Sample.field 18) = Ok rows /\
      List.length rows = 18%nat) /\
  analytics_transactions Sample.ledger Sample.ledger_transactions
      (Some Sample.five_payments) None (-2) =
    Ok {| output :=
            VObj [("transactions",
                   VArr [Sample.payment "tx1" 1000; Sample.payment "tx2" 3000;
                         Sample.payment "tx3" 2000])] |}.
Proof.
  assert (Hneg : (-2 < 0)%Z) by lia.
  destruct (negative_limit_drops_last_entries (-2) Hneg) as (Hpga & Hsched & Hlpga & Htx).
  split; [| split; [| split]].
  - apply (Hpga Sample.live Sample.open (Sample.field 20));
      [exact live_pga_scoreboard | reflexivity | simpl; lia].
  - apply (Hsched Sample.live (Sample.leagues 12));
      [exact live_schedule_call | reflexivity | simpl; lia].
  - apply (Hlpga Sample.live Sample.lpga_open);
      [exact live_first_lpga_event | reflexivity | reflexivity | simpl; lia].
  - apply (Htx Sample.ledger Sample.ledger_transactions Sample.five_payments None
               Sample.five_payments); [reflexivity | simpl; lia].
Defined.

(** ** Leaderboards are numbered in upstream order *)

(** C7: in every leaderboard list a handler produces (overview,
    pga-leaderboard, lpga-leaderboard, and the two top-player lists of
    full-report) the positions are 1, 2, ..., N, and row i is built from
    entry i of the upstream competitor list: nothing is sorted. *)
Theorem leaderboard_positions_follow_upstream_order :
  (forall w out rows,
      overview w = Ok {| output := out |} ->
      prop out "leaderboard" = VArr rows ->
      positions rows = one_to (List.length rows) /\
      exists ev, first_event w pga_events_url ev /\
                 in_input_order overview_row (arr (prop ev "competitors")) rows) /\
  (forall w limit out rows,
      pga_leaderboard w limit = Ok {| output := out |} ->
      prop out "leaderboard" = VArr rows ->
      positions rows = one_to (List.length rows) /\
      exists ev cs, pga_scoreboard w ev cs /\ in_input_order pga_row cs rows) /\
  (forall w limit out rows,
      lpga_leaderboard w limit = Ok {| output := out |} ->
      prop out "leaderboard" = VArr rows ->
      positions rows = one_to (List.length rows) /\
      exists ev, first_event w lpga_events_url ev /\
                 in_input_order lpga_row (arr (prop ev "competitors")) rows) /\
  (forall w out rows,
      full_report w = Ok {| output := out |} ->
      prop (prop out "pga") "topPlayers" = VArr rows ->
      positions rows = one_to (List.length rows) /\
      exists ev, first_event w pga_events_url ev /\
                 in_input_order top_row (arr (prop ev "competitors")) rows) /\
  (forall w out rows,
      full_report w = Ok {| output := out |} ->
      prop (prop out "lpga") "topPlayers" = VArr rows ->
      positions rows = one_to (List.length rows) /\
      exists ev, first_event w lpga_events_url ev /\
                 in_input_order top_row (arr (prop ev "competitors")) rows).
Proof.
  split; [| split; [| split; [| split]]].
  - intros w out rows Hrun Hboard.
    destruct (overview_Ok w out Hrun) as (ev & Hev & _ & _ & Hrows).
    specialize (Hrows rows Hboard); split.
    + exact (mapi_from_positions overview_row overview_row_position _ 0 rows Hrows).
    + exists ev; split; [exact Hev | eapply in_input_order_slice; exact Hrows].
  - intros w limit out rows Hrun Hboard.
    destruct (pga_leaderboard_Ok w limit out Hrun)
      as [(_ & Hnone) | (ev & cs & Hup & _ & rows' & Hboard' & Hrows)].
    + rewrite Hnone in Hboard; discriminate Hboard.
    + rewrite Hboard' in Hboard; inversion Hboard; subst; split.
      * exact (mapi_from_positions pga_row pga_row_position _ 0 rows Hrows).
      * exists ev, cs; split; [exact Hup | eapply in_input_order_slice; exact Hrows].
  - intros w limit out rows Hrun Hboard.
    destruct (lpga_leaderboard_Ok w limit out Hrun)
      as [(_ & Hnone) | (ev & Hev & _ & rows' & Hboard' & Hrows)].
    + rewrite Hnone in Hboard; discriminate Hboard.
    + rewrite Hboard' in Hboard; inversion Hboard; subst; split.
      * exact (mapi_from_positions lpga_row lpga_row_position _ 0 rows Hrows).
      * exists ev; split; [exact Hev | eapply in_input_order_slice; exact Hrows].
  - intros w out rows Hrun Hboard.
    destruct (full_report_Ok w out Hrun)
      as (pgaEvent & lpgaEvent & pga & lpga & Hp & Hl & Hps & Hls & Hpga & Hlpga & _).
    rewrite Hpga in Hboard.
    pose proof (tour_section_rows _ _ _ Hps Hboard) as Hrows; split.
    + exact (mapi_from_positions top_row top_row_position _ 0 rows Hrows).
    + exists pgaEvent; split; [exact Hp | eapply in_input_order_slice; exact Hrows].
  - intros w out rows Hrun Hboard.
    destruct (full_report_Ok w out Hrun)
      as (pgaEvent & lpgaEvent & pga & lpga & Hp & Hl & Hps & Hls & Hpga & Hlpga & _).
    rewrite Hlpga in Hboard.
    pose proof (tour_section_rows _ _ _ Hls Hboard) as Hrows; split.
    + exact (mapi_from_positions top_row top_row_position _ 0 rows Hrows).
    + exists lpgaEvent; split; [exact Hl | eapply in_input_order_slice; exact Hrows].
Qed.

Lemma leaderboard_positions_follow_upstream_order_witness :
  (exists out rows,
      overview Sample.live = Ok {| output := out |} /\
      prop out "leaderboard" = VArr rows /\
      positions rows = one_to (List.length rows) /\
      exists ev, first_event Sample.live pga_events_url ev /\
                 in_input_order overview_row (arr (prop ev "competitors")) rows) /\
  (exists out rows,
      pga_leaderboard Sample.live 50 = Ok {| output := out |} /\
      prop out "leaderboard" = VArr rows /\
      positions rows = one_to (List.length rows) /\
      exists ev cs, pga_scoreboard Sample.live ev cs /\ in_input_order pga_row cs rows) /\
  (exists out rows,
      lpga_leaderboard Sample.live 30 = Ok {| output := out |} /\
      prop out "leaderboard" = VArr rows /\
      positions rows = one_to (List.length rows) /\
      exists ev, first_event Sample.live lpga_events_url ev /\
                 in_input_order lpga_row (arr (prop ev "competitors")) rows) /\
  (exists out rows,
      full_report Sample.live = Ok {| output := out |} /\
      prop (prop out "pga") "topPlayers" = VArr rows /\
      positions rows = one_to (List.length rows) /\
      exists ev, first_event Sample.live pga_events_url ev /\
                 in_input_order top_row (arr (prop ev "competitors")) rows) /\
  (exists out rows,
      full_report Sample.live = Ok {| output := out |} /\
      prop (prop out "lpga") "topPlayers" = VArr rows /\
      positions rows = one_to (List.length rows) /\
      exists ev, first_event Sample.live lpga_events_url ev /\
                 in_input_order top_row (arr (prop ev "competitors")) rows).
Proof.
  destruct leaderboard_positions_follow_upstream_order
    as (Hoverview & Hpga & Hlpga & Hreport_pga & Hreport_lpga).
  split; [| split; [| split; [| split]]].
  - eexists; eexists; split; [vm_compute; reflexivity |].
    split; [vm_compute; reflexivity |].
    eapply (Hoverview Sample.live); vm_compute; reflexivity.
  - eexists; eexists; split; [vm_compute; reflexivity |].
    split; [vm_compute; reflexivity |].
    eapply (Hpga Sample.live 50); vm_compute; reflexivity.
  - eexists; eexists; split; [vm_compute; reflexivity |].
    split; [vm_compute; reflexivity |].
    eapply (Hlpga Sample.live 30); vm_compute; reflexivity.
  - eexists; eexists; split; [vm_compute; reflexivity |].
    split; [vm_compute; reflexivity |].
    eapply (Hreport_pga Sample.live); vm_compute; reflexivity.
  - eexists; eexists; split; [vm_compute; reflexivity |].
    split; [vm_compute; reflexivity |].
    eapply (Hreport_lpga Sample.live); vm_compute; reflexivity.
Defined.

(** ** Timestamps *)

(** C2 (as amended): every output of overview, pga-schedule and
    full-report, and every output of pga-leaderboard, player-scorecard and
    lpga-leaderboard that has no [error] field, carries the clock reading
    taken while the reply is built ([fetchedAt]; [generatedAt] in
    full-report).  The outputs of analytics-transactions and analytics-csv,
    and of analytics without a tracker, carry no timestamp field. *)
Theorem data_outputs_carry_timestamp :
  (forall w out,
      overview w = Ok {| output := out |} -> prop out "fetchedAt" = VStr (now w)) /\
  (forall w limit out,
      pga_leaderboard w limit = Ok {| output := out |} ->
      has_field "error" out = false -> prop out "fetchedAt" = VStr (now w)) /\
  (forall w playerId out,
      player_scorecard w playerId = Ok {| output := out |} ->
      has_field "error" out = false -> prop out "fetchedAt" = VStr (now w)) /\
  (forall w limit out,
      pga_schedule w limit = Ok {| output := out |} -> prop out "fetchedAt" = VStr (now w)) /\
  (forall w limit out,
      lpga_leaderboard w limit = Ok {| output := out |} ->
      has_field "error" out = false -> prop out "fetchedAt" = VStr (now w)) /\
  (forall w out,
      full_report w = Ok {| output := out |} -> prop out "generatedAt" = VStr (now w)) /\
  (forall (Tracker : Type) getAllTransactions (tracker : option Tracker) windowMs limit out,
      analytics_transactions Tracker getAllTransactions tracker windowMs limit
        = Ok {| output := out |} ->
      has_timestamp out = false) /\
  (forall (Tracker : Type) exportToCSV (tracker : option Tracker) windowMs out,
      analytics_csv Tracker exportToCSV tracker windowMs = Ok {| output := out |} ->
      has_timestamp out = false) /\
  (forall (Tracker : Type) getSummary windowMs out,
      analytics Tracker getSummary None windowMs = Ok {| output := out |} ->
      has_timestamp out = false).
Proof.
  repeat match goal with |- _ /\ _ => split end.
  - intros w out Hrun.
    destruct (overview_Ok w out Hrun) as (_ & _ & Hstamp & _); exact Hstamp.
  - intros w limit out Hrun Hdata.
    destruct (pga_leaderboard_Ok w limit out Hrun) as [(Herr & _) | (_ & _ & _ & Hstamp & _)].
    + rewrite Herr in Hdata; discriminate Hdata.
    + exact Hstamp.
  - intros w playerId out Hrun Hdata.
    destruct (player_scorecard_Ok w playerId out Hrun) as [Herr | Hstamp].
    + rewrite Herr in Hdata; discriminate Hdata.
    + exact Hstamp.
  - intros w limit out Hrun.
    destruct (pga_schedule_Ok w limit out Hrun) as (Hstamp & _); exact Hstamp.
  - intros w limit out Hrun Hdata.
    destruct (lpga_leaderboard_Ok w limit out Hrun) as [(Herr & _) | (_ & _ & Hstamp & _)].
    + rewrite Herr in Hdata; discriminate Hdata.
    + exact Hstamp.
  - intros w out Hrun.
    destruct (full_report_Ok w out Hrun) as (? & ? & ? & ? & _ & _ & _ & _ & _ & _ & Hstamp & _).
    exact Hstamp.
  - intros Tracker getAll tracker windowMs limit out Hrun.
    unfold analytics_transactions in Hrun; destruct tracker as [t |].
    + invert_binds Hrun; inversion Hrun; subst; reflexivity.
    + inversion Hrun; subst; reflexivity.
  - intros Tracker exportCSV tracker windowMs out Hrun.
    unfold analytics_csv in Hrun; destruct tracker as [t |].
    + invert_binds Hrun; inversion Hrun; subst; reflexivity.
    + inversion Hrun; subst; reflexivity.
  - intros Tracker getSummary windowMs out Hrun.
    inversion Hrun; subst; reflexivity.
Qed.

Lemma data_outputs_carry_timestamp_witness :
  (exists out, overview Sample.live = Ok {| output := out |} /\
               prop out "fetchedAt" = VStr Sample.stamp) /\
  (exists out, overview Sample.off_season = Ok {| output := out |} /\
               prop out "fetchedAt" = VStr Sample.stamp) /\
  (exists out, pga_leaderboard Sample.live 50 = Ok {| output := out |} /\
               has_field "error" out = false /\
               prop out "fetchedAt" = VStr Sample.stamp) /\
  (exists out, player_scorecard Sample.live "503" = Ok {| output := out |} /\
               has_field "error" out = false /\
               prop out "fetchedAt" = VStr Sample.stamp) /\
  (exists out, pga_schedule Sample.live 10 = Ok {| output := out |} /\
               prop out "fetchedAt" = VStr Sample.stamp) /\
  (exists out, lpga_leaderboard Sample.live 30 = Ok {| output := out |} /\
               has_field "error" out = false /\
               prop out "fetchedAt" = VStr Sample.stamp) /\
  (exists out, full_report Sample.live = Ok {| output := out |} /\
               prop out "generatedAt" = VStr Sample.stamp) /\
  (exists out, analytics_transactions Sample.ledger Sample.ledger_transactions
                 (Some Sample.two_payments) None 50 = Ok {| output := out |} /\
               has_timestamp out = false) /\
  (exists out, analytics_csv Sample.ledger Sample.ledger_csv
                 (Some Sample.two_payments) None = Ok {| output := out |} /\
               has_timestamp out = false) /\
  (exists out, analytics Sample.ledger Sample.ledger_summary None None
                 = Ok {| output := out |} /\
               has_timestamp out = false).
Proof.
  destruct data_outputs_carry_timestamp
    as (Hoverview & Hpga & Hcard & Hsched & Hlpga & Hreport & Htx & Hcsv & Hsum).
  repeat match goal with |- _ /\ _ => split end.
  - eexists; split; [vm_compute; reflexivity |].
    apply (Hoverview Sample.live); vm_compute; reflexivity.
  - eexists; split; [vm_compute; reflexivity |].
    apply (Hoverview Sample.off_season); vm_compute; reflexivity.
  - eexists; split; [vm_compute; reflexivity |].
    split; [vm_compute; reflexivity |].
    apply (Hpga Sample.live 50); vm_compute; reflexivity.
  - eexists; split; [vm_compute; reflexivity |].
    split; [vm_compute; reflexivity |].
    apply (Hcard Sample.live "503"); vm_compute; reflexivity.
  - eexists; split; [vm_compute; reflexivity |].
    apply (Hsched Sample.live 10); vm_compute; reflexivity.
  - eexists; split; [vm_compute; reflexivity |].
    split; [vm_compute; reflexivity |].
    apply (Hlpga Sample.live 30); vm_compute; reflexivity.
  - eexists; split; [vm_compute; reflexivity |].
    apply (Hreport Sample.live); vm_compute; reflexivity.
  - eexists; split; [vm_compute; reflexivity |].
    eapply (Htx Sample.ledger Sample.ledger_transactions (Some Sample.two_payments) None 50);
      vm_compute; reflexivity.
  - eexists; split; [vm_compute; reflexivity |].
    eapply (Hcsv Sample.ledger Sample.ledger_csv (Some Sample.two_payments) None);
      vm_compute; reflexivity.
  - eexists; split; [vm_compute; reflexivity |].
    eapply (Hsum Sample.ledger Sample.ledger_summary None); vm_compute; reflexivity.
Defined.

(** C2 fails as stated: the error-shaped output of pga-leaderboard and the
    outputs of the analytics handlers carry no timestamp field. *)
Lemma outputs_without_timestamp :
  (exists out, pga_leaderboard Sample.off_season 50 = Ok {| output := out |} /\
               has_timestamp out = false) /\
  (exists out, analytics_transactions Sample.ledger Sample.ledger_transactions
                 None None 50 = Ok {| output := out |} /\
               has_timestamp out = false) /\
  (exists out, analytics_csv Sample.ledger Sample.ledger_csv None None
                 = Ok {| output := out |} /\
               has_timestamp out = false).
Proof.
  split; [| split]; eexists; split; vm_compute; reflexivity.
Qed.

(** ** No active tournament *)










(** ** Analytics without a tracker *)

(** C9: without a payment tracker, analytics returns no summary totals
    (an [error] note and an empty [payments] list), analytics-transactions
    an empty transaction list, analytics-csv an empty string; all three
    return normally. *)
Theorem analytics_without_tracker
    (Tracker : Type)
    (getSummary : Tracker -> option Z -> res (list (string * value)))
    (getAllTransactions : Tracker -> option Z -> res (list value))
    (exportToCSV : Tracker -> option Z -> res string)
    (windowMs : option Z) (limit : Z) :
  (exists out,
      analytics Tracker getSummary None windowMs = Ok {| output := out |} /\
      out = VObj [("error", VStr "Analytics not available"); ("payments", VArr [])] /\
      prop out "outgoingTotal" = VUndefined /\
      prop out "incomingTotal" = VUndefined /\
      prop out "netTotal" = VUndefined) /\
  analytics_transactions Tracker getAllTransactions None windowMs limit =
    Ok {| output := VObj [("transactions", VArr [])] |} /\
  analytics_csv Tracker exportToCSV None windowMs =
    Ok {| output := VObj [("csv", VStr EmptyString)] |}.
Proof.
  split; [| split]; try reflexivity.
  eexists; split; [reflexivity |]; repeat split; reflexivity.
Qed.

(** ** player-scorecard *)

Lemma is_player_truthy (playerId : string) (c : value) :
  is_player playerId c = true -> truthy c = true.
Proof.
  unfold is_player; destruct c as [| | b | n | s | l | fs]; simpl; intros H;
    try discriminate H; reflexivity.
Qed.

(** [competitors.find(c => c.id === playerId)] on a list of entries is the
    first entry with that id, or [undefined]. *)
Lemma find_first_has_id (playerId : string) (cs : list value) :
  forallb present cs = true ->
  find_first (has_id playerId) cs =
    Ok (match find (is_player playerId) cs with
        | Some player => player
        | None => VUndefined
        end).
Proof.
  induction cs as [| c cs IH]; simpl; intros H; [reflexivity |].
  apply andb_true_iff in H; destruct H as [Hc Hcs].
  unfold has_id at 1; rewrite (get_present _ _ (present_nullish _ Hc)); cbn [bind].
  fold (is_player playerId c).
  destruct (is_player playerId c); [reflexivity | exact (IH Hcs)].
Qed.

Lemma rounds_of_player (player : value) :
  linescores_ok player = true ->
  js_or (prop player "linescores") (VArr []) = VArr (linescore_rounds player) /\
  forallb round_ok (linescore_rounds player) = true.
Proof.
  unfold linescores_ok, linescore_rounds, js_or.
  destruct (prop player "linescores") as [| | b | n | s | l | fs]; simpl; intros H;
    try discriminate H; try (split; reflexivity).
  - apply negb_true_iff in H; rewrite H; split; reflexivity.
  - apply negb_true_iff in H; rewrite H; split; reflexivity.
  - apply negb_true_iff in H; rewrite H; split; reflexivity.
  - split; [reflexivity | exact H].
Qed.

Lemma hint_rows_of_entries (l : list value) :
  forallb present l = true -> forall k, mapi_from hint_row k l = Ok (map hint_of l).
Proof.
  induction l as [| c l IH]; simpl; intros H k; [reflexivity |].
  apply andb_true_iff in H; destruct H as [Hc Hl].
  unfold hint_row at 1; rewrite !(get_present _ _ (present_nullish _ Hc)); cbn [bind].
  rewrite (IH Hl (S k)); reflexivity.
Qed.

(** C5 (as amended): with a current event and a scoreboard whose
    competitor entries are not [null], player-scorecard, given the id of a
    competitor whose line score is well formed, returns a rounds list with
    one entry per round of that player's line score (the player being the
    first competitor with that id); given an id that no competitor has, it
    returns normally with an [error] field and, as hints, the
    [{ id, name }] pairs of the first min(10, m) competitors in order, at
    most 10. *)
Theorem player_scorecard_rounds_and_hints
    (w : world) (ev : value) (cs : list value) (playerId : string) :
  pga_scoreboard w ev cs ->
  forallb present cs = true ->
  (forall player,
      find (is_player playerId) cs = Some player ->
      linescores_ok player = true ->
      exists out rounds,
        player_scorecard w playerId = Ok {| output := out |} /\
        has_field "error" out = false /\
        prop (prop out "player") "id" = VStr playerId /\
        prop out "rounds" = VArr rounds /\
        List.length rounds = List.length (linescore_rounds player)) /\
  (find (is_player playerId) cs = None ->
   exists hints,
     player_scorecard w playerId =
       Ok {| output := VObj [("error", VStr "Player not found in current tournament");
                             ("availablePlayers", VArr hints)] |} /\
     hints = map hint_of (firstn 10 cs) /\
     List.length hints = Nat.min 10 (List.length cs) /\
     (List.length hints <= 10)%nat).
Proof.
  intros ((data & events & Hdata & Hevents & Hev) & Htruthy & scoreboard & Hsb & Hcs) Hpresent.
  pose proof (truthy_present _ Htruthy) as Hnn.
  unfold pga_events_url in Hdata; unfold event_scoreboard_url in Hsb.
  split.
  - intros player Hfind Hls.
    pose proof (find_some _ _ Hfind) as (_ & Hid).
    pose proof (is_player_truthy _ _ Hid) as Hpt.
    pose proof (truthy_present _ Hpt) as Hpn.
    destruct (rounds_of_player player Hls) as (Hor & Hrounds).
    destruct (mapi_from_total round_row round_ok round_row_total
                (linescore_rounds player) 0 Hrounds) as (rounds & Hrows).
    unfold player_scorecard.
    rewrite Hdata; cbn [bind]; rewrite Hevents; cbn [bind].
    rewrite Hev, Htruthy; cbn [negb].
    unfold scoreboard_url; rewrite (get_present _ _ Hnn); cbn [bind].
    rewrite Hsb; cbn [bind]; rewrite Hcs; cbn [bind call_find].
    rewrite (find_first_has_id _ _ Hpresent), Hfind; cbn [bind].
    rewrite Hpt; cbn [negb].
    rewrite !(get_present _ _ Hpn), (get_present _ _ Hnn); cbn [bind].
    rewrite Hor; cbn [call_map bind]; rewrite Hrows; cbn [bind].
    unfold or_else.
    destruct (truthy (opt_get (prop player "athlete") "displayName")); cbn [bind];
      (eexists; exists rounds; split; [reflexivity |];
       split; [reflexivity |];
       split; [| split; [reflexivity | exact (mapi_from_length _ _ _ _ Hrows)]]).
    + unfold is_player in Hid; simpl.
      destruct (prop player "id"); simpl in Hid; try discriminate Hid.
      apply String.eqb_eq in Hid; subst; reflexivity.
    + unfold is_player in Hid; simpl.
      destruct (prop player "id"); simpl in Hid; try discriminate Hid.
      apply String.eqb_eq in Hid; subst; reflexivity.
  - intros Hfind.
    assert (Hslice : slice_list 10 cs = firstn 10 cs).
    { unfold slice_list; rewrite slice_count_nonneg by lia.
      change (Z.to_nat 10) with 10%nat.
      clear; generalize 10%nat; intros n; revert cs.
      induction n as [| n IH]; intros cs; [reflexivity |].
      destruct cs as [| c cs]; [reflexivity | simpl; f_equal; apply IH]. }
    pose proof (hint_rows_of_entries (slice_list 10 cs) (forallb_slice _ _ _ Hpresent) 0)
      as Hhints.
    exists (map hint_of (firstn 10 cs)).
    assert (Hlen : List.length (map hint_of (firstn 10 cs)) = Nat.min 10 (List.length cs)).
    { rewrite length_map, length_firstn; reflexivity. }
    split; [| split; [reflexivity | split; [exact Hlen | rewrite Hlen; apply Nat.le_min_l]]].
    unfold player_scorecard.
    rewrite Hdata; cbn [bind]; rewrite Hevents; cbn [bind].
    rewrite Hev, Htruthy; cbn [negb].
    unfold scoreboard_url; rewrite (get_present _ _ Hnn); cbn [bind].
    rewrite Hsb; cbn [bind]; rewrite Hcs; cbn [bind call_find].
    rewrite (find_first_has_id _ _ Hpresent), Hfind; cbn [bind truthy negb].
    cbn [call_slice bind call_map]; rewrite Hhints, Hslice; reflexivity.
Qed.

Lemma player_scorecard_rounds_and_hints_witness :
  (exists out rounds,
      player_scorecard Sample.live "503" = Ok {| output := out |} /\
      has_field "error" out = false /\
      prop (prop out "player") "id" = VStr "503" /\
      prop out "rounds" = VArr rounds /\
      List.length rounds = 2%nat) /\
  (exists hints,
      player_scorecard Sample.live "999" =
        Ok {| output := VObj [("error", VStr "Player not found in current tournament");
                              ("availablePlayers", VArr hints)] |} /\
      hints = map hint_of (Sample.field 10) /\
      List.length hints = 10%nat /\
      (List.length hints <= 10)%nat).
Proof.
  split.
  - destruct (player_scorecard_rounds_and_hints
                Sample.live Sample.open (Sample.field 20) "503"
                live_pga_scoreboard eq_refl) as (Hknown & _).
    apply (Hknown (Sample.competitor 3)); reflexivity.
  - destruct (player_scorecard_rounds_and_hints
                Sample.live Sample.open (Sample.field 20) "999"
                live_pga_scoreboard eq_refl) as (_ & Hunknown).
    apply Hunknown; reflexivity.
Defined.

(** C5 fails as stated: an id that no competitor has does not always get
    the not-found reply.  With a [null] entry in the scoreboard the search
    reads [c.id] on it and the call fails with a [TypeError]. *)
Lemma scorecard_unknown_id_can_throw :
  pga_scoreboard Cases.gapped Cases.gapped_event Cases.gapped_field /\
  find (is_player "999") Cases.gapped_field = None /\
  player_scorecard Cases.gapped "999" = Throw TypeError.
Proof.
  split; [| split; vm_compute; reflexivity].
  split; [| split].
  - exists (VObj [("events", VArr [Cases.gapped_event])]), (VArr [Cases.gapped_event]).
    repeat split; reflexivity.
  - reflexivity.
  - exists (Sample.event_scoreboard Cases.gapped_field); split; reflexivity.
Qed.

(** ** full-report *)








(** ** Country extraction *)

Section String_facts.

Lemma append_empty_r (s : string) : s ++ EmptyString = s.
Proof. induction s as [| c s IH]; simpl; [reflexivity | rewrite IH; reflexivity]. Qed.

Lemma append_assoc (s t u : string) : (s ++ t) ++ u = s ++ (t ++ u).
Proof. induction s as [| c s IH]; simpl; [reflexivity | rewrite IH; reflexivity]. Qed.

Lemma prefix_append (s t : string) : String.prefix s (s ++ t) = true.
Proof.
  induction s as [| c s IH]; simpl; [destruct t; reflexivity |].
  destruct (ascii_dec c c) as [_ | Hne]; [exact IH | contradiction Hne; reflexivity].
Qed.

(** Passing over the rest of a separator that was just matched. *)
Lemma split_go_skip (sep t cur rest : string) :
  split_go sep (String.length t) cur (t ++ rest) = split_go sep 0 cur rest.
Proof.
  induction t as [| c t IH]; simpl; [destruct rest; reflexivity | exact IH].
Qed.

Lemma split_go_separator (a : ascii) (sep' cur rest : string) :
  split_go (String a sep') 0 cur (String a sep' ++ rest)
  = cur :: split_go (String a sep') 0 EmptyString rest.
Proof.
  pose proof (prefix_append (String a sep') rest) as Hp.
  cbn [append split_go]; cbn [append] in Hp.
  rewrite Hp; f_equal.
  cbn [String.length]; rewrite Nat.sub_succ, Nat.sub_0_r.
  apply split_go_skip.
Qed.

(** Splitting at the first occurrence of the separator. *)
Lemma split_go_first (a : ascii) (sep' : string) (p rest : string) :
  let sep := String a sep' in
  forall cur,
    index_of sep (p ++ sep ++ rest) = Some (String.length p) ->
    split_go sep 0 cur (p ++ sep ++ rest) = (cur ++ p) :: split_go sep 0 EmptyString rest.
Proof.
  intros sep; induction p as [| c p IH]; intros cur Hidx.
  - rewrite append_empty_r; apply split_go_separator.
  - change (String c p ++ sep ++ rest) with (String c (p ++ sep ++ rest)) in Hidx |- *.
    cbn [String.length] in Hidx.
    cbn [index_of] in Hidx; cbn [split_go].
    destruct (String.prefix sep (String c (p ++ sep ++ rest))); [discriminate Hidx |].
    destruct (index_of sep (p ++ sep ++ rest)) as [k |] eqn:Hk; [| discriminate Hidx].
    simpl in Hidx; inversion Hidx; subst k.
    rewrite (IH _ eq_refl), append_assoc; reflexivity.
Qed.

Lemma includes_append (pat p t : string) :
  String.prefix pat t = true -> includes pat (p ++ t) = true.
Proof.
  intros Hp; unfold includes.
  induction p as [| c p IH]; cbn [append].
  - destruct t; simpl in *; rewrite Hp; reflexivity.
  - cbn [index_of].
    destruct (String.prefix pat (String c (p ++ t))); [reflexivity |].
    destruct (index_of pat (p ++ t)); [reflexivity | discriminate IH].
Qed.

End String_facts.

(** The logo expression on a URL that contains [/countries/]. *)
Lemma lpga_country_of_url (c : value) (url : string) :
  get c "logo" = Ok (VStr url) ->
  includes "/countries/" url = true ->
  lpga_country c =
    match nth 1 (map VStr (split "/countries/500/" url)) VUndefined with
    | VStr code => Ok (VStr (toUpperCase (replace ".png" EmptyString code)))
    | VUndefined | VNull => Ok VUndefined
    | _ => Throw TypeError
    end.
Proof.
  intros Hlogo Hinc; unfold lpga_country.
  rewrite Hlogo; cbn [bind opt_call nullish call_includes]; rewrite Hinc.
  cbn [truthy call_split bind idx nullish elem].
  destruct (nth 1 (map VStr (split "/countries/500/" url)) VUndefined); reflexivity.
Qed.

Ltac country_of_row Hnn :=
  rewrite !(get_present _ _ Hnn); cbn [bind];
  eexists; split; reflexivity.

(** C3 (as amended): in overview a shortName of "USA.Smith" gives country
    "USA" and a missing shortName gives "N/A"; in lpga-leaderboard a logo
    URL that ends with "/countries/500/ENG.png", this being its first
    occurrence of "/countries/500/", gives "ENG", and a missing logo or a
    logo URL that does not contain "/countries/" gives "N/A". *)
Theorem country_extraction :
  (forall c i,
      get c "shortName" = Ok (VStr "USA.Smith") ->
      exists r, overview_row c i = Ok r /\ prop r "country" = VStr "USA") /\
  (forall c i,
      get c "shortName" = Ok VUndefined ->
      exists r, overview_row c i = Ok r /\ prop r "country" = VStr "N/A") /\
  (forall c i p,
      get c "logo" = Ok (VStr (p ++ "/countries/500/ENG.png")) ->
      index_of "/countries/500/" (p ++ "/countries/500/ENG.png") = Some (String.length p) ->
      exists r, lpga_row c i = Ok r /\ prop r "country" = VStr "ENG") /\
  (forall c i url,
      get c "logo" = Ok (VStr url) ->
      includes "/countries/" url = false ->
      exists r, lpga_row c i = Ok r /\ prop r "country" = VStr "N/A") /\
  (forall c i,
      get c "logo" = Ok VUndefined ->
      exists r, lpga_row c i = Ok r /\ prop r "country" = VStr "N/A").
Proof.
  repeat match goal with |- _ /\ _ => split end.
  - intros c i Hshort.
    destruct (get_Ok _ _ _ Hshort) as (Hnn & _).
    unfold overview_row, overview_country; rewrite Hshort.
    country_of_row Hnn.
  - intros c i Hshort.
    destruct (get_Ok _ _ _ Hshort) as (Hnn & _).
    unfold overview_row, overview_country; rewrite Hshort.
    country_of_row Hnn.
  - intros c i p Hlogo Hidx.
    destruct (get_Ok _ _ _ Hlogo) as (Hnn & _).
    assert (Hinc : includes "/countries/" (p ++ "/countries/500/ENG.png") = true)
      by (apply includes_append; reflexivity).
    assert (Hsplit : split "/countries/500/" (p ++ "/countries/500/ENG.png")
                     = [p; "ENG.png"]).
    { exact (split_go_first "/"%char "countries/500/" p "ENG.png" EmptyString Hidx). }
    unfold lpga_row.
    rewrite (lpga_country_of_url c _ Hlogo Hinc), Hsplit.
    country_of_row Hnn.
  - intros c i url Hlogo Hinc.
    destruct (get_Ok _ _ _ Hlogo) as (Hnn & _).
    unfold lpga_row, lpga_country; rewrite Hlogo.
    cbn [bind opt_call nullish call_includes]; rewrite Hinc; cbn [truthy].
    country_of_row Hnn.
  - intros c i Hlogo.
    destruct (get_Ok _ _ _ Hlogo) as (Hnn & _).
    unfold lpga_row, lpga_country; rewrite Hlogo.
    country_of_row Hnn.
Qed.

Lemma country_extraction_witness :
  (exists r, overview_row (VObj [("displayName", VStr "J. Smith");
                                 ("shortName", VStr "USA.Smith")]) 0 = Ok r /\
             prop r "country" = VStr "USA") /\
  (exists r, overview_row (VObj [("displayName", VStr "J. Smith")]) 0 = Ok r /\
             prop r "country" = VStr "N/A") /\
  (exists r, lpga_row (VObj [("logo",
                VStr "https://a.espncdn.com/i/teamlogos/countries/500/ENG.png")]) 0 = Ok r /\
             prop r "country" = VStr "ENG") /\
  (exists r, lpga_row (VObj [("logo",
                VStr "https://a.espncdn.com/i/headshots/golf/players/full/9478.png")]) 0 = Ok r /\
             prop r "country" = VStr "N/A") /\
  (exists r, lpga_row (VObj [("displayName", VStr "C. Hull")]) 0 = Ok r /\
             prop r "country" = VStr "N/A").
Proof.
  destruct country_extraction as (Husa & Hnone & Heng & Hother & Habsent).
  repeat match goal with |- _ /\ _ => split end.
  - apply Husa; reflexivity.
  - apply Hnone; reflexivity.
  - apply (Heng _ 0%nat "https://a.espncdn.com/i/teamlogos"); reflexivity.
  - eapply Hother; reflexivity.
  - apply Habsent; reflexivity.
Defined.

(** C3 fails as stated for logo URLs.  A URL that contains
    "/countries/500/ENG.png" followed by a query string does not give
    "ENG"; a URL that has "/countries/" but not "/countries/500/" gives
    [undefined], not "N/A". *)
Lemma logo_country_mismatches :
  includes "/countries/500/ENG.png"
    "https://a.espncdn.com/combiner/i?img=/i/teamlogos/countries/500/ENG.png&w=40" = true /\
  lpga_country
    (VObj [("logo",
            VStr "https://a.espncdn.com/combiner/i?img=/i/teamlogos/countries/500/ENG.png&w=40")])
    = Ok (VStr "ENG&W=40") /\
  includes "/countries/500/" "https://a.espncdn.com/i/teamlogos/countries/eng.png" = false /\
  lpga_country
    (VObj [("logo", VStr "https://a.espncdn.com/i/teamlogos/countries/eng.png")])
    = Ok VUndefined /\
  (exists r,
      lpga_row (VObj [("logo", VStr "https://a.espncdn.com/i/teamlogos/countries/eng.png")]) 0
        = Ok r /\
      prop r "country" = VUndefined).
Proof.
  repeat match goal with |- _ /\ _ => split end; try (vm_compute; reflexivity).
  eexists; split; vm_compute; reflexivity.
Qed.

(** ** Upstream failures *)

(** X1: a failure of the events call is the failure of the handler: overview,
    pga-leaderboard, player-scorecard (PGA events) and lpga-leaderboard
    (LPGA events) raise the same exception, and pga-schedule raises that
    of its scoreboard call. *)
Theorem events_failure_propagates (w : world) (e : exn) :
  (fetchJSON w pga_events_url = Throw e ->
   overview w = Throw e /\
   (forall limit, pga_leaderboard w limit = Throw e) /\
   (forall playerId, player_scorecard w playerId = Throw e)) /\
  (fetchJSON w lpga_events_url = Throw e ->
   forall limit, lpga_leaderboard w limit = Throw e) /\
  (fetchJSON w pga_scoreboard_url = Throw e ->
   forall limit, pga_schedule w limit = Throw e).
Proof.
  split; [| split].
  - unfold pga_events_url; intros H; split; [| split]; intros;
      unfold overview, pga_leaderboard, player_scorecard; rewrite H; reflexivity.
  - unfold lpga_events_url; intros H limit.
    unfold lpga_leaderboard; rewrite H; reflexivity.
  - unfold pga_scoreboard_url; intros H limit.
    unfold pga_schedule; rewrite H; reflexivity.
Qed.

Lemma events_failure_propagates_witness :
  overview Cases.events_down = Throw (ApiError 503) /\
  pga_leaderboard Cases.events_down 50 = Throw (ApiError 503) /\
  player_scorecard Cases.events_down "503" = Throw (ApiError 503) /\
  lpga_leaderboard Cases.events_only 30 = Throw (ApiError 503) /\
  pga_schedule Sample.scoreboard_down 10 = Throw (ApiError 503).
Proof.
  destruct (events_failure_propagates Cases.events_down (ApiError 503)) as (Hpga & _ & _).
  destruct (Hpga eq_refl) as (Hoverview & Hboard & Hcard).
  destruct (events_failure_propagates Cases.events_only (ApiError 503)) as (_ & Hlpga & _).
  destruct (events_failure_propagates Sample.scoreboard_down (ApiError 503)) as (_ & _ & Hsched).
  split; [exact Hoverview |].
  split; [exact (Hboard 50) |].
  split; [exact (Hcard "503") |].
  split; [exact (Hlpga eq_refl 30) | exact (Hsched eq_refl 10)].
Defined.

(** X2: with a current event, a failure of the scoreboard call fails
    pga-leaderboard and player-scorecard with the same exception: the event
    that was already fetched is not returned on its own. *)
Theorem scoreboard_failure_propagates (w : world) (ev : value) (e : exn) :
  first_event w pga_events_url ev ->
  truthy ev = true ->
  fetchJSON w (event_scoreboard_url ev) = Throw e ->
  (forall limit, pga_leaderboard w limit = Throw e) /\
  (forall playerId, player_scorecard w playerId = Throw e).
Proof.
  intros (data & events & Hdata & Hevents & Hev) Htruthy Hsb.
  pose proof (truthy_present _ Htruthy) as Hnn.
  unfold pga_events_url in Hdata; unfold event_scoreboard_url in Hsb.
  split; intros x.
  - unfold pga_leaderboard; rewrite Hdata; cbn [bind]; rewrite Hevents; cbn [bind].
    rewrite Hev, Htruthy; cbn [negb].
    unfold scoreboard_url; rewrite (get_present _ _ Hnn); cbn [bind].
    rewrite Hsb; reflexivity.
  - unfold player_scorecard; rewrite Hdata; cbn [bind]; rewrite Hevents; cbn [bind].
    rewrite Hev, Htruthy; cbn [negb].
    unfold scoreboard_url; rewrite (get_present _ _ Hnn); cbn [bind].
    rewrite Hsb; reflexivity.
Qed.

Lemma event_scoreboard_down_first_event :
  first_event Cases.event_scoreboard_down pga_events_url Sample.open.
Proof.
  exists (VObj [("events", VArr [Sample.open])]), (VArr [Sample.open]).
  repeat split; reflexivity.
Qed.

Lemma scoreboard_failure_propagates_witness :
  pga_leaderboard Cases.event_scoreboard_down 50 = Throw (ApiError 503) /\
  player_scorecard Cases.event_scoreboard_down "503" = Throw (ApiError 503).
Proof.
  destruct (scoreboard_failure_propagates Cases.event_scoreboard_down Sample.open
              (ApiError 503) event_scoreboard_down_first_event eq_refl eq_refl)
    as (Hboard & Hcard).
  split; [exact (Hboard 50) | exact (Hcard "503")].
Defined.

(** ** pga-leaderboard as a function of its scoreboard *)

Lemma tournament_block_present (ev : value) :
  nullish ev = false -> tournament_block ev = Ok (tournament_of ev).
Proof.
  intros Hnn; unfold tournament_block; rewrite !(get_present _ _ Hnn); reflexivity.
Qed.

(** The whole handler, once the event and the scoreboard are known. *)
Lemma pga_leaderboard_run (w : world) (ev : value) (cs : list value) (limit : Z) :
  pga_scoreboard w ev cs ->
  pga_leaderboard w limit =
    (rows <- mapi_from pga_row 0 (slice_list limit cs) ;;
     Ok {| output := VObj [("tournament", tournament_of ev);
                           ("leaderboard", VArr rows);
                           ("totalPlayers", VNum (Z.of_nat (List.length cs)));
                           ("fetchedAt", VStr (now w))] |}).
Proof.
  intros ((data & events & Hdata & Hevents & Hev) & Htruthy & scoreboard & Hsb & Hcs).
  pose proof (truthy_present _ Htruthy) as Hnn.
  unfold pga_events_url in Hdata; unfold event_scoreboard_url in Hsb.
  unfold pga_leaderboard; rewrite Hdata; cbn [bind]; rewrite Hevents; cbn [bind].
  rewrite Hev, Htruthy; cbn [negb].
  unfold scoreboard_url; rewrite (get_present _ _ Hnn); cbn [bind].
  rewrite Hsb; cbn [bind]; rewrite Hcs; cbn [bind].
  rewrite (tournament_block_present _ Hnn); cbn [bind call_slice call_map].
  destruct (mapi_from pga_row 0 (slice_list limit cs)); reflexivity.
Qed.

Section Null_entries.

Variable f : value -> nat -> res value.
Hypothesis f_null : forall c i, nullish c = true -> f c i = Throw TypeError.
Hypothesis f_present : forall c i, present c = true -> exists r, f c i = Ok r.

(** Mapping stops with a [TypeError] at the first [null] entry. *)
Lemma mapi_from_null (l : list value) :
  forall k, forallb present l = false -> mapi_from f k l = Throw TypeError.
Proof.
  induction l as [| x l IH]; intros k H; simpl in H; [discriminate H |].
  simpl; destruct (present x) eqn:Hx.
  - destruct (f_present x k Hx) as (y & Hy); rewrite Hy; cbn [bind].
    simpl in H; rewrite (IH (S k) H); reflexivity.
  - unfold present in Hx; apply negb_false_iff in Hx.
    rewrite (f_null x k Hx); reflexivity.
Qed.

End Null_entries.

Lemma pga_row_null (c : value) (i : nat) :
  nullish c = true -> pga_row c i = Throw TypeError.
Proof. intros H; unfold pga_row, get; rewrite H; reflexivity. Qed.

(** X3: pga-leaderboard reads exactly the entries it returns.  When the
    first entries, up to the limit, are all present it replies; when one
    of them is [null] the whole call fails with a [TypeError]; [null]
    entries after the limit are never looked at. *)
Theorem pga_leaderboard_reads_only_its_slice
    (w : world) (ev : value) (cs : list value) (limit : Z) :
  pga_scoreboard w ev cs ->
  (forallb present (slice_list limit cs) = true ->
   exists rows,
     pga_leaderboard w limit =
       Ok {| output := VObj [("tournament", tournament_of ev);
                             ("leaderboard", VArr rows);
                             ("totalPlayers", VNum (Z.of_nat (List.length cs)));
                             ("fetchedAt", VStr (now w))] |} /\
     List.length rows = List.length (slice_list limit cs)) /\
  (forallb present (slice_list limit cs) = false ->
   pga_leaderboard w limit = Throw TypeError).
Proof.
  intros Hup; rewrite (pga_leaderboard_run w ev cs limit Hup); split; intros H.
  - destruct (mapi_from_total pga_row present pga_row_total _ 0 H) as (rows & Hrows).
    exists rows; rewrite Hrows; split; [reflexivity |].
    exact (mapi_from_length _ _ _ _ Hrows).
  - rewrite (mapi_from_null pga_row pga_row_null (fun c i => pga_row_total c i) _ 0 H).
    reflexivity.
Qed.

Lemma gapped_pga_scoreboard :
  pga_scoreboard Cases.gapped Cases.gapped_event Cases.gapped_field.
Proof.
  split; [| split].
  - exists (VObj [("events", VArr [Cases.gapped_event])]), (VArr [Cases.gapped_event]).
    repeat split; reflexivity.
  - reflexivity.
  - exists (Sample.event_scoreboard Cases.gapped_field); split; reflexivity.
Qed.

Lemma pga_leaderboard_reads_only_its_slice_witness :
  (exists rows,
      pga_leaderboard Cases.gapped 3 =
        Ok {| output := VObj [("tournament", tournament_of Cases.gapped_event);
                              ("leaderboard", VArr rows);
                              ("totalPlayers", VNum 6);
                              ("fetchedAt", VStr Sample.stamp)] |} /\
      List.length rows = 3%nat) /\
  pga_leaderboard Cases.gapped 4 = Throw TypeError.
Proof.
  split.
  - destruct (pga_leaderboard_reads_only_its_slice
                Cases.gapped Cases.gapped_event Cases.gapped_field 3
                gapped_pga_scoreboard) as (Hok & _).
    apply Hok; reflexivity.
  - destruct (pga_leaderboard_reads_only_its_slice
                Cases.gapped Cases.gapped_event Cases.gapped_field 4
                gapped_pga_scoreboard) as (_ & Hfail).
    apply Hfail; reflexivity.
Defined.

(** ** Limits of pga-leaderboard *)

Lemma firstn_min_length {T : Type} (n : nat) (l : list T) :
  firstn (Nat.min n (List.length l)) l = firstn n l.
Proof.
  revert l; induction n as [| n IH]; intros l; [reflexivity |].
  destruct l as [| x l]; [reflexivity |].
  simpl; f_equal; apply IH.
Qed.

Lemma slice_list_nonneg {T : Type} (e : Z) (l : list T) :
  (0 <= e)%Z -> slice_list e l = firstn (Z.to_nat e) l.
Proof.
  intros He; unfold slice_list; rewrite slice_count_nonneg by exact He.
  apply firstn_min_length.
Qed.

Lemma slice_list_all {T : Type} (e : Z) (l : list T) :
  (Z.of_nat (List.length l) <= e)%Z -> slice_list e l = l.
Proof.
  intros He; rewrite slice_list_nonneg by lia.
  apply firstn_all2; lia.
Qed.

Lemma slice_list_none {T : Type} (e : Z) (l : list T) :
  e = 0%Z \/ (e <= - Z.of_nat (List.length l))%Z -> slice_list e l = [].
Proof.
  intros He; unfold slice_list.
  assert (Hc : slice_count (List.length l) e = 0%nat).
  { unfold slice_count; destruct (Z.ltb_spec e 0); lia. }
  rewrite Hc; reflexivity.
Qed.

Lemma mapi_from_firstn (f : value -> nat -> res value) (n : nat) (l : list value) :
  forall k rows, mapi_from f k l = Ok rows ->
                 mapi_from f k (firstn n l) = Ok (firstn n rows).
Proof.
  revert l; induction n as [| n IH]; intros l k rows H; [reflexivity |].
  destruct l as [| x l]; simpl in H.
  - inversion H; reflexivity.
  - apply bind_Ok in H; destruct H as (y & Hy & H).
    apply bind_Ok in H; destruct H as (ys & Hys & H).
    inversion H; subst; simpl.
    rewrite Hy; cbn [bind]; rewrite (IH l (S k) ys Hys); reflexivity.
Qed.

(** X4: pga-leaderboard pages consistently.  For limits 0 <= a <= b, when
    the call with limit b replies, so does the call with limit a, and its
    leaderboard is the first a rows of the longer one, with the same
    positions, tournament block and player count. *)
Theorem pga_leaderboard_smaller_limit_is_prefix
    (w : world) (ev : value) (cs : list value) (a b : Z) (rows_b : list value) :
  pga_scoreboard w ev cs ->
  (0 <= a <= b)%Z ->
  pga_leaderboard w b =
    Ok {| output := VObj [("tournament", tournament_of ev);
                          ("leaderboard", VArr rows_b);
                          ("totalPlayers", VNum (Z.of_nat (List.length cs)));
                          ("fetchedAt", VStr (now w))] |} ->
  pga_leaderboard w a =
    Ok {| output := VObj [("tournament", tournament_of ev);
                          ("leaderboard", VArr (firstn (Z.to_nat a) rows_b));
                          ("totalPlayers", VNum (Z.of_nat (List.length cs)));
                          ("fetchedAt", VStr (now w))] |}.
Proof.
  intros Hup Hab Hb.
  rewrite (pga_leaderboard_run w ev cs b Hup) in Hb.
  rewrite (pga_leaderboard_run w ev cs a Hup).
  apply bind_Ok in Hb; destruct Hb as (rows & Hrows & Hb).
  inversion Hb; subst rows; clear Hb.
  assert (Hslice : slice_list a cs = firstn (Z.to_nat a) (slice_list b cs)).
  { rewrite !slice_list_nonneg by lia.
    rewrite firstn_firstn; f_equal; lia. }
  rewrite Hslice, (mapi_from_firstn _ _ _ _ _ Hrows); reflexivity.
Qed.

Lemma pga_leaderboard_smaller_limit_is_prefix_witness :
  exists rows,
    pga_leaderboard Sample.live 8 =
      Ok {| output := VObj [("tournament", tournament_of Sample.open);
                            ("leaderboard", VArr rows);
                            ("totalPlayers", VNum 20);
                            ("fetchedAt", VStr Sample.stamp)] |} /\
    pga_leaderboard Sample.live 3 =
      Ok {| output := VObj [("tournament", tournament_of Sample.open);
                            ("leaderboard", VArr (firstn 3 rows));
                            ("totalPlayers", VNum 20);
                            ("fetchedAt", VStr Sample.stamp)] |}.
Proof.
  eexists; split; [vm_compute; reflexivity |].
  apply (pga_leaderboard_smaller_limit_is_prefix
           Sample.live Sample.open (Sample.field 20) 3 8);
    [exact live_pga_scoreboard | lia | vm_compute; reflexivity].
Defined.

(** X5: a limit of 0, or a negative limit that reaches past the start of
    the list (n <= -m), gives an empty leaderboard in a normal reply that
    still reports all m players; no entry is read, so even a scoreboard
    with [null] entries is answered. *)
Theorem pga_leaderboard_empty_slice
    (w : world) (ev : value) (cs : list value) (limit : Z) :
  pga_scoreboard w ev cs ->
  limit = 0%Z \/ (limit <= - Z.of_nat (List.length cs))%Z ->
  pga_leaderboard w limit =
    Ok {| output := VObj [("tournament", tournament_of ev);
                          ("leaderboard", VArr []);
                          ("totalPlayers", VNum (Z.of_nat (List.length cs)));
                          ("fetchedAt", VStr (now w))] |}.
Proof.
  intros Hup Hlimit.
  rewrite (pga_leaderboard_run w ev cs limit Hup), (slice_list_none _ _ Hlimit).
  reflexivity.
Qed.

Lemma pga_leaderboard_empty_slice_witness :
  pga_leaderboard Cases.gapped 0 =
    Ok {| output := VObj [("tournament", tournament_of Cases.gapped_event);
                          ("leaderboard", VArr []);
                          ("totalPlayers", VNum 6);
                          ("fetchedAt", VStr Sample.stamp)] |} /\
  pga_leaderboard Cases.gapped (-6) =
    Ok {| output := VObj [("tournament", tournament_of Cases.gapped_event);
                          ("leaderboard", VArr []);
                          ("totalPlayers", VNum 6);
                          ("fetchedAt", VStr Sample.stamp)] |}.
Proof.
  split.
  - apply (pga_leaderboard_empty_slice Cases.gapped Cases.gapped_event Cases.gapped_field 0);
      [exact gapped_pga_scoreboard | left; reflexivity].
  - apply (pga_leaderboard_empty_slice Cases.gapped Cases.gapped_event Cases.gapped_field (-6));
      [exact gapped_pga_scoreboard | right; simpl; lia].
Defined.

(** X6: every limit at or above the number of competitors m gives the
    reply of limit m: the list is returned whole and nothing is added. *)
Theorem pga_leaderboard_limit_saturates
    (w : world) (ev : value) (cs : list value) (limit : Z) :
  pga_scoreboard w ev cs ->
  (Z.of_nat (List.length cs) <= limit)%Z ->
  pga_leaderboard w limit = pga_leaderboard w (Z.of_nat (List.length cs)) /\
  pga_leaderboard w limit =
    (rows <- mapi_from pga_row 0 cs ;;
     Ok {| output := VObj [("tournament", tournament_of ev);
                           ("leaderboard", VArr rows);
                           ("totalPlayers", VNum (Z.of_nat (List.length cs)));
                           ("fetchedAt", VStr (now w))] |}).
Proof.
  intros Hup Hlimit.
  rewrite !(pga_leaderboard_run w ev cs _ Hup).
  rewrite (slice_list_all limit cs Hlimit).
  rewrite (slice_list_all (Z.of_nat (List.length cs)) cs (Z.le_refl _)).
  split; reflexivity.
Qed.

Lemma pga_leaderboard_limit_saturates_witness :
  pga_leaderboard Sample.live 1000 = pga_leaderboard Sample.live 20 /\
  pga_leaderboard Sample.live 1000 =
    (rows <- mapi_from pga_row 0 (Sample.field 20) ;;
     Ok {| output := VObj [("tournament", tournament_of Sample.open);
                           ("leaderboard", VArr rows);
                           ("totalPlayers", VNum 20);
                           ("fetchedAt", VStr Sample.stamp)] |}).
Proof.
  apply (pga_leaderboard_limit_saturates Sample.live Sample.open (Sample.field 20) 1000);
    [exact live_pga_scoreboard | simpl; lia].
Defined.

(** ** What the rows always hold *)

Lemma js_or_truthy (a b : value) : truthy b = true -> truthy (js_or a b) = true.
Proof. intros Hb; unfold js_or; destruct (truthy a) eqn:Ha; assumption. Qed.

Lemma In_nth_error_row (rows : list value) (r : value) :
  In r rows -> exists i, nth_error rows i = Some r.
Proof. intros H; apply In_nth_error; exact H. Qed.

Lemma pga_row_defaults (c : value) (i : nat) (r : value) :
  pga_row c i = Ok r ->
  truthy (prop r "country") = true /\ truthy (prop r "thru") = true /\
  prop r "playerId" = prop c "id" /\ prop r "score" = prop c "score".
Proof.
  unfold pga_row; intros H; invert_binds H.
  apply get_Ok in E; destruct E as (_ & ->).
  apply get_Ok in E2; destruct E2 as (_ & ->).
  inversion H; subst; simpl.
  repeat split; apply js_or_truthy; reflexivity.
Qed.

(** *** Upper case *)

Lemma upper_char_idempotent (c : ascii) : upper_char (upper_char c) = upper_char c.
Proof.
  destruct c as [[] [] [] [] [] [] [] []]; vm_compute; reflexivity.
Qed.

Lemma toUpperCase_idempotent (s : string) : toUpperCase (toUpperCase s) = toUpperCase s.
Proof.
  induction s as [| c s IH]; simpl; [reflexivity |].
  rewrite upper_char_idempotent, IH; reflexivity.
Qed.

Lemma lpga_country_shape (c v : value) :
  lpga_country c = Ok v ->
  v = VUndefined \/ exists t, v = VStr t /\ upper_case t.
Proof.
  unfold lpga_country; intros H; invert_binds H.
  destruct (truthy x0).
  - invert_binds H.
    destruct (nullish x2).
    + inversion H; left; reflexivity.
    + invert_binds H.
      destruct x3; simpl in H; try discriminate H.
      inversion H; subst; right; eexists; split; [reflexivity |].
      apply toUpperCase_idempotent.
  - inversion H; right; exists "N/A"; split; reflexivity.
Qed.

(** X8: in every reply of lpga-leaderboard the [country] of a row is
    either [undefined] or a string without lower-case ASCII letters (the
    upper-cased code, or 'N/A'). *)
Theorem lpga_country_is_upper_case
    (w : world) (limit : Z) (out : value) (rows : list value) (r : value) :
  lpga_leaderboard w limit = Ok {| output := out |} ->
  prop out "leaderboard" = VArr rows ->
  In r rows ->
  prop r "country" = VUndefined \/
  exists t, prop r "country" = VStr t /\ upper_case t.
Proof.
  intros Hrun Hboard Hin.
  destruct (lpga_leaderboard_Ok w limit out Hrun)
    as [(_ & Hnone) | (ev & _ & _ & rows' & Hboard' & Hrows)].
  - rewrite Hnone in Hboard; discriminate Hboard.
  - rewrite Hboard' in Hboard; inversion Hboard; subst rows'.
    destruct (In_nth_error_row _ _ Hin) as (i & Hi).
    destruct (mapi_from_nth _ _ _ _ Hrows i r Hi) as (c & _ & Hrow).
    unfold lpga_row in Hrow; invert_binds Hrow.
    inversion Hrow; subst r; simpl.
    eapply lpga_country_shape; eassumption.
Qed.

Lemma lpga_country_is_upper_case_witness :
  exists out rows r,
    lpga_leaderboard Sample.live 2 = Ok {| output := out |} /\
    prop out "leaderboard" = VArr rows /\
    In r rows /\
    prop r "country" = VStr "ENG" /\
    (prop r "country" = VUndefined \/
     exists t, prop r "country" = VStr t /\ upper_case t).
Proof.
  eexists; eexists; eexists.
  split; [vm_compute; reflexivity |].
  split; [vm_compute; reflexivity |].
  split; [left; reflexivity |].
  split; [reflexivity |].
  eapply (lpga_country_is_upper_case Sample.live 2);
    [vm_compute; reflexivity | vm_compute; reflexivity | left; reflexivity].
Defined.

(** *** The country token of overview *)

Lemma prefix_dot (c : ascii) (t : string) :
  String.prefix "." (String c t) = if ascii_dec "." c then true else false.
Proof. destruct t; reflexivity. Qed.

Lemma index_of_dot_snoc (cur : string) (c : ascii) :
  index_of "." cur = None -> c <> "."%char ->
  index_of "." (cur ++ String c EmptyString) = None.
Proof.
  intros Hcur Hc; induction cur as [| d cur IH].
  - change (EmptyString ++ String c EmptyString) with (String c EmptyString).
    cbn [index_of]; rewrite prefix_dot.
    destruct (ascii_dec "." c) as [E | _]; [symmetry in E; contradiction | reflexivity].
  - change (String d cur ++ String c EmptyString)
      with (String d (cur ++ String c EmptyString)).
    cbn [index_of] in Hcur |- *.
    rewrite prefix_dot in Hcur |- *.
    destruct (ascii_dec "." d); [discriminate Hcur |].
    destruct (index_of "." cur); [discriminate Hcur |].
    rewrite (IH eq_refl); reflexivity.
Qed.

(** The first piece of [s.split('.')] has no dot. *)
Lemma split_dot_first (s : string) :
  forall cur, index_of "." cur = None ->
              exists first rest, split_go "." 0 cur s = first :: rest /\
                                 index_of "." first = None.
Proof.
  induction s as [| c s IH]; intros cur Hcur.
  - exists cur, []; split; [reflexivity | exact Hcur].
  - cbn [split_go]; rewrite prefix_dot.
    destruct (ascii_dec "." c) as [E | Hne].
    + eexists; eexists; split; [reflexivity | exact Hcur].
    + apply IH; apply index_of_dot_snoc; [exact Hcur |].
      intros E; apply Hne; symmetry; exact E.
Qed.

Lemma overview_country_token (c v : value) :
  overview_country c = Ok v ->
  exists t, v = VStr t /\ t <> EmptyString /\ includes "." t = false.
Proof.
  unfold overview_country; intros H; invert_binds H.
  assert (Hna : exists t, VStr "N/A" = VStr t /\ t <> EmptyString /\ includes "." t = false).
  { exists "N/A"; split; [reflexivity | split; [discriminate | reflexivity]]. }
  destruct (nullish x).
  - inversion E0; subst x0; inversion H; subst v; exact Hna.
  - invert_binds E0.
    destruct x; simpl in E1; try discriminate E1.
    inversion E1; subst x1; clear E1.
    unfold idx in E0; simpl in E0; inversion E0; subst x0; clear E0.
    destruct (split_dot_first s EmptyString eq_refl) as (first & rest & Hsplit & Hfirst).
    unfold split in H; rewrite Hsplit in H; simpl in H.
    inversion H; subst v; unfold js_or; simpl.
    destruct (String.eqb_spec first EmptyString) as [-> | Hne]; simpl; [exact Hna |].
    exists first; split; [reflexivity |]; split; [exact Hne |].
    unfold includes; rewrite Hfirst; reflexivity.
Qed.

Lemma before_dot_cons (c : ascii) (s : string) :
  before_dot (String c s) = if ascii_dec "." c then EmptyString else String c (before_dot s).
Proof.
  unfold before_dot; cbn [index_of]; rewrite prefix_dot.
  destruct (ascii_dec "." c); [reflexivity |].
  destruct (index_of "." s); reflexivity.
Qed.

(** The first piece of [s.split('.')] is the part of [s] before its first
    dot. *)
Lemma split_dot_head (s : string) :
  forall cur, exists rest, split_go "." 0 cur s = (cur ++ before_dot s) :: rest.
Proof.
  induction s as [| c s IH]; intros cur.
  - exists []; simpl; rewrite append_empty_r; reflexivity.
  - cbn [split_go]; rewrite prefix_dot, before_dot_cons.
    destruct (ascii_dec "." c) as [E | Hne].
    + eexists; rewrite append_empty_r; reflexivity.
    + destruct (IH (cur ++ String c EmptyString)) as (rest & Hrest).
      exists rest; rewrite Hrest, append_assoc; reflexivity.
Qed.

Lemma overview_country_value (c v : value) :
  overview_country c = Ok v ->
  (forall s, prop c "shortName" = VStr s -> before_dot s <> EmptyString ->
             v = VStr (before_dot s)) /\
  (forall s, prop c "shortName" = VStr s -> before_dot s = EmptyString ->
             v = VStr "N/A") /\
  (nullish (prop c "shortName") = true -> v = VStr "N/A").
Proof.
  unfold overview_country; intros H; invert_binds H.
  apply get_Ok in E; destruct E as (_ & ->).
  inversion H; subst v; clear H.
  destruct (prop c "shortName") as [| | b | n | s | l | fs]; simpl in E0;
    try discriminate E0.
  - inversion E0; subst x0.
    split; [intros s Hs; discriminate Hs |];
      split; [intros s Hs; discriminate Hs | intros _; reflexivity].
  - inversion E0; subst x0.
    split; [intros s Hs; discriminate Hs |];
      split; [intros s Hs; discriminate Hs | intros _; reflexivity].
  - unfold idx in E0; simpl in E0; inversion E0; subst x0; clear E0.
    destruct (split_dot_head s EmptyString) as (rest & Hsplit).
    unfold split; rewrite Hsplit; simpl; unfold js_or; simpl.
    split; [| split].
    + intros s' Hs Hne; inversion Hs; subst s'.
      destruct (String.eqb_spec (before_dot s) EmptyString) as [E | _];
        [contradiction | reflexivity].
    + intros s' Hs He; inversion Hs; subst s'.
      rewrite He; reflexivity.
    + intros Habs; discriminate Habs.
Qed.

(** X9: in every overview reply the [country] of row i is read off the
    short name of upstream competitor i: it is the part of the short name
    before its first dot, or 'N/A' when that part is empty or the short
    name is missing; so it is always a non-empty string without a dot. *)
Theorem overview_country_is_a_token (w : world) (out : value) (rows : list value) :
  overview w = Ok {| output := out |} ->
  prop out "leaderboard" = VArr rows ->
  exists ev,
    first_event w pga_events_url ev /\
    forall i r,
      nth_error rows i = Some r ->
      exists c,
        nth_error (arr (prop ev "competitors")) i = Some c /\
        (forall s, prop c "shortName" = VStr s -> before_dot s <> EmptyString ->
                   prop r "country" = VStr (before_dot s)) /\
        (forall s, prop c "shortName" = VStr s -> before_dot s = EmptyString ->
                   prop r "country" = VStr "N/A") /\
        (nullish (prop c "shortName") = true -> prop r "country" = VStr "N/A") /\
        exists t, prop r "country" = VStr t /\ t <> EmptyString /\ includes "." t = false.
Proof.
  intros Hrun Hboard.
  destruct (overview_Ok w out Hrun) as (ev & Hev & _ & _ & Hrows).
  specialize (Hrows rows Hboard).
  exists ev; split; [exact Hev |].
  intros i r Hi.
  destruct (mapi_from_nth _ _ _ _ Hrows i r Hi) as (c & Hc & Hrow).
  exists c; split; [exact (nth_error_slice _ _ _ _ Hc) |].
  unfold overview_row in Hrow; invert_binds Hrow.
  inversion Hrow; subst r; simpl.
  destruct (overview_country_value _ _ E1) as (Hhead & Hempty & Hmissing).
  split; [exact Hhead |]; split; [exact Hempty |]; split; [exact Hmissing |].
  eapply overview_country_token; eassumption.
Qed.

Lemma overview_country_is_a_token_witness :
  exists out rows ev,
    overview Cases.short_names = Ok {| output := out |} /\
    prop out "leaderboard" = VArr rows /\
    column "country" rows = [VStr "USA"; VStr "N/A"; VStr "ENG"; VStr "N/A"] /\
    first_event Cases.short_names pga_events_url ev /\
    forall i r,
      nth_error rows i = Some r ->
      exists c,
        nth_error (arr (prop ev "competitors")) i = Some c /\
        (forall s, prop c "shortName" = VStr s -> before_dot s <> EmptyString ->
                   prop r "country" = VStr (before_dot s)) /\
        (forall s, prop c "shortName" = VStr s -> before_dot s = EmptyString ->
                   prop r "country" = VStr "N/A") /\
        (nullish (prop c "shortName") = true -> prop r "country" = VStr "N/A") /\
        exists t, prop r "country" = VStr t /\ t <> EmptyString /\ includes "." t = false.
Proof.
  destruct (overview_country_is_a_token Cases.short_names _ _ eq_refl eq_refl)
    as (ev & Hev & Hrows).
  eexists; eexists; exists ev.
  split; [reflexivity |]; split; [reflexivity |]; split; [reflexivity |].
  split; [exact Hev | exact Hrows].
Defined.

(** ** The lookup of player-scorecard *)

Lemma has_id_null (playerId : string) (c : value) :
  nullish c = true -> has_id playerId c = Throw TypeError.
Proof. intros H; unfold has_id, get; rewrite H; reflexivity. Qed.

Lemma has_id_present (playerId : string) (c : value) :
  present c = true -> has_id playerId c = Ok (is_player playerId c).
Proof.
  intros H; unfold has_id; rewrite (get_present _ _ (present_nullish _ H)); reflexivity.
Qed.

(** [find] returns the first match and reads nothing after it. *)
Lemma find_first_stops (playerId : string) (before after : list value) (player : value) :
  forallb present before = true ->
  forallb (fun c => negb (is_player playerId c)) before = true ->
  is_player playerId player = true ->
  find_first (has_id playerId) (before ++ player :: after) = Ok player.
Proof.
  intros Hpresent Hnone Hid.
  pose proof (truthy_present _ (is_player_truthy _ _ Hid)) as Hpn.
  induction before as [| c before IH]; simpl in *.
  - unfold has_id; rewrite (get_present _ _ Hpn); cbn [bind].
    fold (is_player playerId player); rewrite Hid; reflexivity.
  - apply andb_true_iff in Hpresent; destruct Hpresent as [Hc Hrest].
    apply andb_true_iff in Hnone; destruct Hnone as [Hn Hnrest].
    rewrite (has_id_present _ _ Hc); cbn [bind].
    apply negb_true_iff in Hn; rewrite Hn; exact (IH Hrest Hnrest).
Qed.

(** [find] fails at a [null] entry that comes before any match. *)
Lemma find_first_null (playerId : string) (before after : list value) (gap : value) :
  forallb present before = true ->
  forallb (fun c => negb (is_player playerId c)) before = true ->
  nullish gap = true ->
  find_first (has_id playerId) (before ++ gap :: after) = Throw TypeError.
Proof.
  intros Hpresent Hnone Hgap.
  induction before as [| c before IH]; simpl in *.
  - rewrite (has_id_null _ _ Hgap); reflexivity.
  - apply andb_true_iff in Hpresent; destruct Hpresent as [Hc Hrest].
    apply andb_true_iff in Hnone; destruct Hnone as [Hn Hnrest].
    rewrite (has_id_present _ _ Hc); cbn [bind].
    apply negb_true_iff in Hn; rewrite Hn; exact (IH Hrest Hnrest).
Qed.

(** The handler up to the lookup, once the event and scoreboard are known. *)
Lemma player_scorecard_lookup (w : world) (ev : value) (cs : list value)
    (playerId : string) :
  pga_scoreboard w ev cs ->
  (forall e, find_first (has_id playerId) cs = Throw e ->
             player_scorecard w playerId = Throw e) /\
  (forall player,
      find_first (has_id playerId) cs = Ok player ->
      truthy player = false ->
      player_scorecard w playerId =
        (hints <- mapi_from hint_row 0 (slice_list 10 cs) ;;
         Ok {| output := VObj [("error", VStr "Player not found in current tournament");
                               ("availablePlayers", VArr hints)] |})) /\
  (forall player,
      find_first (has_id playerId) cs = Ok player ->
      truthy player = true ->
      linescores_ok player = true ->
      exists name rounds,
        player_scorecard w playerId =
          Ok {| output :=
                  VObj [("tournament", prop ev "name");
                        ("player",
                         VObj [("id", prop player "id");
                               ("name", name);
                               ("country",
                                js_or (opt_get (opt_get (prop player "athlete") "flag") "alt")
                                      (VStr "Unknown"));
                               ("totalScore", prop player "score")]);
                        ("rounds", VArr rounds);
                        ("fetchedAt", VStr (now w))] |} /\
        mapi_from round_row 0 (linescore_rounds player) = Ok rounds).
Proof.
  intros ((data & events & Hdata & Hevents & Hev) & Htruthy & scoreboard & Hsb & Hcs).
  pose proof (truthy_present _ Htruthy) as Hnn.
  unfold pga_events_url in Hdata; unfold event_scoreboard_url in Hsb.
  split; [| split].
  - intros e Hfind.
    unfold player_scorecard; rewrite Hdata; cbn [bind]; rewrite Hevents; cbn [bind].
    rewrite Hev, Htruthy; cbn [negb].
    unfold scoreboard_url; rewrite (get_present _ _ Hnn); cbn [bind].
    rewrite Hsb; cbn [bind]; rewrite Hcs; cbn [bind call_find].
    rewrite Hfind; reflexivity.
  - intros player Hfind Hfalsy.
    unfold player_scorecard; rewrite Hdata; cbn [bind]; rewrite Hevents; cbn [bind].
    rewrite Hev, Htruthy; cbn [negb].
    unfold scoreboard_url; rewrite (get_present _ _ Hnn); cbn [bind].
    rewrite Hsb; cbn [bind]; rewrite Hcs; cbn [bind call_find].
    rewrite Hfind; cbn [bind]; rewrite Hfalsy; cbn [negb call_slice bind call_map].
    destruct (mapi_from hint_row 0 (slice_list 10 cs)); reflexivity.
  - intros player Hfind Hpt Hls.
    pose proof (truthy_present _ Hpt) as Hpn.
    destruct (rounds_of_player player Hls) as (Hor & Hrounds).
    destruct (mapi_from_total round_row round_ok round_row_total
                (linescore_rounds player) 0 Hrounds) as (rounds & Hrows).
    unfold player_scorecard; rewrite Hdata; cbn [bind]; rewrite Hevents; cbn [bind].
    rewrite Hev, Htruthy; cbn [negb].
    unfold scoreboard_url; rewrite (get_present _ _ Hnn); cbn [bind].
    rewrite Hsb; cbn [bind]; rewrite Hcs; cbn [bind call_find].
    rewrite Hfind; cbn [bind]; rewrite Hpt; cbn [negb].
    rewrite !(get_present _ _ Hpn), (get_present _ _ Hnn); cbn [bind].
    rewrite Hor; cbn [call_map bind]; rewrite Hrows; cbn [bind].
    unfold or_else.
    destruct (truthy (opt_get (prop player "athlete") "displayName")); cbn [bind];
      eexists; exists rounds; (split; reflexivity).
Qed.

Lemma is_player_id (playerId : string) (c : value) :
  is_player playerId c = true -> prop c "id" = VStr playerId.
Proof.
  unfold is_player; destruct (prop c "id"); simpl; intros H; try discriminate H.
  apply String.eqb_eq in H; subst; reflexivity.
Qed.

(** X10: player-scorecard answers from the first competitor whose id is
    the requested one and reads no entry after it: the reply is that
    player's scorecard whatever follows in the list, [null] entries
    included. *)
Theorem scorecard_lookup_stops_at_first_match
    (w : world) (ev : value) (before after : list value) (player : value)
    (playerId : string) :
  pga_scoreboard w ev (before ++ player :: after) ->
  forallb present before = true ->
  forallb (fun c => negb (is_player playerId c)) before = true ->
  is_player playerId player = true ->
  linescores_ok player = true ->
  exists out rounds,
    player_scorecard w playerId = Ok {| output := out |} /\
    prop (prop out "player") "id" = VStr playerId /\
    prop (prop out "player") "totalScore" = prop player "score" /\
    prop out "tournament" = prop ev "name" /\
    prop out "rounds" = VArr rounds /\
    List.length rounds = List.length (linescore_rounds player).
Proof.
  intros Hup Hpresent Hnone Hid Hls.
  destruct (player_scorecard_lookup w ev _ playerId Hup) as (_ & _ & Hfound).
  destruct (Hfound player (find_first_stops _ _ _ _ Hpresent Hnone Hid)
              (is_player_truthy _ _ Hid) Hls) as (name & rounds & Hrun & Hrows).
  eexists; exists rounds; split; [exact Hrun |].
  simpl; rewrite (is_player_id _ _ Hid).
  repeat split; try reflexivity.
  exact (mapi_from_length _ _ _ _ Hrows).
Qed.

Lemma scorecard_lookup_stops_at_first_match_witness :
  exists out rounds,
    player_scorecard Cases.gapped "502" = Ok {| output := out |} /\
    prop (prop out "player") "id" = VStr "502" /\
    prop (prop out "player") "totalScore" = VStr "-3" /\
    prop out "tournament" = VStr "Gapped" /\
    prop out "rounds" = VArr rounds /\
    List.length rounds = 2%nat.
Proof.
  apply (scorecard_lookup_stops_at_first_match
           Cases.gapped Cases.gapped_event
           [Sample.competitor 1]
           [Sample.competitor 3; VNull; Sample.competitor 5; Sample.competitor 6]
           (Sample.competitor 2) "502");
    [exact gapped_pga_scoreboard | reflexivity | reflexivity | reflexivity | reflexivity].
Defined.

(** X11: a [null] entry that comes before any match makes player-scorecard
    fail with a [TypeError]; this is so for an id that would be found
    further on and for an id that is nowhere in the list. *)
Theorem scorecard_null_before_match_fails
    (w : world) (ev : value) (before after : list value) (gap : value)
    (playerId : string) :
  pga_scoreboard w ev (before ++ gap :: after) ->
  forallb present before = true ->
  forallb (fun c => negb (is_player playerId c)) before = true ->
  nullish gap = true ->
  player_scorecard w playerId = Throw TypeError.
Proof.
  intros Hup Hpresent Hnone Hgap.
  destruct (player_scorecard_lookup w ev _ playerId Hup) as (Hfail & _).
  apply Hfail; apply find_first_null; assumption.
Qed.

Lemma scorecard_null_before_match_fails_witness :
  player_scorecard Cases.gapped "505" = Throw TypeError /\
  player_scorecard Cases.gapped "999" = Throw TypeError.
Proof.
  split.
  - apply (scorecard_null_before_match_fails
             Cases.gapped Cases.gapped_event (Sample.field 3)
             [Sample.competitor 5; Sample.competitor 6] VNull "505");
      [exact gapped_pga_scoreboard | reflexivity | reflexivity | reflexivity].
  - apply (scorecard_null_before_match_fails
             Cases.gapped Cases.gapped_event (Sample.field 3)
             [Sample.competitor 5; Sample.competitor 6] VNull "999");
      [exact gapped_pga_scoreboard | reflexivity | reflexivity | reflexivity].
Defined.

Lemma find_none_of_numbers (playerId : string) (cs : list value) :
  forallb id_not_a_string cs = true -> find (is_player playerId) cs = None.
Proof.
  induction cs as [| c cs IH]; simpl; intros H; [reflexivity |].
  apply andb_true_iff in H; destruct H as [Hc Hcs].
  unfold is_player at 1; unfold id_not_a_string in Hc.
  destruct (prop c "id"); simpl; try discriminate Hc; exact (IH Hcs).
Qed.

(** A row field that is copied from an entry field gives equal columns. *)
Lemma mapi_from_column (f : value -> nat -> res value) (k k' : string) :
  (forall c i r, f c i = Ok r -> prop r k = prop c k') ->
  forall l n rows, mapi_from f n l = Ok rows -> column k rows = column k' l.
Proof.
  intros Hf l; induction l as [| c l IH]; intros n rows H; simpl in H.
  - inversion H; reflexivity.
  - apply bind_Ok in H; destruct H as (y & Hy & H).
    apply bind_Ok in H; destruct H as (ys & Hys & H).
    inversion H; subst rows; simpl; f_equal; [exact (Hf _ _ _ Hy) | exact (IH _ _ Hys)].
Qed.

Lemma hint_row_id (c : value) (i : nat) (r : value) :
  hint_row c i = Ok r -> prop r "id" = prop c "id".
Proof.
  unfold hint_row; intros H; invert_binds H.
  apply get_Ok in E; destruct E as (_ & ->).
  inversion H; reflexivity.
Qed.

(** X12: ids are compared with [===] against the requested string.  When
    the upstream ids are not strings (numbers, say), no request matches:
    every playerId gets the not-found reply, whose hints are the first
    min(10, m) competitors. *)
Theorem scorecard_ids_must_be_strings
    (w : world) (ev : value) (cs : list value) (playerId : string) :
  pga_scoreboard w ev cs ->
  forallb present cs = true ->
  forallb id_not_a_string cs = true ->
  exists hints,
    player_scorecard w playerId =
      Ok {| output := VObj [("error", VStr "Player not found in current tournament");
                            ("availablePlayers", VArr hints)] |} /\
    List.length hints = Nat.min 10 (List.length cs) /\
    column "id" hints = column "id" (firstn 10 cs).
Proof.
  intros Hup Hpresent Hids.
  destruct (player_scorecard_lookup w ev cs playerId Hup) as (_ & Hmiss & _).
  pose proof (find_first_has_id playerId cs Hpresent) as Hfind.
  rewrite (find_none_of_numbers playerId cs Hids) in Hfind.
  rewrite (Hmiss VUndefined Hfind eq_refl).
  destruct (mapi_from_total hint_row present hint_row_total
              (slice_list 10 cs) 0 (forallb_slice _ _ _ Hpresent)) as (hints & Hhints).
  exists hints; rewrite Hhints; split; [reflexivity |].
  split.
  - rewrite (mapi_from_length _ _ _ _ Hhints); apply slice_list_ten_length.
  - rewrite slice_list_nonneg in Hhints by lia.
    exact (mapi_from_column hint_row "id" "id" hint_row_id _ 0 hints Hhints).
Qed.

Lemma numeric_ids_pga_scoreboard :
  pga_scoreboard Cases.numeric_ids Sample.open Cases.numbered_field.
Proof.
  split; [| split].
  - exists (VObj [("events", VArr [Sample.open])]), (VArr [Sample.open]).
    repeat split; reflexivity.
  - reflexivity.
  - exists (Sample.event_scoreboard Cases.numbered_field); split; reflexivity.
Qed.

Lemma scorecard_ids_must_be_strings_witness :
  exists hints,
    player_scorecard Cases.numeric_ids "501" =
      Ok {| output := VObj [("error", VStr "Player not found in current tournament");
                            ("availablePlayers", VArr hints)] |} /\
    List.length hints = 4%nat /\
    column "id" hints = [VNum 501; VNum 502; VNum 503; VNum 504].
Proof.
  apply (scorecard_ids_must_be_strings
           Cases.numeric_ids Sample.open Cases.numbered_field "501");
    [exact numeric_ids_pga_scoreboard | reflexivity | reflexivity].
Defined.

(** ** Every reply of player-scorecard *)

Lemma find_first_Ok (playerId : string) (l : list value) (p : value) :
  find_first (has_id playerId) l = Ok p ->
  truthy p = true ->
  is_player playerId p = true /\ In p l.
Proof.
  induction l as [| c l IH]; simpl; intros H Hp.
  - inversion H; subst p; discriminate Hp.
  - apply bind_Ok in H; destruct H as (b & Hb & H).
    unfold has_id in Hb; apply bind_Ok in Hb; destruct Hb as (id & Hid & Hb).
    apply get_Ok in Hid; destruct Hid as (_ & ->).
    inversion Hb; subst b; clear Hb.
    fold (is_player playerId c) in H.
    destruct (is_player playerId c) eqn:Hc.
    + inversion H; subst p; split; [exact Hc | left; reflexivity].
    + destruct (IH H Hp) as (Hid & Hin); split; [exact Hid | right; exact Hin].
Qed.

(** What [(v || []).map(...)] can produce. *)
Lemma or_empty_then_mapped (row : value -> nat -> res value) (v out : value) :
  call_map row (js_or v (VArr [])) = Ok out ->
  exists rows, out = VArr rows /\ mapi_from row 0 (arr v) = Ok rows.
Proof.
  unfold js_or; destruct v as [| | b | n | s | l | fs]; simpl; intros H;
    try discriminate H;
    try (inversion H; subst; exists []; split; reflexivity).
  - destruct b; simpl in H; [discriminate H |].
    inversion H; subst; exists []; split; reflexivity.
  - destruct (negb (n =? 0)%Z); simpl in H; [discriminate H |].
    inversion H; subst; exists []; split; reflexivity.
  - destruct (negb (s =? EmptyString)%string); simpl in H; [discriminate H |].
    inversion H; subst; exists []; split; reflexivity.
  - apply call_map_rows; exact H.
Qed.

Lemma find_first_is_find (playerId : string) (l : list value) (p : value) :
  find_first (has_id playerId) l = Ok p ->
  truthy p = true ->
  find (is_player playerId) l = Some p.
Proof.
  induction l as [| c l IH]; simpl; intros H Hp.
  - inversion H; subst p; discriminate Hp.
  - apply bind_Ok in H; destruct H as (b & Hb & H).
    unfold has_id in Hb; apply bind_Ok in Hb; destruct Hb as (id & Hid & Hb).
    apply get_Ok in Hid; destruct Hid as (_ & ->).
    inversion Hb; subst b; clear Hb.
    fold (is_player playerId c) in H.
    destruct (is_player playerId c) eqn:Hc.
    + inversion H; reflexivity.
    + exact (IH H Hp).
Qed.

Lemma player_scorecard_shape (w : world) (playerId : string) (out : value) :
  player_scorecard w playerId = Ok {| output := out |} ->
  out = VObj [("error", VStr "No active tournament")] \/
  (exists ev cs hints,
      pga_scoreboard w ev cs /\
      out = VObj [("error", VStr "Player not found in current tournament");
                  ("availablePlayers", VArr hints)] /\
      mapi_from hint_row 0 (slice_list 10 cs) = Ok hints) \/
  (exists ev cs player tournament card rounds,
      pga_scoreboard w ev cs /\
      find (is_player playerId) cs = Some player /\
      is_player playerId player = true /\
      out = VObj [("tournament", tournament);
                  ("player", card);
                  ("rounds", VArr rounds);
                  ("fetchedAt", VStr (now w))] /\
      prop card "id" = VStr playerId /\
      mapi_from round_row 0 (linescore_rounds player) = Ok rounds).
Proof.
  unfold player_scorecard; intros H; invert_binds H.
  destruct (truthy (opt_idx x0 0)) eqn:Htruthy; cbn [negb] in H.
  - invert_binds H.
    apply scoreboard_url_Ok in E1; subst x1.
    assert (Hup : forall cs, x3 = VArr cs -> pga_scoreboard w (opt_idx x0 0) cs).
    { intros cs ->; split; [exists x, x0; repeat split; assumption |].
      split; [exact Htruthy |]; exists x2; split; assumption. }
    destruct (truthy x4) eqn:Hpt; cbn [negb] in H.
    + right; right; invert_binds H; inversion H; subst out; clear H.
      destruct x3 as [| | | | | cs |]; simpl in E4; try discriminate E4.
      destruct (find_first_Ok _ _ _ E4 Hpt) as (Hid & _).
      apply get_Ok in E1; destruct E1 as (_ & ->).
      apply get_Ok in E6; destruct E6 as (_ & ->).
      destruct (or_empty_then_mapped _ _ _ E10) as (rounds & -> & Hrounds).
      exists (opt_idx x0 0), cs, x4; eexists; eexists; exists rounds.
      split; [exact (Hup cs eq_refl) |].
      split; [exact (find_first_is_find _ _ _ E4 Hpt) |].
      split; [exact Hid |]; split; [reflexivity |].
      split; [simpl; apply is_player_id; exact Hid | exact Hrounds].
    + right; left; invert_binds H; inversion H; subst out; clear H.
      destruct (slice_then_map _ _ _ _ _ E1 E5) as (cs & hints & Hcs & -> & Hhints).
      exists (opt_idx x0 0), cs, hints.
      split; [exact (Hup cs Hcs) |]; split; [reflexivity | exact Hhints].
  - left; inversion H; reflexivity.
Qed.

Lemma round_row_shape (round : value) (i : nat) (r : value) :
  round_row round i = Ok r ->
  prop r "round" = VNum (Z.of_nat (S i)) /\
  prop r "score" = prop round "displayValue" /\
  exists holes, prop r "holes" = VArr holes /\
                List.length holes = List.length (round_holes round).
Proof.
  unfold round_row, round_holes; intros H; invert_binds H.
  apply get_Ok in E; destruct E as (_ & ->).
  apply get_Ok in E0; destruct E0 as (_ & ->).
  inversion H; subst r; clear H; simpl.
  split; [f_equal; lia |]; split; [reflexivity |].
  unfold opt_call in E1.
  destruct (prop round "linescores") as [| | b | n | s | l | fs]; simpl in E1;
    try discriminate E1;
    try (inversion E1; subst; exists []; split; reflexivity).
  invert_binds E1; inversion E1; subst; simpl.
  exists x; split; [reflexivity | exact (mapi_from_length _ _ _ _ E)].
Qed.

Lemma round_row_number (round : value) (i : nat) (r : value) :
  round_row round i = Ok r -> prop r "round" = VNum (Z.of_nat (S i)).
Proof. intros H; destruct (round_row_shape _ _ _ H) as (Hn & _); exact Hn. Qed.

Lemma mapi_from_numbers (f : value -> nat -> res value) (k : string) :
  (forall c i r, f c i = Ok r -> prop r k = VNum (Z.of_nat (S i))) ->
  forall l n rows, mapi_from f n l = Ok rows ->
                   column k rows = map (fun i => VNum (Z.of_nat i)) (seq (S n) (List.length rows)).
Proof.
  intros Hf l; induction l as [| c l IH]; intros n rows H; simpl in H.
  - inversion H; reflexivity.
  - apply bind_Ok in H; destruct H as (y & Hy & H).
    apply bind_Ok in H; destruct H as (ys & Hys & H).
    inversion H; subst rows; simpl; f_equal; [exact (Hf _ _ _ Hy) | exact (IH _ _ Hys)].
Qed.

(** X13: in every reply of player-scorecard that has rounds, the rounds are
    those of the first competitor of the event's scoreboard whose id is
    the requested one: one per round of that player's line score, in
    order, numbered 1, 2, ..., N, each with the round's display score and
    one hole entry per upstream hole (none when the round has no hole
    list). *)
Theorem scorecard_rounds_follow_line_score
    (w : world) (playerId : string) (out : value) (rounds : list value) :
  player_scorecard w playerId = Ok {| output := out |} ->
  prop out "rounds" = VArr rounds ->
  column "round" rounds = one_to (List.length rounds) /\
  exists ev cs player,
    pga_scoreboard w ev cs /\
    find (is_player playerId) cs = Some player /\
    List.length rounds = List.length (linescore_rounds player) /\
    forall i r,
      nth_error rounds i = Some r ->
      exists round holes,
        nth_error (linescore_rounds player) i = Some round /\
        prop r "score" = prop round "displayValue" /\
        prop r "holes" = VArr holes /\
        List.length holes = List.length (round_holes round).
Proof.
  intros Hrun Hrounds.
  destruct (player_scorecard_shape w playerId out Hrun)
    as [-> | [(ev & cs & hints & _ & -> & _)
             | (ev & cs & player & t & card & rounds' & Hup & Hfind & _ & -> & _ & Hrows)]];
    try discriminate Hrounds.
  simpl in Hrounds; inversion Hrounds; subst rounds'; clear Hrounds.
  split; [exact (mapi_from_numbers round_row "round" round_row_number _ 0 rounds Hrows) |].
  exists ev, cs, player; split; [exact Hup |]; split; [exact Hfind |].
  split; [exact (mapi_from_length _ _ _ _ Hrows) |].
  intros i r Hr.
  destruct (mapi_from_nth _ _ _ _ Hrows i r Hr) as (round & Hround & Hrow).
  destruct (round_row_shape _ _ _ Hrow) as (_ & Hscore & holes & Hholes & Hlen).
  exists round, holes; repeat split; assumption.
Qed.

Lemma scorecard_rounds_follow_line_score_witness :
  exists out rounds,
    player_scorecard Sample.live "503" = Ok {| output := out |} /\
    prop out "rounds" = VArr rounds /\
    column "round" rounds = [VNum 1; VNum 2] /\
    column "round" rounds = one_to (List.length rounds) /\
    exists ev cs player,
      pga_scoreboard Sample.live ev cs /\
      find (is_player "503") cs = Some player /\
      List.length rounds = List.length (linescore_rounds player) /\
      forall i r,
        nth_error rounds i = Some r ->
        exists round holes,
          nth_error (linescore_rounds player) i = Some round /\
          prop r "score" = prop round "displayValue" /\
          prop r "holes" = VArr holes /\
          List.length holes = List.length (round_holes round).
Proof.
  eexists; eexists.
  split; [vm_compute; reflexivity |].
  split; [vm_compute; reflexivity |].
  split; [reflexivity |].
  eapply (scorecard_rounds_follow_line_score Sample.live "503"); vm_compute; reflexivity.
Defined.

(** X14: a reply of player-scorecard is of one of two kinds.  Either it has
    an [error] field and no rounds, and then its hint list, when it has
    one, holds at most 10 entries; or it has no [error] field, and then it
    has rounds, no hint list, a timestamp, and the requested id as the
    player's id. *)
Theorem scorecard_reply_kinds (w : world) (playerId : string) (out : value) :
  player_scorecard w playerId = Ok {| output := out |} ->
  (has_field "error" out = true /\
   prop out "rounds" = VUndefined /\
   forall hints, prop out "availablePlayers" = VArr hints ->
                 (List.length hints <= 10)%nat) \/
  (has_field "error" out = false /\
   prop out "availablePlayers" = VUndefined /\
   prop out "fetchedAt" = VStr (now w) /\
   prop (prop out "player") "id" = VStr playerId /\
   exists rounds, prop out "rounds" = VArr rounds).
Proof.
  intros Hrun.
  destruct (player_scorecard_shape w playerId out Hrun)
    as [-> | [(ev & cs & hints & _ & -> & Hhints)
             | (ev & cs & player & t & card & rounds & _ & _ & Hid & -> & Hcard & _)]].
  - left; repeat split; try reflexivity.
    simpl; intros hints H; discriminate H.
  - left; repeat split; try reflexivity.
    simpl; intros hints' H; inversion H; subst hints'.
    rewrite (mapi_from_length _ _ _ _ Hhints), slice_list_ten_length.
    apply Nat.le_min_l.
  - right; repeat split; try reflexivity; [exact Hcard |].
    exists rounds; reflexivity.
Qed.

Lemma scorecard_reply_kinds_witness :
  (exists out,
      player_scorecard Sample.live "999" = Ok {| output := out |} /\
      has_field "error" out = true /\
      prop out "rounds" = VUndefined /\
      forall hints, prop out "availablePlayers" = VArr hints ->
                    (List.length hints <= 10)%nat) /\
  (exists out,
      player_scorecard Sample.live "503" = Ok {| output := out |} /\
      has_field "error" out = false /\
      prop out "availablePlayers" = VUndefined /\
      prop out "fetchedAt" = VStr Sample.stamp /\
      prop (prop out "player") "id" = VStr "503" /\
      exists rounds, prop out "rounds" = VArr rounds).
Proof.
  split.
  - eexists; split; [vm_compute; reflexivity |].
    destruct (scorecard_reply_kinds Sample.live "999" _ eq_refl) as [H | (H & _)];
      [exact H | discriminate H].
  - eexists; split; [vm_compute; reflexivity |].
    destruct (scorecard_reply_kinds Sample.live "503" _ eq_refl) as [(H & _) | H];
      [discriminate H | exact H].
Defined.

(** ** Every reply of full-report *)

Lemma tour_section_shape (ev sec : value) :
  tour_section ev = Ok sec ->
  (truthy ev = false /\ sec = VNull) \/
  (truthy ev = true /\
   exists top,
     sec = VObj [("tournament", prop ev "name");
                 ("status", opt_get (opt_get (prop ev "fullStatus") "type") "description");
                 ("round", opt_get (prop ev "fullStatus") "displayPeriod");
                 ("topPlayers", VArr top)] /\
     mapi_from top_row 0 (slice_list 10 (arr (prop ev "competitors"))) = Ok top).
Proof.
  unfold tour_section; destruct (truthy ev) eqn:Hev; intros H.
  - right; split; [reflexivity |].
    invert_binds H; inversion H; subst sec; clear H.
    apply get_Ok in E; destruct E as (_ & ->).
    apply get_Ok in E0; destruct E0 as (_ & ->).
    destruct (top_players_rows _ _ E1) as (top & -> & Htop).
    exists top; split; [reflexivity | exact Htop].
  - left; inversion H; split; reflexivity.
Qed.

Lemma full_report_shape (w : world) (out : value) :
  full_report w = Ok {| output := out |} ->
  exists pgaEvent lpgaEvent leagues pga lpga upcoming,
    first_event w pga_events_url pgaEvent /\
    first_event w lpga_events_url lpgaEvent /\
    schedule_call w leagues /\
    tour_section pgaEvent = Ok pga /\
    tour_section lpgaEvent = Ok lpga /\
    mapi_from upcoming_row 0 (slice_list 5 (arr (calendar_of leagues))) = Ok upcoming /\
    out = VObj [("pga", pga);
                ("lpga", lpga);
                ("upcomingPGA", VArr upcoming);
                ("generatedAt", VStr (now w))].
Proof.
  unfold full_report; intros H; invert_binds H.
  destruct x as [[pgaEvents lpgaEvents] pgaScoreboard].
  apply promise_all3_Ok in E; destruct E as (Hpga & Hlpga & Hsb).
  invert_binds H; inversion H; subst out; clear H.
  destruct (sliced_then_mapped _ _ _ _ _ E2 E5) as (upcoming & -> & Hup).
  exists (opt_idx x 0), (opt_idx x0 0), x1, x3, x4, upcoming.
  split; [exists pgaEvents, x; repeat split; assumption |].
  split; [exists lpgaEvents, x0; repeat split; assumption |].
  split; [exists pgaScoreboard; split; assumption |].
  repeat split; assumption.
Qed.

Lemma first_event_unique (w : world) (url : string) (ev ev' : value) :
  first_event w url ev -> first_event w url ev' -> ev = ev'.
Proof.
  intros (d & es & Hd & He & <-) (d' & es' & Hd' & He' & <-).
  rewrite Hd in Hd'; inversion Hd'; subst d'.
  rewrite He in He'; inversion He'; reflexivity.
Qed.

(** X15: the two tour sections of full-report are null independently of
    each other.  In every reply, [pga] is [null] exactly when the PGA
    event list has no (truthy) first event, and likewise [lpga]; a section
    that is not [null] carries the name of its tour's first event and at
    most 10 top players. *)
Theorem full_report_sections_are_independent (w : world) (out : value) :
  full_report w = Ok {| output := out |} ->
  exists pgaEvent lpgaEvent,
    first_event w pga_events_url pgaEvent /\
    first_event w lpga_events_url lpgaEvent /\
    (prop out "pga" = VNull <-> truthy pgaEvent = false) /\
    (prop out "lpga" = VNull <-> truthy lpgaEvent = false) /\
    (truthy pgaEvent = true ->
     prop (prop out "pga") "tournament" = prop pgaEvent "name" /\
     exists top, prop (prop out "pga") "topPlayers" = VArr top /\ (List.length top <= 10)%nat) /\
    (truthy lpgaEvent = true ->
     prop (prop out "lpga") "tournament" = prop lpgaEvent "name" /\
     exists top, prop (prop out "lpga") "topPlayers" = VArr top /\ (List.length top <= 10)%nat).
Proof.
  intros Hrun.
  destruct (full_report_shape w out Hrun)
    as (pgaEvent & lpgaEvent & leagues & pga & lpga & upcoming
        & Hp & Hl & _ & Hps & Hls & _ & ->).
  exists pgaEvent, lpgaEvent; split; [exact Hp |]; split; [exact Hl |].
  assert (Hsec : forall ev sec,
             tour_section ev = Ok sec ->
             (sec = VNull <-> truthy ev = false) /\
             (truthy ev = true ->
              prop sec "tournament" = prop ev "name" /\
              exists top, prop sec "topPlayers" = VArr top /\ (List.length top <= 10)%nat)).
  { intros ev sec Hsec.
    destruct (tour_section_shape ev sec Hsec) as [(Hf & ->) | (Ht & top & -> & Htop)].
    - split; [split; intros _; [exact Hf | reflexivity] |].
      intros Habs; rewrite Hf in Habs; discriminate Habs.
    - split; [split; intros Habs; [discriminate Habs | rewrite Ht in Habs; discriminate Habs] |].
      intros _; split; [reflexivity |].
      exists top; split; [reflexivity |].
      rewrite (mapi_from_length _ _ _ _ Htop), slice_list_ten_length.
      apply Nat.le_min_l. }
  destruct (Hsec _ _ Hps) as (Hpn & Hpt).
  destruct (Hsec _ _ Hls) as (Hln & Hlt).
  simpl; split; [exact Hpn | split; [exact Hln | split; [exact Hpt | exact Hlt]]].
Qed.

Lemma full_report_sections_are_independent_witness :
  (exists out, full_report Cases.pga_off = Ok {| output := out |} /\
               prop out "pga" = VNull /\
               prop (prop out "lpga") "tournament" = VStr "Women's Open") /\
  (exists out pgaEvent lpgaEvent,
      full_report Cases.pga_off = Ok {| output := out |} /\
      first_event Cases.pga_off pga_events_url pgaEvent /\
      first_event Cases.pga_off lpga_events_url lpgaEvent /\
      (prop out "pga" = VNull <-> truthy pgaEvent = false) /\
      (prop out "lpga" = VNull <-> truthy lpgaEvent = false) /\
      (truthy pgaEvent = true ->
       prop (prop out "pga") "tournament" = prop pgaEvent "name" /\
       exists top, prop (prop out "pga") "topPlayers" = VArr top /\
                   (List.length top <= 10)%nat) /\
      (truthy lpgaEvent = true ->
       prop (prop out "lpga") "tournament" = prop lpgaEvent "name" /\
       exists top, prop (prop out "lpga") "topPlayers" = VArr top /\
                   (List.length top <= 10)%nat)).
Proof.
  split.
  - eexists; split; [vm_compute; reflexivity |]; split; reflexivity.
  - eexists.
    destruct (full_report_sections_are_independent Cases.pga_off _ eq_refl)
      as (pgaEvent & lpgaEvent & H).
    exists pgaEvent, lpgaEvent; split; [reflexivity | exact H].
Defined.

Lemma upcoming_row_fields (e : value) (i : nat) (r : value) :
  upcoming_row e i = Ok r ->
  prop r "name" = prop e "label" /\ prop r "startDate" = prop e "startDate".
Proof.
  unfold upcoming_row; intros H; invert_binds H.
  apply get_Ok in E; destruct E as (_ & ->).
  apply get_Ok in E0; destruct E0 as (_ & ->).
  inversion H; split; reflexivity.
Qed.

(** X16: the schedule of full-report.  In every reply [upcomingPGA] holds
    at most 5 entries: the first entries of the calendar, in calendar
    order, each with the entry's label as name and its start date
    unchanged. *)
Theorem full_report_schedule_is_calendar_head (w : world) (out : value) :
  full_report w = Ok {| output := out |} ->
  exists leagues upcoming,
    schedule_call w leagues /\
    prop out "upcomingPGA" = VArr upcoming /\
    (List.length upcoming <= 5)%nat /\
    List.length upcoming = Nat.min 5 (List.length (arr (calendar_of leagues))) /\
    column "name" upcoming = column "label" (firstn 5 (arr (calendar_of leagues))) /\
    column "startDate" upcoming = column "startDate" (firstn 5 (arr (calendar_of leagues))).
Proof.
  intros Hrun.
  destruct (full_report_shape w out Hrun)
    as (pgaEvent & lpgaEvent & leagues & pga & lpga & upcoming
        & _ & _ & Hcall & _ & _ & Hup & ->).
  exists leagues, upcoming; split; [exact Hcall |]; split; [reflexivity |].
  assert (Hlen : List.length upcoming = Nat.min 5 (List.length (arr (calendar_of leagues)))).
  { rewrite (mapi_from_length _ _ _ _ Hup), slice_list_length.
    apply slice_count_nonneg; lia. }
  split; [rewrite Hlen; apply Nat.le_min_l |]; split; [exact Hlen |].
  rewrite slice_list_nonneg in Hup by lia.
  change (Z.to_nat 5) with 5%nat in Hup.
  split.
  - refine (mapi_from_column upcoming_row "name" "label" _ _ 0 upcoming Hup).
    intros c i r Hr; apply (upcoming_row_fields _ _ _ Hr).
  - refine (mapi_from_column upcoming_row "startDate" "startDate" _ _ 0 upcoming Hup).
    intros c i r Hr; apply (upcoming_row_fields _ _ _ Hr).
Qed.

Lemma full_report_schedule_is_calendar_head_witness :
  exists out leagues upcoming,
    full_report Sample.live = Ok {| output := out |} /\
    schedule_call Sample.live leagues /\
    prop out "upcomingPGA" = VArr upcoming /\
    (List.length upcoming <= 5)%nat /\
    List.length upcoming = Nat.min 5 (List.length (arr (calendar_of leagues))) /\
    column "name" upcoming = column "label" (firstn 5 (arr (calendar_of leagues))) /\
    column "startDate" upcoming = column "startDate" (firstn 5 (arr (calendar_of leagues))).
Proof.
  eexists.
  destruct (full_report_schedule_is_calendar_head Sample.live _ eq_refl)
    as (leagues & upcoming & H).
  exists leagues, upcoming; split; [reflexivity | exact H].
Defined.

(** ** overview and full-report agree *)

Lemma overview_shape (w : world) (out : value) :
  overview w = Ok {| output := out |} ->
  exists ev,
    first_event w pga_events_url ev /\
    ((truthy ev = false /\
      out = VObj [("message", VStr "No active tournament"); ("fetchedAt", VStr (now w))]) \/
     (truthy ev = true /\
      exists rows,
        mapi_from overview_row 0 (slice_list 10 (arr (prop ev "competitors"))) = Ok rows /\
        out = VObj [("tournament", prop ev "name");
                    ("status",
                     js_or (opt_get (opt_get (prop ev "fullStatus") "type") "description")
                           (VStr "Unknown"));
                    ("round", js_or (opt_get (prop ev "fullStatus") "displayPeriod") (VStr "N/A"));
                    ("leaderboard", VArr rows);
                    ("fetchedAt", VStr (now w));
                    ("dataSource", VStr "ESPN Golf API (live)")])).
Proof.
  unfold overview; intros H; invert_binds H.
  exists (opt_idx x0 0); split; [exists x, x0; repeat split; assumption |].
  destruct (truthy (opt_idx x0 0)); cbn [negb] in H.
  - right; split; [reflexivity |].
    invert_binds H; inversion H; subst out; clear H.
    apply get_Ok in E1; destruct E1 as (_ & ->).
    apply get_Ok in E3; destruct E3 as (_ & ->).
    apply get_Ok in E4; destruct E4 as (_ & ->).
    destruct (sliced_then_mapped _ _ _ _ _ E2 E5) as (rows & -> & Hrows).
    exists rows; split; [exact Hrows | reflexivity].
  - left; split; [reflexivity |]; inversion H; reflexivity.
Qed.

Lemma overview_row_fields (c : value) (i : nat) (r : value) :
  overview_row c i = Ok r ->
  prop r "name" = prop c "displayName" /\ prop r "score" = prop c "score".
Proof.
  unfold overview_row; intros H; invert_binds H.
  apply get_Ok in E; destruct E as (_ & ->).
  apply get_Ok in E0; destruct E0 as (_ & ->).
  inversion H; split; reflexivity.
Qed.

Lemma top_row_fields (c : value) (i : nat) (r : value) :
  top_row c i = Ok r ->
  prop r "name" = prop c "displayName" /\ prop r "score" = prop c "score".
Proof.
  unfold top_row; intros H; invert_binds H.
  apply get_Ok in E; destruct E as (_ & ->).
  apply get_Ok in E0; destruct E0 as (_ & ->).
  inversion H; split; reflexivity.
Qed.

(** X17: on the same upstream state overview and full-report tell the same
    story.  When overview returns a leaderboard and full-report replies,
    the [pga] section names the same tournament and its top players are
    the overview leaderboard row for row: same length, same positions,
    names and scores. *)
Theorem overview_and_full_report_agree
    (w : world) (brief report : value) (rows : list value) :
  overview w = Ok {| output := brief |} ->
  prop brief "leaderboard" = VArr rows ->
  full_report w = Ok {| output := report |} ->
  prop (prop report "pga") "tournament" = prop brief "tournament" /\
  exists top,
    prop (prop report "pga") "topPlayers" = VArr top /\
    List.length top = List.length rows /\
    positions top = positions rows /\
    column "name" top = column "name" rows /\
    column "score" top = column "score" rows.
Proof.
  intros Hbrief Hboard Hreport.
  destruct (overview_shape w brief Hbrief) as (ev & Hev & [(_ & ->) | (Ht & rows' & Hrows & ->)]);
    [discriminate Hboard |].
  simpl in Hboard; inversion Hboard; subst rows'; clear Hboard.
  destruct (full_report_shape w report Hreport)
    as (pgaEvent & lpgaEvent & leagues & pga & lpga & upcoming
        & Hp & _ & _ & Hps & _ & _ & ->).
  rewrite <- (first_event_unique _ _ _ _ Hev Hp) in Hps.
  destruct (tour_section_shape ev pga Hps) as [(Hf & _) | (_ & top & -> & Htop)];
    [rewrite Ht in Hf; discriminate Hf |].
  simpl; split; [reflexivity |].
  exists top; split; [reflexivity |].
  assert (Hlen : List.length top = List.length rows).
  { rewrite (mapi_from_length _ _ _ _ Htop), (mapi_from_length _ _ _ _ Hrows); reflexivity. }
  split; [exact Hlen |].
  split; [| split].
  - rewrite (mapi_from_positions top_row top_row_position _ 0 top Htop).
    rewrite (mapi_from_positions overview_row overview_row_position _ 0 rows Hrows).
    rewrite Hlen; reflexivity.
  - rewrite (mapi_from_column top_row "name" "displayName"
               (fun c i r H => proj1 (top_row_fields c i r H)) _ 0 top Htop).
    rewrite (mapi_from_column overview_row "name" "displayName"
               (fun c i r H => proj1 (overview_row_fields c i r H)) _ 0 rows Hrows).
    reflexivity.
  - rewrite (mapi_from_column top_row "score" "score"
               (fun c i r H => proj2 (top_row_fields c i r H)) _ 0 top Htop).
    rewrite (mapi_from_column overview_row "score" "score"
               (fun c i r H => proj2 (overview_row_fields c i r H)) _ 0 rows Hrows).
    reflexivity.
Qed.

Lemma overview_and_full_report_agree_witness :
  exists brief report rows top,
    overview Sample.live = Ok {| output := brief |} /\
    prop brief "leaderboard" = VArr rows /\
    full_report Sample.live = Ok {| output := report |} /\
    prop (prop report "pga") "tournament" = prop brief "tournament" /\
    prop (prop report "pga") "topPlayers" = VArr top /\
    List.length top = List.length rows /\
    positions top = positions rows /\
    column "name" top = column "name" rows /\
    column "score" top = column "score" rows.
Proof.
  destruct (overview_and_full_report_agree Sample.live _ _ _ eq_refl eq_refl eq_refl)
    as (Hname & top & Htop & H).
  eexists; eexists; eexists; exists top.
  split; [reflexivity |].
  split; [reflexivity |].
  split; [reflexivity |].
  split; [exact Hname |].
  split; [exact Htop | exact H].
Defined.

(** ** Every reply of pga-schedule *)

Lemma schedule_row_fields (e : value) (i : nat) (r : value) :
  schedule_row e i = Ok r ->
  prop r "id" = prop e "id" /\ prop r "name" = prop e "label" /\
  prop r "startDate" = prop e "startDate" /\ prop r "endDate" = prop e "endDate".
Proof.
  unfold schedule_row; intros H; invert_binds H.
  apply get_Ok in E; destruct E as (_ & ->).
  apply get_Ok in E0; destruct E0 as (_ & ->).
  apply get_Ok in E1; destruct E1 as (_ & ->).
  apply get_Ok in E2; destruct E2 as (_ & ->).
  inversion H; repeat split; reflexivity.
Qed.

(** What [(v || []).slice(0, e).map(...)] can produce. *)
Lemma or_empty_slice_then_map (row : value -> nat -> res value) (e : Z) (v sliced out : value) :
  call_slice e (js_or v (VArr [])) = Ok sliced ->
  call_map row sliced = Ok out ->
  exists rows, out = VArr rows /\ mapi_from row 0 (slice_list e (arr v)) = Ok rows.
Proof.
  intros Hs Hm.
  destruct (slice_then_map _ _ _ _ _ Hs Hm) as (l & rows & Hl & -> & Hrows).
  exists rows; split; [reflexivity |].
  assert (Harr : arr v = l).
  { unfold js_or in Hl; destruct v as [| | b | n | s | l' | fs]; simpl in Hl;
      try (inversion Hl; reflexivity).
    - destruct b; inversion Hl; reflexivity.
    - destruct (negb (n =? 0)%Z); inversion Hl; reflexivity.
    - destruct (negb (s =? EmptyString)%string); inversion Hl; reflexivity. }
  rewrite Harr; exact Hrows.
Qed.

(** X18: pga-schedule passes the calendar through.  Every reply lists the
    first entries of the calendar in calendar order, at most [limit] of
    them for a limit >= 0, each with the entry's [label] as name and its
    id, start date and end date unchanged; the reply has a timestamp and
    never an [error] field. *)
Theorem pga_schedule_passes_calendar_through (w : world) (limit : Z) (out : value) :
  pga_schedule w limit = Ok {| output := out |} ->
  exists leagues rows,
    schedule_call w leagues /\
    out = VObj [("season", opt_get (opt_get (opt_idx leagues 0) "season") "displayName");
                ("events", VArr rows);
                ("fetchedAt", VStr (now w))] /\
    column "id" rows = column "id" (slice_list limit (arr (calendar_of leagues))) /\
    column "name" rows = column "label" (slice_list limit (arr (calendar_of leagues))) /\
    column "startDate" rows = column "startDate" (slice_list limit (arr (calendar_of leagues))) /\
    column "endDate" rows = column "endDate" (slice_list limit (arr (calendar_of leagues))) /\
    ((0 <= limit)%Z -> (Z.of_nat (List.length rows) <= limit)%Z).
Proof.
  unfold pga_schedule; intros H; invert_binds H.
  inversion H; subst out; clear H.
  fold (calendar_of x0) in E1.
  destruct (or_empty_slice_then_map _ _ _ _ _ E1 E2) as (rows & -> & Hrows).
  exists x0, rows; split; [exists x; split; assumption |].
  split; [reflexivity |].
  split; [| split; [| split; [| split]]].
  - refine (mapi_from_column schedule_row "id" "id" _ _ 0 rows Hrows).
    intros c i r Hr; apply (schedule_row_fields _ _ _ Hr).
  - refine (mapi_from_column schedule_row "name" "label" _ _ 0 rows Hrows).
    intros c i r Hr; apply (schedule_row_fields _ _ _ Hr).
  - refine (mapi_from_column schedule_row "startDate" "startDate" _ _ 0 rows Hrows).
    intros c i r Hr; apply (schedule_row_fields _ _ _ Hr).
  - refine (mapi_from_column schedule_row "endDate" "endDate" _ _ 0 rows Hrows).
    intros c i r Hr; apply (schedule_row_fields _ _ _ Hr).
  - intros Hlimit.
    rewrite (mapi_from_length _ _ _ _ Hrows), slice_list_length.
    rewrite slice_count_nonneg by exact Hlimit; lia.
Qed.

Lemma pga_schedule_passes_calendar_through_witness :
  exists out leagues rows,
    pga_schedule Sample.live 2 = Ok {| output := out |} /\
    schedule_call Sample.live leagues /\
    out = VObj [("season", opt_get (opt_get (opt_idx leagues 0) "season") "displayName");
                ("events", VArr rows);
                ("fetchedAt", VStr Sample.stamp)] /\
    column "id" rows = column "id" (slice_list 2 (arr (calendar_of leagues))) /\
    column "name" rows = column "label" (slice_list 2 (arr (calendar_of leagues))) /\
    column "startDate" rows = column "startDate" (slice_list 2 (arr (calendar_of leagues))) /\
    column "endDate" rows = column "endDate" (slice_list 2 (arr (calendar_of leagues))) /\
    ((0 <= 2)%Z -> (Z.of_nat (List.length rows) <= 2)%Z).
Proof.
  eexists.
  destruct (pga_schedule_passes_calendar_through Sample.live 2 _ eq_refl)
    as (leagues & rows & H).
  exists leagues, rows; split; [reflexivity | exact H].
Defined.

(** ** analytics with a tracker *)

Lemma lookup_obj_set_same (k : string) (v : value) (fs : list (string * value)) :
  lookup k (obj_set k v fs) = v.
Proof.
  induction fs as [| [k' v'] fs IH]; simpl.
  - rewrite String.eqb_refl; reflexivity.
  - destruct (String.eqb_spec k k') as [-> | Hne]; simpl.
    + rewrite String.eqb_refl; reflexivity.
    + destruct (String.eqb_spec k k'); [contradiction | exact IH].
Qed.

Lemma lookup_obj_set_other (k k' : string) (v : value) (fs : list (string * value)) :
  k' <> k -> lookup k' (obj_set k v fs) = lookup k' fs.
Proof.
  intros Hne; induction fs as [| [k0 v0] fs IH]; simpl.
  - destruct (String.eqb_spec k' k); [contradiction | reflexivity].
  - destruct (String.eqb_spec k k0) as [-> | Hk]; simpl.
    + destruct (String.eqb_spec k' k0); [contradiction | reflexivity].
    + destruct (String.eqb_spec k' k0); [reflexivity | exact IH].
Qed.

(** A spread followed by a key writes no key twice. *)
Lemma obj_set_keys (k : string) (v : value) (fs : list (string * value)) :
  NoDup (map fst fs) -> NoDup (map fst (obj_set k v fs)).
Proof.
  assert (Hin : forall k0 fs0, In k0 (map fst (obj_set k v fs0)) -> k0 = k \/ In k0 (map fst fs0)).
  { intros k0 fs0; induction fs0 as [| [k1 v1] fs0 IH]; simpl.
    - intros [<- | []]; left; reflexivity.
    - destruct (String.eqb_spec k k1) as [-> | Hk]; simpl.
      + intros [<- | H]; [left; reflexivity | right; right; exact H].
      + intros [<- | H]; [right; left; reflexivity |].
        destruct (IH H) as [-> | H']; [left; reflexivity | right; right; exact H']. }
  induction fs as [| [k1 v1] fs IH]; simpl; intros Hnd.
  - constructor; [intros [] | constructor].
  - inversion Hnd as [| ? ? Hnot Hrest]; subst.
    destruct (String.eqb_spec k k1) as [-> | Hk]; simpl.
    + constructor; assumption.
    + constructor; [| exact (IH Hrest)].
      intros H; destruct (Hin _ _ H) as [-> | H']; [apply Hk; reflexivity | exact (Hnot H')].
Qed.

Lemma is_total_key_false (k : string) :
  is_total_key k = false ->
  k <> "outgoingTotal" /\ k <> "incomingTotal" /\ k <> "netTotal".
Proof.
  unfold is_total_key; intros H.
  apply orb_false_iff in H; destruct H as (H & Hn).
  apply orb_false_iff in H; destruct H as (Ho & Hi).
  apply String.eqb_neq in Ho, Hi, Hn; repeat split; assumption.
Qed.

(** X20: analytics with a tracker returns the summary with its three
    totals replaced by their string forms and every other field as the
    tracker gave it; when the summary has no duplicate key, neither has
    the output. *)
Theorem analytics_keeps_summary_and_stringifies_totals
    (Tracker : Type)
    (getSummary : Tracker -> option Z -> res (list (string * value)))
    (tracker : Tracker) (windowMs : option Z) (summary : list (string * value)) :
  getSummary tracker windowMs = Ok summary ->
  present (lookup "outgoingTotal" summary) = true ->
  present (lookup "incomingTotal" summary) = true ->
  present (lookup "netTotal" summary) = true ->
  exists fields,
    analytics Tracker getSummary (Some tracker) windowMs = Ok {| output := VObj fields |} /\
    lookup "outgoingTotal" fields = VStr (to_str (lookup "outgoingTotal" summary)) /\
    lookup "incomingTotal" fields = VStr (to_str (lookup "incomingTotal" summary)) /\
    lookup "netTotal" fields = VStr (to_str (lookup "netTotal" summary)) /\
    (forall k, is_total_key k = false -> lookup k fields = lookup k summary) /\
    (NoDup (map fst summary) -> NoDup (map fst fields)).
Proof.
  intros Hsum Ho Hi Hn.
  apply present_nullish in Ho, Hi, Hn.
  eexists; split.
  - unfold analytics, total_string, call_toString.
    rewrite Hsum; cbn [bind]; rewrite Ho, Hi, Hn; cbn [bind]; reflexivity.
  - split; [| split; [| split; [| split]]].
    + rewrite lookup_obj_set_other, lookup_obj_set_other by discriminate.
      apply lookup_obj_set_same.
    + rewrite lookup_obj_set_other by discriminate.
      apply lookup_obj_set_same.
    + apply lookup_obj_set_same.
    + intros k Hk; destruct (is_total_key_false k Hk) as (Hko & Hki & Hkn).
      rewrite !lookup_obj_set_other by assumption; reflexivity.
    + intros Hnd; repeat apply obj_set_keys; exact Hnd.
Qed.

Lemma analytics_keeps_summary_and_stringifies_totals_witness :
  exists fields,
    analytics Sample.ledger Sample.ledger_summary (Some Sample.two_payments) None
      = Ok {| output := VObj fields |} /\
    lookup "outgoingTotal" fields = VStr "0" /\
    lookup "incomingTotal" fields = VStr "4000" /\
    lookup "netTotal" fields = VStr "4000" /\
    (forall k, is_total_key k = false ->
               lookup k fields = lookup k [("outgoingTotal", VNum 0);
                                           ("incomingTotal", VNum 4000);
                                           ("netTotal", VNum 4000);
                                           ("outgoingCount", VNum 0);
                                           ("incomingCount", VNum 2)]) /\
    (NoDup (map fst [("outgoingTotal", VNum 0);
                     ("incomingTotal", VNum 4000);
                     ("netTotal", VNum 4000);
                     ("outgoingCount", VNum 0);
                     ("incomingCount", VNum 2)]) -> NoDup (map fst fields)).
Proof.
  exact (analytics_keeps_summary_and_stringifies_totals
           Sample.ledger Sample.ledger_summary Sample.two_payments None
           [("outgoingTotal", VNum 0);
            ("incomingTotal", VNum 4000);
            ("netTotal", VNum 4000);
            ("outgoingCount", VNum 0);
            ("incomingCount", VNum 2)]
           eq_refl eq_refl eq_refl eq_refl).
Defined.

(** X22: analytics with a tracker has no fallback of its own.  A failure of
    a tracker function is the failure of its handler, and a summary that
    lacks one of the three totals makes analytics fail with a
    [TypeError]. *)
Theorem analytics_failures_propagate
    (Tracker : Type)
    (getSummary : Tracker -> option Z -> res (list (string * value)))
    (getAllTransactions : Tracker -> option Z -> res (list value))
    (exportToCSV : Tracker -> option Z -> res string)
    (tracker : Tracker) (windowMs : option Z) :
  (forall e, getSummary tracker windowMs = Throw e ->
             analytics Tracker getSummary (Some tracker) windowMs = Throw e) /\
  (forall e limit, getAllTransactions tracker windowMs = Throw e ->
                   analytics_transactions Tracker getAllTransactions (Some tracker) windowMs limit
                   = Throw e) /\
  (forall e, exportToCSV tracker windowMs = Throw e ->
             analytics_csv Tracker exportToCSV (Some tracker) windowMs = Throw e) /\
  (forall summary,
      getSummary tracker windowMs = Ok summary ->
      nullish (lookup "outgoingTotal" summary) = true \/
      nullish (lookup "incomingTotal" summary) = true \/
      nullish (lookup "netTotal" summary) = true ->
      analytics Tracker getSummary (Some tracker) windowMs = Throw TypeError).
Proof.
  split; [| split; [| split]].
  - intros e H; unfold analytics; rewrite H; reflexivity.
  - intros e limit H; unfold analytics_transactions; rewrite H; reflexivity.
  - intros e H; unfold analytics_csv; rewrite H; reflexivity.
  - intros summary Hsum Hmissing.
    unfold analytics, total_string, call_toString; rewrite Hsum; cbn [bind].
    destruct (nullish (lookup "outgoingTotal" summary)); [reflexivity |]; cbn [bind].
    destruct (nullish (lookup "incomingTotal" summary)); [reflexivity |]; cbn [bind].
    destruct (nullish (lookup "netTotal" summary)); [reflexivity |].
    destruct Hmissing as [H | [H | H]]; discriminate H.
Qed.

Lemma analytics_failures_propagate_witness :
  analytics Sample.ledger Cases.failing_summary (Some Sample.two_payments) None
    = Throw (External "tracker") /\
  analytics_transactions Sample.ledger Cases.failing_transactions
      (Some Sample.two_payments) None 50 = Throw (External "tracker") /\
  analytics_csv Sample.ledger Cases.failing_csv (Some Sample.two_payments) None
    = Throw (External "tracker") /\
  analytics Sample.ledger Cases.partial_summary (Some Sample.two_payments) None
    = Throw TypeError.
Proof.
  destruct (analytics_failures_propagate
              Sample.ledger Cases.failing_summary Cases.failing_transactions
              Cases.failing_csv Sample.two_payments None) as (Hsum & Htx & Hcsv & _).
  destruct (analytics_failures_propagate
              Sample.ledger Cases.partial_summary Cases.failing_transactions
              Cases.failing_csv Sample.two_payments None) as (_ & _ & _ & Hpartial).
  split; [apply Hsum; reflexivity |].
  split; [apply Htx; reflexivity |].
  split; [apply Hcsv; reflexivity |].
  eapply Hpartial; [reflexivity | right; right; reflexivity].
Defined.

(** ** The registration document *)

Lemma base_url_shape (env : option string) :
  exists b, Routes.base_url env = VStr b /\ b <> EmptyString /\
            (forall s, env = Some s -> s <> EmptyString -> b = s) /\
            (env = None \/ env = Some EmptyString -> b = Routes.default_base_url).
Proof.
  unfold Routes.base_url, js_or; destruct env as [s |]; simpl.
  - destruct (String.eqb_spec s EmptyString) as [-> | Hne]; simpl.
    + exists Routes.default_base_url; split; [reflexivity |].
      split; [discriminate |]; split.
      * intros s Hs Hn; inversion Hs; subst; contradiction Hn; reflexivity.
      * intros _; reflexivity.
    + exists s; split; [reflexivity |]; split; [exact Hne |]; split.
      * intros s' Hs _; inversion Hs; reflexivity.
      * intros [H | H]; [discriminate H | inversion H; subst; contradiction Hne; reflexivity].
  - exists Routes.default_base_url; split; [reflexivity |].
    split; [discriminate |]; split.
    + intros s Hs; discriminate Hs.
    + intros _; reflexivity.
Qed.

(** X23: the registration document is built on one base URL.  That base is
    the BASE_URL variable when it is set and not empty, and the hard-coded
    production URL otherwise (an empty variable counts as unset); the web
    endpoint is the base, and the image and the A2A endpoint are the base
    followed by their fixed paths. *)
Theorem erc8004_hangs_on_one_base_url (env : option string) :
  exists b,
    b <> EmptyString /\
    (forall s, env = Some s -> s <> EmptyString -> b = s) /\
    (env = None \/ env = Some EmptyString -> b = Routes.default_base_url) /\
    prop (elem (prop (Routes.erc8004 env) "services") 0) "endpoint" = VStr b /\
    prop (Routes.erc8004 env) "image" = VStr (b ++ "/icon.png") /\
    prop (elem (prop (Routes.erc8004 env) "services") 1) "endpoint"
      = VStr (b ++ "/.well-known/agent.json").
Proof.
  destruct (base_url_shape env) as (b & Hb & Hne & Hset & Hunset).
  exists b; split; [exact Hne |]; split; [exact Hset |]; split; [exact Hunset |].
  unfold Routes.erc8004; rewrite Hb; repeat split; reflexivity.
Qed.

Lemma erc8004_hangs_on_one_base_url_witness :
  prop (Routes.erc8004 (Some "https://golf.example")) "image"
    = VStr "https://golf.example/icon.png" /\
  prop (Routes.erc8004 (Some EmptyString)) "image"
    = VStr "https://golf-intel-production.up.railway.app/icon.png" /\
  exists b,
    b <> EmptyString /\
    (forall s, Some "https://golf.example" = Some s -> s <> EmptyString -> b = s) /\
    (Some "https://golf.example" = None \/ Some "https://golf.example" = Some EmptyString ->
     b = Routes.default_base_url) /\
    prop (elem (prop (Routes.erc8004 (Some "https://golf.example")) "services") 0) "endpoint"
      = VStr b /\
    prop (Routes.erc8004 (Some "https://golf.example")) "image" = VStr (b ++ "/icon.png") /\
    prop (elem (prop (Routes.erc8004 (Some "https://golf.example")) "services") 1) "endpoint"
      = VStr (b ++ "/.well-known/agent.json").
Proof.
  split; [reflexivity |]; split; [reflexivity |].
  exact (erc8004_hangs_on_one_base_url (Some "https://golf.example")).
Defined.

(** ** Every reply of pga-leaderboard *)

Lemma pga_row_id (c : value) (i : nat) (r : value) :
  pga_row c i = Ok r -> prop r "playerId" = prop c "id".
Proof.
  intros H; destruct (pga_row_defaults _ _ _ H) as (_ & _ & Hid & _); exact Hid.
Qed.

(** X24: a reply of pga-leaderboard is either the error note alone, for a
    week without a tournament, or a leaderboard with its tournament block,
    player count and timestamp; in that case the rows are never more than
    the players counted, whatever the limit, and the player ids are those
    of the first competitors, in order. *)
Theorem pga_leaderboard_reply_kinds (w : world) (limit : Z) (out : value) :
  pga_leaderboard w limit = Ok {| output := out |} ->
  out = VObj [("error", VStr "No active PGA tournament")] \/
  exists ev cs rows,
    pga_scoreboard w ev cs /\
    out = VObj [("tournament", tournament_of ev);
                ("leaderboard", VArr rows);
                ("totalPlayers", VNum (Z.of_nat (List.length cs)));
                ("fetchedAt", VStr (now w))] /\
    (List.length rows <= List.length cs)%nat /\
    column "playerId" rows = column "id" (firstn (List.length rows) cs).
Proof.
  intros Hrun.
  pose proof Hrun as Hshape.
  destruct (pga_leaderboard_Ok w limit out Hrun)
    as [(Herr & _) | (ev & cs & Hup & _ & rows & _ & Hrows)].
  - left; unfold pga_leaderboard in Hshape; invert_binds Hshape.
    destruct (truthy (opt_idx x0 0)); cbn [negb] in Hshape.
    + invert_binds Hshape; inversion Hshape; subst out; discriminate Herr.
    + inversion Hshape; reflexivity.
  - right; exists ev, cs, rows; split; [exact Hup |].
    rewrite (pga_leaderboard_run w ev cs limit Hup), Hrows in Hshape.
    inversion Hshape; subst out; split; [reflexivity |].
    assert (Hlen : List.length rows = slice_count (List.length cs) limit).
    { rewrite (mapi_from_length _ _ _ _ Hrows); apply slice_list_length. }
    split; [rewrite Hlen; apply slice_count_le |].
    rewrite Hlen.
    exact (mapi_from_column pga_row "playerId" "id" pga_row_id _ 0 rows Hrows).
Qed.

Lemma pga_leaderboard_reply_kinds_witness :
  (exists out,
      pga_leaderboard Sample.off_season 50 = Ok {| output := out |} /\
      out = VObj [("error", VStr "No active PGA tournament")]) /\
  (exists out ev cs rows,
      pga_leaderboard Sample.live (-17) = Ok {| output := out |} /\
      pga_scoreboard Sample.live ev cs /\
      out = VObj [("tournament", tournament_of ev);
                  ("leaderboard", VArr rows);
                  ("totalPlayers", VNum (Z.of_nat (List.length cs)));
                  ("fetchedAt", VStr Sample.stamp)] /\
      (List.length rows <= List.length cs)%nat /\
      column "playerId" rows = column "id" (firstn (List.length rows) cs)).
Proof.
  split.
  - eexists; split; [vm_compute; reflexivity | reflexivity].
  - eexists.
    destruct (pga_leaderboard_reply_kinds Sample.live (-17) _ eq_refl)
      as [Herr | (ev & cs & rows & H)]; [discriminate Herr |].
    exists ev, cs, rows; split; [reflexivity | exact H].
Defined.

(** ** The sentinel defaults *)

Lemma js_or_defaults (a : value) (fallback : string) :
  defaults_to a fallback (js_or a (VStr fallback)).
Proof.
  unfold defaults_to, js_or; destruct (truthy a); split; intros H;
    try discriminate H; reflexivity.
Qed.

Lemma pga_row_sentinels (c : value) (i : nat) (r : value) :
  pga_row c i = Ok r ->
  defaults_to (opt_get (opt_get (prop c "athlete") "flag") "alt") "Unknown"
              (prop r "country") /\
  defaults_to (opt_get (prop c "status") "thru") "F" (prop r "thru").
Proof.
  unfold pga_row; intros H; invert_binds H.
  apply get_Ok in E0; destruct E0 as (_ & ->).
  apply get_Ok in E3; destruct E3 as (_ & ->).
  inversion H; subst r; simpl; split; apply js_or_defaults.
Qed.

(** X7: the sentinel defaults.  In every reply of pga-leaderboard, row i
    takes its [country] from [athlete.flag.alt] of upstream competitor i
    and its [thru] from [status.thru]; each is the upstream value when
    that is truthy, and 'Unknown', respectively 'F', otherwise, so both
    are always truthy.  In every overview reply with a leaderboard,
    [status] is the event's status description when that is truthy and
    'Unknown' otherwise, and [round] is its display period or 'N/A'. *)
Theorem rows_carry_defaults :
  (forall w limit out rows,
      pga_leaderboard w limit = Ok {| output := out |} ->
      prop out "leaderboard" = VArr rows ->
      exists ev cs,
        pga_scoreboard w ev cs /\
        forall i r,
          nth_error rows i = Some r ->
          exists c,
            nth_error cs i = Some c /\
            defaults_to (opt_get (opt_get (prop c "athlete") "flag") "alt") "Unknown"
                        (prop r "country") /\
            defaults_to (opt_get (prop c "status") "thru") "F" (prop r "thru") /\
            truthy (prop r "country") = true /\
            truthy (prop r "thru") = true) /\
  (forall w out rows,
      overview w = Ok {| output := out |} ->
      prop out "leaderboard" = VArr rows ->
      exists ev,
        first_event w pga_events_url ev /\
        defaults_to (opt_get (opt_get (prop ev "fullStatus") "type") "description") "Unknown"
                    (prop out "status") /\
        defaults_to (opt_get (prop ev "fullStatus") "displayPeriod") "N/A"
                    (prop out "round") /\
        truthy (prop out "status") = true /\
        truthy (prop out "round") = true).
Proof.
  split.
  - intros w limit out rows Hrun Hboard.
    destruct (pga_leaderboard_Ok w limit out Hrun)
      as [(_ & Hnone) | (ev & cs & Hup & _ & rows' & Hboard' & Hrows)].
    + rewrite Hnone in Hboard; discriminate Hboard.
    + rewrite Hboard' in Hboard; inversion Hboard; subst rows'.
      exists ev, cs; split; [exact Hup |].
      intros i r Hi.
      destruct (mapi_from_nth _ _ _ _ Hrows i r Hi) as (c & Hc & Hrow).
      exists c; split; [exact (nth_error_slice _ _ _ _ Hc) |].
      destruct (pga_row_sentinels _ _ _ Hrow) as (Hcountry & Hthru).
      destruct (pga_row_defaults _ _ _ Hrow) as (Hct & Htt & _).
      repeat split; try assumption; try apply Hcountry; apply Hthru.
  - intros w out rows Hrun Hboard.
    destruct (overview_shape w out Hrun)
      as (ev & Hev & [(_ & ->) | (_ & rows' & _ & ->)]); [discriminate Hboard |].
    exists ev; split; [exact Hev |]; simpl.
    split; [apply js_or_defaults |]; split; [apply js_or_defaults |].
    split; apply js_or_truthy; reflexivity.
Qed.

Lemma rows_carry_defaults_witness :
  (exists out rows,
      pga_leaderboard Cases.numeric_ids 2 = Ok {| output := out |} /\
      prop out "leaderboard" = VArr rows /\
      column "country" rows = [VStr "Unknown"; VStr "Unknown"] /\
      column "thru" rows = [VStr "F"; VStr "F"]) /\
  (exists out rows,
      pga_leaderboard Sample.live 2 = Ok {| output := out |} /\
      prop out "leaderboard" = VArr rows /\
      column "country" rows = [VStr "USA"; VStr "USA"] /\
      column "thru" rows = [VNum 12; VNum 12] /\
      exists ev cs,
        pga_scoreboard Sample.live ev cs /\
        forall i r,
          nth_error rows i = Some r ->
          exists c,
            nth_error cs i = Some c /\
            defaults_to (opt_get (opt_get (prop c "athlete") "flag") "alt") "Unknown"
                        (prop r "country") /\
            defaults_to (opt_get (prop c "status") "thru") "F" (prop r "thru") /\
            truthy (prop r "country") = true /\
            truthy (prop r "thru") = true) /\
  (exists out rows ev,
      overview Cases.bare_status = Ok {| output := out |} /\
      prop out "leaderboard" = VArr rows /\
      prop out "status" = VStr "Unknown" /\
      prop out "round" = VStr "N/A" /\
      first_event Cases.bare_status pga_events_url ev /\
      defaults_to (opt_get (opt_get (prop ev "fullStatus") "type") "description") "Unknown"
                  (prop out "status") /\
      defaults_to (opt_get (prop ev "fullStatus") "displayPeriod") "N/A"
                  (prop out "round") /\
      truthy (prop out "status") = true /\
      truthy (prop out "round") = true).
Proof.
  destruct rows_carry_defaults as (Hpga & Hoverview).
  split; [| split].
  - eexists; eexists; split; [vm_compute; reflexivity |].
    split; [vm_compute; reflexivity |]; split; reflexivity.
  - destruct (Hpga Sample.live 2 _ _ eq_refl eq_refl) as (ev & cs & H).
    eexists; eexists; split; [reflexivity |].
    split; [reflexivity |]; split; [reflexivity |]; split; [reflexivity |].
    exists ev, cs; exact H.
  - destruct (Hoverview Cases.bare_status _ _ eq_refl eq_refl) as (ev & H).
    eexists; eexists; exists ev; split; [reflexivity |].
    split; [reflexivity |]; split; [reflexivity |]; split; [reflexivity |].
    exact H.
Defined.
